(** * Pool/spa controller: declarations and web server

    A shallow embedding of the declarations of [controller_02.h] and
    [controller_03.h] and of the visitor table and its sort, the LCD-row
    expansion and the POST handler of [webserver_esp.cpp], with the
    properties proved about them.  Integers of the C code are [Z] with their ranges written out,
    C strings are [string]s cut at the first NUL, fixed-size arrays are lists
    read with [!!] and written with [<[_:=_]>], and an out-of-bounds store or
    a signed overflow is the [None] of an [option]. *)

From Stdlib Require Import ZArith Lia Bool Ascii String.
From stdpp Require Import base decidable option list finite strings.

#[local] Open Scope Z_scope.

(** ** Integer constant expressions

    The replacement list of an object-like macro such as
    [#define MODE_SPA_TIMEOUT 3*60] is a token sequence; the ones of the two
    headers are literals and products of literals, evaluated in [int]. *)

Inductive cexpr : Type :=
| Lit (n : Z)
| Mul (a b : cexpr).

(** The value of [z] as a signed integer of [bits] bits. *)
Definition wrap_signed (bits z : Z) : Z :=
  (z + 2 ^ (bits - 1)) mod 2 ^ bits - 2 ^ (bits - 1).

Fixpoint ceval (bits : Z) (e : cexpr) : Z :=
  match e with
  | Lit n => wrap_signed bits n
  | Mul a b => wrap_signed bits (ceval bits a * ceval bits b)
  end.

(** Value of an enumerator without initialiser: its position in the
    declaration. *)
Definition enumerator_value `{EqDecision A} (decl : list A) (x : A) : option Z :=
  (fun p => Z.of_nat (fst p)) <$> list_find (fun y => y = x) decl.

(** A build picks the value of [DEBUG_TIMES] (an identifier that is not
    defined reads as 0 in [#if]) and the width of [int]: 16 bits on the AVR
    of version 2, 32 bits on the ESP32 of version 3. *)
Record build : Type := {
  DEBUG_TIMES : Z;
  int_bits : Z
}.

(** The enumerations of the headers are finite types listed in declaration
    order; the two obligations of [Finite] are decided by computation. *)
Ltac finite_by_cases :=
  [> apply (bool_decide_unpack _); vm_compute; exact I
   | intros []; apply (bool_decide_unpack _); vm_compute; exact I ].

(** ** controller_02.h *)

Module Controller02.

(** ten relays: I/O pin numbers *)
Inductive relay : Type :=
| POOL_PUMP_RELAY
| SPA_PUMP_RELAY
| SPA_JETS_PUMP_RELAY
| HEAT_POOL_RELAY
| HEAT_SPA_RELAY
| POOL_VALVE_RELAY
| SPA_VALVE_RELAY
| HEATER_VALVE_RELAY
| POOL_LIGHT_RELAY
| SPARE_RELAY.

Definition relay_pin (r : relay) : Z :=
  match r with
  | POOL_PUMP_RELAY => 2
  | SPA_PUMP_RELAY => 3
  | SPA_JETS_PUMP_RELAY => 4
  | HEAT_POOL_RELAY => 5
  | HEAT_SPA_RELAY => 6
  | POOL_VALVE_RELAY => 7
  | SPA_VALVE_RELAY => 8
  | HEATER_VALVE_RELAY => 9
  | POOL_LIGHT_RELAY => 10
  | SPARE_RELAY => 11
  end.

Definition relays : list relay :=
  [POOL_PUMP_RELAY; SPA_PUMP_RELAY; SPA_JETS_PUMP_RELAY; HEAT_POOL_RELAY;
   HEAT_SPA_RELAY; POOL_VALVE_RELAY; SPA_VALVE_RELAY; HEATER_VALVE_RELAY;
   POOL_LIGHT_RELAY; SPARE_RELAY].

Inductive mode_t : Type :=
| MODE_IDLE
| MODE_HEAT_SPA
| MODE_HEAT_POOL
| MODE_FILL_SPA
| MODE_EMPTY_SPA
| MODE_FILTER_POOL
| MODE_FILTER_SPA.

Inductive heater_t : Type :=
| HEATING_NONE
| HEATING_SPA
| HEATING_POOL.

Inductive vconfig_t : Type :=
| VALVES_UNDEFINED
| VALVES_HEAT_SPA
| VALVES_HEAT_POOL
| VALVES_FILL_SPA
| VALVES_EMPTY_SPA.

Inductive pump_status_t : Type :=
| PUMP_NONE
| PUMP_SPA
| PUMP_POOL.

Definition mode_t_decl : list mode_t :=
  [MODE_IDLE; MODE_HEAT_SPA; MODE_HEAT_POOL; MODE_FILL_SPA; MODE_EMPTY_SPA;
   MODE_FILTER_POOL; MODE_FILTER_SPA].
Definition heater_t_decl : list heater_t :=
  [HEATING_NONE; HEATING_SPA; HEATING_POOL].
Definition vconfig_t_decl : list vconfig_t :=
  [VALVES_UNDEFINED; VALVES_HEAT_SPA; VALVES_HEAT_POOL; VALVES_FILL_SPA;
   VALVES_EMPTY_SPA].
Definition pump_status_t_decl : list pump_status_t :=
  [PUMP_NONE; PUMP_SPA; PUMP_POOL].

#[global] Instance relay_eq_dec : EqDecision relay.
Proof. solve_decision. Defined.
#[global] Instance mode_t_eq_dec : EqDecision mode_t.
Proof. solve_decision. Defined.
#[global] Instance heater_t_eq_dec : EqDecision heater_t.
Proof. solve_decision. Defined.
#[global] Instance vconfig_t_eq_dec : EqDecision vconfig_t.
Proof. solve_decision. Defined.
#[global] Instance pump_status_t_eq_dec : EqDecision pump_status_t.
Proof. solve_decision. Defined.

#[global] Instance relay_finite : Finite relay.
Proof. refine {| enum := relays |}; finite_by_cases. Defined.
#[global] Instance mode_t_finite : Finite mode_t.
Proof. refine {| enum := mode_t_decl |}; finite_by_cases. Defined.
#[global] Instance heater_t_finite : Finite heater_t.
Proof. refine {| enum := heater_t_decl |}; finite_by_cases. Defined.
#[global] Instance vconfig_t_finite : Finite vconfig_t.
Proof. refine {| enum := vconfig_t_decl |}; finite_by_cases. Defined.
#[global] Instance pump_status_t_finite : Finite pump_status_t.
Proof. refine {| enum := pump_status_t_decl |}; finite_by_cases. Defined.

(** Timing parameters *)
Section Timing.
Variable b : build.

Definition DELAY_HEATER_OFF : cexpr :=
  if decide (DEBUG_TIMES b <> 0) then Lit 5 else Lit 60.
Definition DELAY_VALVE_CHANGE : cexpr :=
  if decide (DEBUG_TIMES b <> 0) then Lit 5 else Lit 45.
Definition DELAY_PUMP_OFF : cexpr := Lit 3.
Definition DELAY_PUMP_ON : cexpr := Lit 3.
Definition TITLE_LINE_TIME : cexpr := Lit 2.

Definition FILTER_POOL_TIME : cexpr := Lit 20.
Definition FILTER_SPA_TIME : cexpr := Lit 10.

Definition MODE_SPA_TIMEOUT : cexpr := Mul (Lit 3) (Lit 60).
Definition MODE_POOL_TIMEOUT : cexpr := Mul (Lit 24) (Lit 60).
Definition MODE_FILL_TIMEOUT : cexpr := Lit 5.
Definition MODE_EMPTY_TIMEOUT : cexpr := Lit 5.

Definition POOL_LIGHT_TIMEOUT : cexpr := Mul (Lit 3) (Lit 60).
Definition SPA_JETS_TIMEOUT : cexpr := Mul (Lit 1) (Lit 60).

Definition DEBOUNCE_DELAY : cexpr := Lit 50.
End Timing.

(** Maxim DS18B20 temperature sensor *)
Definition TEMPSENSOR_PIN : Z := 12.

(** Hitachi HD44780 LCD controller *)
Definition LCD_D4 : Z := 24.
Definition LCD_D5 : Z := 25.
Definition LCD_D6 : Z := 26.
Definition LCD_D7 : Z := 27.
Definition LCD_ENB : Z := 23.
Definition LCD_RS : Z := 22.

(** temperature control rotary encoder *)
Definition TEMPCTL_INPUT_A : Z := 53.
Definition TEMPCTL_INPUT_B : Z := 52.

(** Eight pushbuttons *)
Inductive button : Type :=
| HEAT_SPA_BUTTON
| HEAT_POOL_BUTTON
| SPA_JETS_BUTTON
| POOL_LIGHT_BUTTON
| FILTER_SPA_BUTTON
| FILTER_POOL_BUTTON
| SPA_WATER_LEVEL_BUTTON
| PROGRAM_BUTTON.

Definition button_pin (b : button) : Z :=
  match b with
  | HEAT_SPA_BUTTON => 51
  | HEAT_POOL_BUTTON => 50
  | SPA_JETS_BUTTON => 49
  | POOL_LIGHT_BUTTON => 48
  | FILTER_SPA_BUTTON => 47
  | FILTER_POOL_BUTTON => 46
  | SPA_WATER_LEVEL_BUTTON => 45
  | PROGRAM_BUTTON => 44
  end.

Definition buttons : list button :=
  [HEAT_SPA_BUTTON; HEAT_POOL_BUTTON; SPA_JETS_BUTTON; POOL_LIGHT_BUTTON;
   FILTER_SPA_BUTTON; FILTER_POOL_BUTTON; SPA_WATER_LEVEL_BUTTON; PROGRAM_BUTTON].

(** pins for two TI TLC5916 LED driver chips in series *)
Definition LED_DRIVER_SDI : Z := 43.  (* serial data in *)
Definition LED_DRIVER_CLK : Z := 42.  (* clock *)
Definition LED_DRIVER_LE : Z := 41.   (* data latch enable *)
Definition LED_DRIVER_OD : Z := 40.   (* output disable *)

(** masks for 11 LEDs *)
Inductive led : Type :=
| HEAT_SPA_LED
| HEAT_POOL_LED
| SPA_JETS_LED
| POOL_LIGHT_LED
| FILTER_SPA_LED
| FILTER_POOL_LED
| SPA_WATER_LEVEL_LED
| PROGRAM_LED
| TEMPCTL_RED_LED
| TEMPCTL_GREEN_LED
| TEMPCTL_BLUE_LED.

Definition led_mask (l : led) : Z :=
  match l with
  | HEAT_SPA_LED => 0x0001
  | HEAT_POOL_LED => 0x0002
  | SPA_JETS_LED => 0x0004
  | POOL_LIGHT_LED => 0x0008
  | FILTER_SPA_LED => 0x0010
  | FILTER_POOL_LED => 0x0020
  | SPA_WATER_LEVEL_LED => 0x0040
  | PROGRAM_LED => 0x0080
  | TEMPCTL_RED_LED => 0x0100
  | TEMPCTL_GREEN_LED => 0x0200
  | TEMPCTL_BLUE_LED => 0x0400
  end.

Definition leds : list led :=
  [HEAT_SPA_LED; HEAT_POOL_LED; SPA_JETS_LED; POOL_LIGHT_LED; FILTER_SPA_LED;
   FILTER_POOL_LED; SPA_WATER_LEVEL_LED; PROGRAM_LED; TEMPCTL_RED_LED;
   TEMPCTL_GREEN_LED; TEMPCTL_BLUE_LED].

(** Test pins *)
Definition TESTPIN : Z := 14.

#[global] Instance button_eq_dec : EqDecision button.
Proof. solve_decision. Defined.
#[global] Instance led_eq_dec : EqDecision led.
Proof. solve_decision. Defined.
#[global] Instance button_finite : Finite button.
Proof. refine {| enum := buttons |}; finite_by_cases. Defined.
#[global] Instance led_finite : Finite led.
Proof. refine {| enum := leds |}; finite_by_cases. Defined.

(** The I/O pins that the header gives a use. *)
Definition io_pins : list Z :=
  (relay_pin <$> relays)
  ++ [TEMPSENSOR_PIN; LCD_D4; LCD_D5; LCD_D6; LCD_D7; LCD_ENB; LCD_RS;
      TEMPCTL_INPUT_A; TEMPCTL_INPUT_B]
  ++ (button_pin <$> buttons)
  ++ [LED_DRIVER_SDI; LED_DRIVER_CLK; LED_DRIVER_LE; LED_DRIVER_OD; TESTPIN].


End Controller02.

(** ** controller_03.h *)

Module Controller03.

Definition MAXLINE : Z := 500.
(** glyphs of the LCD character generator *)
Definition DOWNARROW : ascii := "001"%char.
Definition UPARROW : ascii := "002"%char.
Definition RIGHTARROW : ascii := "126"%char.
Definition LEFTARROW : ascii := "127"%char.

(** ten relays: the bits for the ADG728 drivers 0x4c and 0x4d *)
Inductive relay : Type :=
| POOL_PUMP_RELAY
| SPA_PUMP_RELAY
| SPA_JETS_PUMP_RELAY
| HEAT_POOL_RELAY
| HEAT_SPA_RELAY
| POOL_VALVE_RELAY
| SPA_VALVE_RELAY
| HEATER_VALVE_RELAY
| POOL_LIGHT_RELAY
| SPARE_RELAY.

Definition relay_mask (r : relay) : Z :=
  match r with
  | POOL_PUMP_RELAY => 0x0100      (* 0b0000000100000000, relay 1 *)
  | SPA_PUMP_RELAY => 0x0200       (* 0b0000001000000000, relay 2 *)
  | SPA_JETS_PUMP_RELAY => 0x0400  (* 0b0000010000000000, relay 3 *)
  | HEAT_POOL_RELAY => 0x0800      (* 0b0000100000000000, relay 4 *)
  | HEAT_SPA_RELAY => 0x1000       (* 0b0001000000000000, relay 5 *)
  | POOL_VALVE_RELAY => 0x2000     (* 0b0010000000000000, relay 6 *)
  | SPA_VALVE_RELAY => 0x4000      (* 0b0100000000000000, relay 7 *)
  | HEATER_VALVE_RELAY => 0x8000   (* 0b1000000000000000, relay 8 *)
  | POOL_LIGHT_RELAY => 0x0001     (* 0b0000000000000001, relay 9 *)
  | SPARE_RELAY => 0x0002          (* 0b0000000000000010, relay 10 *)
  end.

Definition relays : list relay :=
  [POOL_PUMP_RELAY; SPA_PUMP_RELAY; SPA_JETS_PUMP_RELAY; HEAT_POOL_RELAY;
   HEAT_SPA_RELAY; POOL_VALVE_RELAY; SPA_VALVE_RELAY; HEATER_VALVE_RELAY;
   POOL_LIGHT_RELAY; SPARE_RELAY].

(** Eight pushbuttons for the ADG728 mux at I2C 0x4e *)
Definition NUM_BUTTONS : Z := 8.

Inductive button : Type :=
| HEAT_SPA_BUTTON
| HEAT_POOL_BUTTON
| SPA_JETS_BUTTON
| POOL_LIGHT_BUTTON
| FILTER_SPA_BUTTON
| FILTER_POOL_BUTTON
| SPA_WATER_LEVEL_BUTTON
| MENU_BUTTON.

Definition button_mask (b : button) : Z :=
  match b with
  | HEAT_SPA_BUTTON => 0x01
  | HEAT_POOL_BUTTON => 0x02
  | SPA_JETS_BUTTON => 0x04
  | POOL_LIGHT_BUTTON => 0x08
  | FILTER_SPA_BUTTON => 0x10
  | FILTER_POOL_BUTTON => 0x20
  | SPA_WATER_LEVEL_BUTTON => 0x40
  | MENU_BUTTON => 0x80
  end.

Definition buttons : list button :=
  [HEAT_SPA_BUTTON; HEAT_POOL_BUTTON; SPA_JETS_BUTTON; POOL_LIGHT_BUTTON;
   FILTER_SPA_BUTTON; FILTER_POOL_BUTTON; SPA_WATER_LEVEL_BUTTON; MENU_BUTTON].

Inductive global_mode_t : Type :=
| MODE_IDLE
| MODE_HEAT_SPA
| MODE_HEAT_POOL
| MODE_FILL_SPA
| MODE_EMPTY_SPA
| MODE_FILTER_POOL
| MODE_FILTER_SPA.

Inductive heater_t : Type :=
| HEATING_NONE
| HEATING_SPA
| HEATING_POOL.

Inductive vconfig_t : Type :=
| VALVES_UNDEFINED
| VALVES_HEAT_SPA
| VALVES_HEAT_POOL
| VALVES_FILL_SPA
| VALVES_EMPTY_SPA.

Inductive pump_status_t : Type :=
| PUMP_NONE
| PUMP_SPA
| PUMP_POOL.

Definition global_mode_t_decl : list global_mode_t :=
  [MODE_IDLE; MODE_HEAT_SPA; MODE_HEAT_POOL; MODE_FILL_SPA; MODE_EMPTY_SPA;
   MODE_FILTER_POOL; MODE_FILTER_SPA].
Definition heater_t_decl : list heater_t :=
  [HEATING_NONE; HEATING_SPA; HEATING_POOL].
Definition vconfig_t_decl : list vconfig_t :=
  [VALVES_UNDEFINED; VALVES_HEAT_SPA; VALVES_HEAT_POOL; VALVES_FILL_SPA;
   VALVES_EMPTY_SPA].
Definition pump_status_t_decl : list pump_status_t :=
  [PUMP_NONE; PUMP_SPA; PUMP_POOL].

#[global] Instance relay_eq_dec : EqDecision relay.
Proof. solve_decision. Defined.
#[global] Instance global_mode_t_eq_dec : EqDecision global_mode_t.
Proof. solve_decision. Defined.
#[global] Instance heater_t_eq_dec : EqDecision heater_t.
Proof. solve_decision. Defined.
#[global] Instance vconfig_t_eq_dec : EqDecision vconfig_t.
Proof. solve_decision. Defined.
#[global] Instance pump_status_t_eq_dec : EqDecision pump_status_t.
Proof. solve_decision. Defined.

#[global] Instance relay_finite : Finite relay.
Proof. refine {| enum := relays |}; finite_by_cases. Defined.
#[global] Instance global_mode_t_finite : Finite global_mode_t.
Proof. refine {| enum := global_mode_t_decl |}; finite_by_cases. Defined.
#[global] Instance heater_t_finite : Finite heater_t.
Proof. refine {| enum := heater_t_decl |}; finite_by_cases. Defined.
#[global] Instance vconfig_t_finite : Finite vconfig_t.
Proof. refine {| enum := vconfig_t_decl |}; finite_by_cases. Defined.
#[global] Instance pump_status_t_finite : Finite pump_status_t.
Proof. refine {| enum := pump_status_t_decl |}; finite_by_cases. Defined.
#[global] Instance button_eq_dec : EqDecision button.
Proof. solve_decision. Defined.
#[global] Instance button_finite : Finite button.
Proof. refine {| enum := buttons |}; finite_by_cases. Defined.

(** Maxim DS1307 format: 8 bytes *)
Record datetime : Type := {
  sec : Z; min : Z; hour : Z; ampm : Z;
  day : Z; date : Z; month : Z; year : Z
}.

(** Timing parameters *)
Section Timing.
Variable b : build.

Definition DELAY_HEATER_OFF : cexpr :=
  if decide (DEBUG_TIMES b <> 0) then Lit 5 else Lit 60.
Definition DELAY_VALVE_CHANGE : cexpr :=
  if decide (DEBUG_TIMES b <> 0) then Lit 5 else Lit 45.
Definition DELAY_PUMP_OFF : cexpr := Lit 3.
Definition DELAY_PUMP_ON : cexpr := Lit 3.
Definition TITLE_LINE_TIME : cexpr := Lit 2.

Definition FILTER_POOL_TIME : cexpr := Lit 20.
Definition FILTER_SPA_TIME : cexpr := Lit 10.

Definition MODE_SPA_TIMEOUT : cexpr := Mul (Lit 3) (Lit 60).
Definition MODE_POOL_TIMEOUT : cexpr := Mul (Lit 24) (Lit 60).
Definition MODE_FILL_TIMEOUT : cexpr := Lit 5.
Definition MODE_EMPTY_TIMEOUT : cexpr := Lit 5.

Definition POOL_LIGHT_TIMEOUT : cexpr := Mul (Lit 3) (Lit 60).
Definition SPA_JETS_TIMEOUT : cexpr := Mul (Lit 1) (Lit 60).

Definition DEBOUNCE_DELAY : cexpr := Lit 50.
End Timing.

(** temperature limits *)
Definition TEMP_MIN : Z := 60.
Definition TEMP_MAX_POOL : Z := 92.
Definition TEMP_MAX_SPA : Z := 105.

(** I/O pin where the muxed button appears *)
Definition PUSHBUTTON_IN : Z := 12.

(** Maxim DS18B20 temperature sensor *)
Definition TEMPSENSOR_PIN : Z := 13.

(** I2C addresses *)
Definition LCD_DISPLAY : Z := 0x20.     (* 20x4 LCD display Adafruit I2C backpack *)
Definition RELAYS1to8 : Z := 0x4c.      (* Analog Devices ADG728 *)
Definition RELAYS9to10 : Z := 0x4d.     (* Analog Devices ADG728 *)
Definition PUSHBUTTONS : Z := 0x4e.     (* Analog Devices ADG728 *)
Definition REALTIME_CLOCK : Z := 0x68.  (* Maxim DS3231 *)

(** temperature control rotary encoder *)
Definition TEMPCTL_INPUT_A : Z := 14.
Definition TEMPCTL_INPUT_B : Z := 32.

(** pins for two TI TLC5916 LED driver chips in series *)
Definition LED_DRIVER_SDI : Z := 27.  (* serial data in *)
Definition LED_DRIVER_CLK : Z := 33.  (* clock *)
Definition LED_DRIVER_LE : Z := 21.   (* data latch enable *)
Definition LED_DRIVER_OD : Z := 15.   (* output disable *)

(** masks for 11 LEDs *)
Definition NUM_LEDS : Z := 11.

Inductive led : Type :=
| HEAT_SPA_LED
| HEAT_POOL_LED
| SPA_JETS_LED
| POOL_LIGHT_LED
| FILTER_SPA_LED
| FILTER_POOL_LED
| SPA_WATER_LEVEL_LED
| MENU_LED
| TEMPCTL_RED_LED
| TEMPCTL_GREEN_LED
| TEMPCTL_BLUE_LED.

Definition led_mask (l : led) : Z :=
  match l with
  | HEAT_SPA_LED => 0x0001
  | HEAT_POOL_LED => 0x0002
  | SPA_JETS_LED => 0x0004
  | POOL_LIGHT_LED => 0x0008
  | FILTER_SPA_LED => 0x0010
  | FILTER_POOL_LED => 0x0020
  | SPA_WATER_LEVEL_LED => 0x0040
  | MENU_LED => 0x0080
  | TEMPCTL_RED_LED => 0x0400
  | TEMPCTL_GREEN_LED => 0x0200
  | TEMPCTL_BLUE_LED => 0x0100
  end.

Definition leds : list led :=
  [HEAT_SPA_LED; HEAT_POOL_LED; SPA_JETS_LED; POOL_LIGHT_LED; FILTER_SPA_LED;
   FILTER_POOL_LED; SPA_WATER_LEVEL_LED; MENU_LED; TEMPCTL_RED_LED;
   TEMPCTL_GREEN_LED; TEMPCTL_BLUE_LED].

Definition LED_OFF : Z := 0x0000.
Definition LED_ON : Z := 0xffff.

#[global] Instance led_eq_dec : EqDecision led.
Proof. solve_decision. Defined.
#[global] Instance led_finite : Finite led.
Proof. refine {| enum := leds |}; finite_by_cases. Defined.

(** The LED that the header names after a button. *)
Definition button_led (b : button) : led :=
  match b with
  | HEAT_SPA_BUTTON => HEAT_SPA_LED
  | HEAT_POOL_BUTTON => HEAT_POOL_LED
  | SPA_JETS_BUTTON => SPA_JETS_LED
  | POOL_LIGHT_BUTTON => POOL_LIGHT_LED
  | FILTER_SPA_BUTTON => FILTER_SPA_LED
  | FILTER_POOL_BUTTON => FILTER_POOL_LED
  | SPA_WATER_LEVEL_BUTTON => SPA_WATER_LEVEL_LED
  | MENU_BUTTON => MENU_LED
  end.

(** The I/O pins and the I2C addresses that the header gives a use. *)
Definition io_pins : list Z :=
  [PUSHBUTTON_IN; TEMPSENSOR_PIN; TEMPCTL_INPUT_A; TEMPCTL_INPUT_B;
   LED_DRIVER_SDI; LED_DRIVER_CLK; LED_DRIVER_LE; LED_DRIVER_OD].
Definition i2c_addresses : list Z :=
  [LCD_DISPLAY; RELAYS1to8; RELAYS9to10; PUSHBUTTONS; REALTIME_CLOCK].


End Controller03.

(** ** webserver_esp.cpp *)

Module Webserver.
Import Controller03.

Definition MAX_IP_ADDRESSES : Z := 50.  (* maximum visitors we keep track of *)
(** [int] and [long] are both 32 bits wide on the ESP32. *)
Definition INT_MAX : Z := 2147483647.
Definition INT_MIN : Z := -2147483648.
Definition LONG_MAX : Z := 2147483647.
Definition LONG_MIN : Z := -2147483648.

(** [typedef uint32_t IPV4address] *)
Definition IPV4address : Type := Z.

(** *** Visitor history routines *)

(** history of the clients whose web browsers made requests *)
Record client_t : Type := {
  ip_address : IPV4address;
  count : Z;
  first_time : datetime;
  recent_time : datetime;
  gave_password : bool
}.

Definition zero_datetime : datetime :=
  {| sec := 0; min := 0; hour := 0; ampm := 0;
     day := 0; date := 0; month := 0; year := 0 |}.

Definition zero_client : client_t :=
  {| ip_address := 0; count := 0; first_time := zero_datetime;
     recent_time := zero_datetime; gave_password := false |}.

(** [clients[MAX_IP_ADDRESSES]] has static storage: it starts zeroed. *)
Definition clients_init : list client_t :=
  replicate (Z.to_nat MAX_IP_ADDRESSES) zero_client.

(** [a[i]] for an [int] index: [None] outside the array. *)
Definition load {A} (a : list A) (i : Z) : option A :=
  if decide (0 <= i) then a !! Z.to_nat i else None.

(** [a[i] = x] for an [int] index: [None] outside the array. *)
Definition store {A} (a : list A) (i : Z) (x : A) : option (list A) :=
  if decide (0 <= i < Z.of_nat (length a)) then Some (<[Z.to_nat i := x]> a)
  else None.

(** The locals of [remember_ip_address] when its [for] loop ends, or the
    index at which the loop returned. *)
Inductive scan_t : Type :=
| Returned (ndx : Z)
| Finished (empty_ndx min_ndx min_count : Z).

(** The loop [for (ndx = 0; ndx < MAX_IP_ADDRESSES; ++ndx)] over the slots
    from [ndx] on, [cs] being [clients[ndx..]]. *)
Fixpoint scan_clients (addr : IPV4address) (cs : list client_t)
    (ndx empty_ndx min_ndx min_count : Z) : scan_t :=
  match cs with
  | [] => Finished empty_ndx min_ndx min_count
  | c :: cs' =>
      if decide (ip_address c = addr) then Returned ndx
      else if decide (count c = 0)
      then scan_clients addr cs' (ndx + 1) ndx min_ndx min_count
      else if decide (count c < min_count)
      then scan_clients addr cs' (ndx + 1) empty_ndx ndx (count c)
      else scan_clients addr cs' (ndx + 1) empty_ndx min_ndx min_count
  end.

(** The entry of a client seen again: [recent_time = now; ++count]. *)
Definition seen_again (now : datetime) (c : client_t) : client_t :=
  {| ip_address := ip_address c; count := count c + 1;
     first_time := first_time c; recent_time := now;
     gave_password := gave_password c |}.

(** The new entry created for an address. *)
Definition new_entry (now : datetime) (addr : IPV4address) : client_t :=
  {| ip_address := addr; count := 1; first_time := now;
     recent_time := now; gave_password := false |}.

(** record an IP address in our table; the result is the new table and the
    index of the entry the function returns a pointer to.  [++count] past
    [LONG_MAX] and a store outside [clients] are undefined: [None]. *)
Definition remember_ip_address (now : datetime) (addr : IPV4address)
    (clients : list client_t) : option (list client_t * Z) :=
  match scan_clients addr clients 0 (-1) (-1) INT_MAX with
  | Returned ndx =>
      c ← load clients ndx;
      if decide (count c < LONG_MAX) then
        clients' ← store clients ndx (seen_again now c);
        Some (clients', ndx)
      else None
  | Finished empty_ndx min_ndx min_count =>
      let min_ndx := if decide (empty_ndx >= 0) then empty_ndx else min_ndx in
      clients' ← store clients min_ndx (new_entry now addr);
      Some (clients', min_ndx)
  end.

(** An entry is in use when its count is not 0 (the test of the loop). *)
Definition occupied (c : client_t) : Prop := count c <> 0.

(** A slot that repeats the address of an earlier slot is not in use. *)
Definition distinct_addresses (t : list client_t) : Prop :=
  forall (i j : nat) (ci cj : client_t),
    t !! i = Some ci -> t !! j = Some cj -> (i < j)%nat ->
    ip_address ci = ip_address cj -> count cj = 0.

(** What holds of the table after at most [n] requests. *)
Definition visitor_table (n : Z) (t : list client_t) : Prop :=
  length t = Z.to_nat MAX_IP_ADDRESSES /\
  distinct_addresses t /\
  Forall (fun c => 0 <= count c <= n) t.

(** [compare_datetime] is declared in [controller_03.h]; its body belongs to
    the main sketch.  The sort takes it as it comes. *)
Section Sort.
Variable compare_datetime : datetime -> datetime -> Z.

(** The inner loop of [sort_clients], entered with [insert = n - 1], and the
    store [clients[insert + 1] = temp] after it. *)
Fixpoint make_room (temp : client_t) (clients : list client_t) (n : nat)
    : option (list client_t) :=
  match n with
  | O => store clients 0 temp
  | S insert =>
      c ← clients !! insert;
      if decide (compare_datetime (recent_time c) (recent_time temp) < 0) then
        clients' ← store clients (Z.of_nat (S insert)) c;
        make_room temp clients' insert
      else store clients (Z.of_nat (S insert)) temp
  end.

(** The outer loop [while (next < MAX_IP_ADDRESSES)], with [fuel] turns
    left. *)
Fixpoint sort_from (fuel next : nat) (clients : list client_t)
    : option (list client_t) :=
  match fuel with
  | O => Some clients
  | S fuel' =>
      temp ← clients !! next;
      clients' ← make_room temp clients next;
      sort_from fuel' (S next) clients'
  end.

(** sort the client array by most recent visit time *)
Definition sort_clients (clients : list client_t) : option (list client_t) :=
  sort_from (Z.to_nat (MAX_IP_ADDRESSES - 1)) 1 clients.

(** No entry was visited less recently than the entry after it. *)
Fixpoint newest_first (t : list client_t) : Prop :=
  match t with
  | c :: t' =>
      match t' with
      | c' :: _ => ~ compare_datetime (recent_time c) (recent_time c') < 0
      | [] => True
      end /\ newest_first t'
  | [] => True
  end.

(** A request as the visitor table sees it: every handler records the visit
    with [report_ip_address], and the handler of /visitors then sorts the
    table in [visitors_dump]. *)
Record request_t : Type := {
  request_now : datetime;
  request_addr : IPV4address;
  request_visitors : bool
}.

Fixpoint serve_all (reqs : list request_t) (clients : list client_t)
    : option (list client_t) :=
  match reqs with
  | [] => Some clients
  | r :: reqs' =>
      t ← remember_ip_address (request_now r) (request_addr r) clients;
      t' ← (if request_visitors r then sort_clients t.1 else Some t.1);
      serve_all reqs' t'
  end.

(** The clock never reads a time before the zeroed [recent_time] of a slot
    that was never used. *)
Definition clock_set (reqs : list request_t) : Prop :=
  Forall (fun r => ~ compare_datetime (request_now r) zero_datetime < 0) reqs.
End Sort.

(** [distinct_addresses] read along the list: each slot against the slots
    after it. *)
Fixpoint earlier_wins (t : list client_t) : Prop :=
  match t with
  | [] => True
  | c :: t' =>
      Forall (fun c' => ip_address c = ip_address c' -> count c' = 0) t' /\
      earlier_wins t'
  end.

(** What a handler does besides writing the variables of [server_t]: the
    lines it prints with [dprint], the store into [button_webpushed], the
    calls of [temp_change] and [delay], and the response it sends. *)
Inductive effect : Type :=
| Dprint_request (content : string)
| Dprint_button (button : Z)            (* "got push of button %d\n" *)
| Dprint_temp_up                        (* "got push of temp up\n" *)
| Dprint_temp_down                      (* "got push of temp down\n" *)
| Dprint_unexpected (datalen : Z) (postdata : string)
| Store_button_webpushed (button : Z)   (* button_webpushed[button] = true *)
| Call_temp_change (direction : Z)      (* temp_change(direction) *)
| Call_delay (ms : Z)
| Send_home_page.

(** What the handlers read and write outside their locals: the array
    shared with the controller task, the visitor table, the request
    counter, and the calls made so far, oldest first. *)
Record server_t : Type := {
  button_webpushed : list bool;
  clients : list client_t;
  client_requests : Z;
  effects : list effect
}.

(** The state when the web server task starts: no button pushed from the
    web, the zeroed visitor table, no request counted. *)
Definition server_init : server_t :=
  {| button_webpushed := replicate (Z.to_nat NUM_BUTTONS) false;
     clients := clients_init;
     client_requests := 0;
     effects := [] |}.

(** [report_ip_address]: count the request, log it and record the remote
    address ([get_remote_ip] gives 0 when the peer name is not available).
    The log line is formatted from [addr], the method, the URI and
    [content]; the model keeps [content].  [++client_requests] past
    [INT_MAX] is undefined: [None]. *)
Definition report_ip_address (now : datetime) (addr : IPV4address)
    (content : string) (st : server_t) : option server_t :=
  if decide (client_requests st < INT_MAX) then
    r ← remember_ip_address now addr (clients st);
    Some {| button_webpushed := button_webpushed st;
            clients := r.1;
            client_requests := client_requests st + 1;
            effects := effects st ++ [Dprint_request content] |}
  else None.

(** *** Common routines for responses *)

Definition HTML_DOWNARROW : string := "&#8595;".
Definition HTML_UPARROW : string := "&#8593;".
Definition HTML_RIGHTARROW : string := "&#8594;".
Definition HTML_LEFTARROW : string := "&#8592;".

Definition NUL : ascii := "000"%char.
Definition newline : ascii := "010"%char.

(** [sizeof] of a string literal: its characters and the terminator. *)
Definition sizeof (lit : string) : Z := Z.of_nat (String.length lit) + 1.

(** How an access to an array can go wrong. *)
Inductive fault : Type :=
| Read_outside
| Read_indeterminate
| Write_outside.

Inductive outcome (A : Type) : Type :=
| Done (x : A)
| Fault (f : fault).
Arguments Done {A} x.
Arguments Fault {A} f.

Definition obind {A B} (c : outcome A) (k : A -> outcome B) : outcome B :=
  match c with
  | Done x => k x
  | Fault f => Fault f
  end.

Notation "'run' x <- c ; k" := (obind c (fun x => k))
  (at level 10, x name, c at level 100, k at level 200).

(** A local [char] array: a cell holds [None] until it is first written. *)
Definition chars : Type := list (option ascii).

Definition poke (a : chars) (i : Z) (c : ascii) : outcome chars :=
  match store a i (Some c) with
  | Some a' => Done a'
  | None => Fault Write_outside
  end.

(** [strcpy(a + dst, s)]: the characters of [s], then the terminator. *)
Fixpoint strcpy (a : chars) (dst : Z) (s : string) : outcome chars :=
  match s with
  | EmptyString => poke a dst NUL
  | String c s' => run a' <- poke a dst c; strcpy a' (dst + 1) s'
  end.

(** The C string that starts at [a[0]], as [strlen] and
    [HTTPD_RESP_USE_STRLEN] read it. *)
Fixpoint c_string (a : chars) : outcome string :=
  match a with
  | [] => Fault Read_outside
  | None :: _ => Fault Read_indeterminate
  | Some c :: a' =>
      if decide (c = NUL) then Done EmptyString
      else run s <- c_string a'; Done (String c s)
  end.

(** [char lcdbuf[4][21]], row after row. *)
Definition LCD_ROWS : Z := 4.
Definition LCD_COLS : Z := 21.

(** The text one LCD character stands for in the chunk. *)
Definition expansion (cursor : bool) (c : ascii) : string :=
  if decide (c = LEFTARROW) then HTML_LEFTARROW
  else if decide (c = UPARROW) then HTML_UPARROW
  else if decide (c = RIGHTARROW) then HTML_RIGHTARROW
  else if decide (c = DOWNARROW) then HTML_DOWNARROW
  else if decide (c = " "%char) then "&nbsp;"
  else if cursor then "<u>" +:+ String c "</u>"
  else String c EmptyString.

Section Expand.
Variable lcd_cursorblinking : bool.
Variables lcdrow lcdcol : Z.
Variable row : Z.

(** One turn of the loop body of [expand_arrows_and_blanks] for the
    character [c] read at column [col]: the array and [dst] after it. *)
Definition expand_char (c : ascii) (col : Z) (outmsg : chars) (dst : Z)
    : outcome (chars * Z) :=
  if decide (c = LEFTARROW) then
    run a <- strcpy outmsg dst HTML_LEFTARROW;
    Done (a, dst + (sizeof HTML_LEFTARROW - 1))
  else if decide (c = UPARROW) then
    run a <- strcpy outmsg dst HTML_UPARROW;
    Done (a, dst + (sizeof HTML_UPARROW - 1))
  else if decide (c = RIGHTARROW) then
    run a <- strcpy outmsg dst HTML_RIGHTARROW;
    Done (a, dst + (sizeof HTML_RIGHTARROW - 1))
  else if decide (c = DOWNARROW) then
    run a <- strcpy outmsg dst HTML_DOWNARROW;
    Done (a, dst + (sizeof HTML_DOWNARROW - 1))
  else if decide (c = " "%char) then
    run a <- strcpy outmsg dst "&nbsp;";
    Done (a, dst + 6)
  else if decide (lcd_cursorblinking = true /\ row = lcdrow /\ col = lcdcol) then
    (* sprintf(dst, "<u>%c</u>", c) stores 8 characters and the
       terminator and returns 8 *)
    run a <- strcpy outmsg dst ("<u>" +:+ String c "</u>");
    Done (a, dst + 8)
  else
    run a <- poke outmsg dst c;
    Done (a, dst + 1).

(** The loop [for (src = lcdbuf[row], col = 0;
    *src && dst - outmsg < MAXLINE - 15; ++src, ++col)], [src] being the
    characters of [lcdbuf] from the pointer on. *)
Fixpoint expand_loop (src : list ascii) (col : Z) (outmsg : chars) (dst : Z)
    : outcome (chars * Z) :=
  match src with
  | [] => Fault Read_outside
  | c :: src' =>
      if decide (c <> NUL /\ dst < MAXLINE - 15) then
        run r <- expand_char c col outmsg dst;
        expand_loop src' (col + 1) r.1 r.2
      else Done (outmsg, dst)
  end.

(** The text the loop leaves below [dst]: the expansions of the
    characters it goes through. *)
Fixpoint expanded (src : list ascii) (col dst : Z) : list ascii :=
  match src with
  | [] => []
  | c :: src' =>
      if decide (c <> NUL /\ dst < MAXLINE - 15) then
        let e := expansion
          (bool_decide (lcd_cursorblinking = true /\ row = lcdrow /\ col = lcdcol)) c in
        list_ascii_of_string e
          ++ expanded src' (col + 1) (dst + Z.of_nat (String.length e))
      else []
  end.

(** The expansions of the characters of a row, with the cursor character
    underlined, [col] being the column of the first one. *)
Fixpoint expand_text (text : list ascii) (col : Z) : list ascii :=
  match text with
  | [] => []
  | c :: text' =>
      list_ascii_of_string
        (expansion
           (bool_decide (lcd_cursorblinking = true /\ row = lcdrow /\ col = lcdcol)) c)
        ++ expand_text text' (col + 1)
  end.

(** expand our arrow symbols into HTML arrows, blanks into &nbsp, then
    send to client: the result is the chunk that is sent. *)
Definition expand_arrows_and_blanks (lcdbuf : list ascii) : outcome string :=
  let outmsg : chars := replicate (Z.to_nat MAXLINE) None in
  if decide (0 <= row) then
    run r <- expand_loop (drop (Z.to_nat (LCD_COLS * row)) lcdbuf) 0 outmsg 0;
    run a <- strcpy r.1 r.2 ("<br>" +:+ String newline EmptyString);
    c_string a
  else Fault Read_outside.
End Expand.

(** *** Post code *)

Definition EOF : Z := -1.

Definition char_code (c : ascii) : Z := Z.of_N (N_of_ascii c).

(** [isspace] and [isdigit] in the C locale *)
Definition isspace (c : ascii) : bool :=
  bool_decide (char_code c = 32 \/ 9 <= char_code c <= 13).
Definition isdigit (c : ascii) : bool :=
  bool_decide (48 <= char_code c <= 57).

(** The ordinary characters of a format matched against the input: what is
    left of the input, a character that differs, or the end of the input. *)
Inductive literal_t : Type :=
| Matched (rest : string)
| Mismatch
| Input_end.

Fixpoint scan_literal (format input : string) : literal_t :=
  match format, input with
  | EmptyString, _ => Matched input
  | String _ _, EmptyString => Input_end
  | String f format', String c input' =>
      if decide (f = c) then scan_literal format' input' else Mismatch
  end.

Fixpoint skip_space (input : string) : string :=
  match input with
  | String c input' => if isspace c then skip_space input' else input
  | EmptyString => EmptyString
  end.

(** The decimal digits the input starts with, most significant first. *)
Fixpoint scan_digits (input : string) : list Z :=
  match input with
  | String c input' =>
      if isdigit c then (char_code c - 48) :: scan_digits input' else []
  | EmptyString => []
  end.

Definition decimal (digits : list Z) : Z :=
  foldl (fun acc d => 10 * acc + d) 0 digits.

(** [strtol] gives [LONG_MIN] or [LONG_MAX] for a value out of range; the
    C library of the ESP32 converts [%d] with it. *)
Definition clamp_long (z : Z) : Z := Z.max LONG_MIN (Z.min LONG_MAX z).

(** The conversion [%d]: white space, an optional sign, decimal digits.
    The result is what [sscanf] returns when [%d] is the first conversion
    of the format, and the [int] it stores if it does. *)
Definition scan_d (input : string) : Z * option Z :=
  match skip_space input with
  | EmptyString => (EOF, None)
  | String c input' =>
      let negative := bool_decide (c = "-"%char) in
      let digits :=
        if decide (c = "-"%char \/ c = "+"%char) then scan_digits input'
        else scan_digits (String c input') in
      match digits with
      | [] => (0, None)
      | _ :: _ =>
          (1, Some (clamp_long (if negative then - decimal digits
                                else decimal digits)))
      end
  end.

(** [sscanf(postdata, "button=%d", &button)] *)
Definition sscanf_button (postdata : string) : Z * option Z :=
  match scan_literal "button=" postdata with
  | Matched rest => scan_d rest
  | Mismatch => (0, None)
  | Input_end => (EOF, None)
  end.

(** The texts that [sscanf] converts with ["button=%d"], and the number it
    then stores, as a grammar: the literal, white space or none, a sign or
    none, decimal digits, and a rest that does not go on with a digit. *)
Definition all_chars (p : ascii -> bool) (s : string) : Prop :=
  Forall (fun c => p c = true) (list_ascii_of_string s).

Definition digit_values (digits : string) : list Z :=
  (fun c => char_code c - 48) <$> list_ascii_of_string digits.

Definition button_text (postdata : string) (b : Z) : Prop :=
  exists spaces sign digits rest : string,
    postdata = "button=" +:+ spaces +:+ sign +:+ digits +:+ rest /\
    all_chars isspace spaces /\
    (sign = "" \/ sign = "+" \/ sign = "-") /\
    digits <> "" /\ all_chars isdigit digits /\
    (forall c rest', rest = String c rest' -> isdigit c = false) /\
    b = clamp_long (if decide (sign = "-") then - decimal (digit_values digits)
                    else decimal (digit_values digits)).

(** [char postdata[25]] *)
Definition sizeof_postdata : Z := 25.

(** The bytes of [s] stored from [a[dst]] on, without a terminator. *)
Fixpoint store_bytes (a : chars) (dst : Z) (s : string) : outcome chars :=
  match s with
  | EmptyString => Done a
  | String c s' => run a' <- poke a dst c; store_bytes a' (dst + 1) s'
  end.

(** [httpd_req_recv(req, buf, buf_len)] on a request whose body is [body],
    when the call returns [ret]: a positive [ret] is the number of bytes of
    the body that it has stored at the start of [buf]; with a [ret] of 0
    (the peer has closed the connection) or below 0 (an error of the
    socket, such as a timeout) it has stored nothing.  The call returns no
    more than [buf_len] and no more than the body holds; it may return
    less. *)
Definition httpd_req_recv (body : string) (ret : Z) (buf : chars) : outcome chars :=
  store_bytes buf 0 (String.substring 0 (Z.to_nat ret) body).

(** An outcome without the kind of the fault. *)
Definition defined {A} (c : outcome A) : option A :=
  match c with
  | Done x => Some x
  | Fault _ => None
  end.

(** The C string in a buffer that holds [data] followed by a terminator:
    it ends at the first NUL. *)
Fixpoint c_str (data : string) : string :=
  match data with
  | EmptyString => EmptyString
  | String c data' => if decide (c = NUL) then EmptyString else String c (c_str data')
  end.

Definition log (e : effect) (st : server_t) : server_t :=
  {| button_webpushed := button_webpushed st;
     clients := clients st;
     client_requests := client_requests st;
     effects := effects st ++ [e] |}.

Definition set_button_webpushed (button : Z) (st : server_t) : server_t :=
  {| button_webpushed := <[Z.to_nat button := true]> (button_webpushed st);
     clients := clients st;
     client_requests := client_requests st;
     effects := effects st ++ [Store_button_webpushed button] |}.

(** The array [postdata] as the handler reads it: the bytes that
    [httpd_req_recv] has stored, [datalen] being what it returned, and the
    store [postdata[datalen] = 0]. *)
Definition receive_postdata (body : string) (datalen : Z) : outcome string :=
  let postdata : chars := replicate (Z.to_nat sizeof_postdata) None in
  run postdata <- httpd_req_recv body datalen postdata;   (* read bytes anyway *)
  run postdata <- poke postdata datalen NUL;              (* make it a C string *)
  c_string postdata.

(** this is called when a POST button is pushed on the home page; [body]
    is the body of the request and [datalen] what [httpd_req_recv] returns.
    A store or a read outside of what [postdata] holds is undefined:
    [None]. *)
Definition button_POST_handler (now : datetime) (addr : IPV4address)
    (body : string) (datalen : Z) (st : server_t) : option server_t :=
  postdata ← defined (receive_postdata body datalen);
  st ← report_ip_address now addr postdata st;
  let otherwise :=
    if decide (postdata = "temp=up") then
      log (Call_temp_change 1) (log Dprint_temp_up st)
    else if decide (postdata = "temp=down") then
      log (Call_temp_change (-1)) (log Dprint_temp_down st)
    else log (Dprint_unexpected datalen postdata) st in
  let st :=
    match sscanf_button postdata with
    | (ret, Some button) =>
        if decide (ret = 1 /\ button >= 0 /\ button <= 7) then
          set_button_webpushed button (log (Dprint_button button) st)
        else otherwise
    | (_, None) => otherwise   (* nothing was stored in button: ret is not 1 *)
    end in
  (* wait for the button to be processed in the other task, then do the
     home page response *)
  Some (log Send_home_page (log (Call_delay 500) st)).

(** *** What the visitor table records *)

(** The requests that came from [addr], oldest first. *)
Definition requests_of (addr : IPV4address) (reqs : list request_t) : list request_t :=
  filter (fun r => request_addr r = addr) reqs.

(** The addresses the requests came from, each once. *)
Definition visitors (reqs : list request_t) : list IPV4address :=
  remove_dups (request_addr <$> reqs).

(** The entry [c] tells the requests that came from its address: as many
    visits as there were requests, the time of the last of them, and as time
    of the first visit the time of the first of them.  The latter is not
    recorded for address 0: the loop of [remember_ip_address] finds that
    address in a slot that was never used and counts it as seen again. *)
Definition records (reqs : list request_t) (c : client_t) : Prop :=
  let mine := request_now <$> requests_of (ip_address c) reqs in
  count c = Z.of_nat (length mine) /\
  last mine = Some (recent_time c) /\
  (if decide (ip_address c = 0) then first_time c = zero_datetime
   else head mine = Some (first_time c)) /\
  gave_password c = false.

(** *** Formatted output *)

(** The digits of the conversion [%d], most significant first, put before
    [acc]: the loop of the C library that divides by ten, with [fuel] turns
    left after the first digit. *)
Fixpoint print_digits (fuel : nat) (n : Z) (acc : string) : string :=
  let acc' := String (ascii_of_N (Z.to_N (48 + n mod 10))) acc in
  match fuel with
  | O => acc'
  | S fuel' => if decide (n / 10 = 0) then acc' else print_digits fuel' (n / 10) acc'
  end.

(** The conversion [%d] of an [int]: a minus sign if it is negative, and
    its decimal digits, of which a 32-bit [int] has at most ten. *)
Definition print_d (n : Z) : string :=
  if decide (n < 0) then String "-" (print_digits 9 (- n) "")
  else print_digits 9 n "".

(** [snprintf(buf, size, ...)], [text] being what the format and the
    arguments denote: the characters that are stored before the terminator,
    and the value returned, the length of the whole text. *)
Definition snprintf (size : Z) (text : string) : string * Z :=
  (String.substring 0 (Z.to_nat (size - 1)) text, Z.of_nat (String.length text)).

(** [sprintf(str, ...)] into an array of [size] characters: the text and its
    terminator must fit. *)
Definition sprintf (size : Z) (text : string) : outcome string :=
  if decide (Z.of_nat (String.length text) + 1 <= size) then Done text
  else Fault Write_outside.

(** Wifi_names.h: the default TCP port number *)
Definition WIFI_PORT : Z := 80.

(** [bytes[k]], [bytes] pointing to the first byte of [addr]: the ESP32 is
    little-endian. *)
Definition byte_at (addr : IPV4address) (k : Z) : Z := (addr / 2 ^ (8 * k)) mod 256.

(** The text of ["%d.%d.%d.%d:%d"] for the four bytes and the port. *)
Definition ip_address_text (addr : IPV4address) : string :=
  print_d (byte_at addr 0) +:+ "." +:+ print_d (byte_at addr 1) +:+ "." +:+
  print_d (byte_at addr 2) +:+ "." +:+ print_d (byte_at addr 3) +:+ ":" +:+
  print_d WIFI_PORT.

(** [format_ip_address(addr, str)] for an array [str] of [size]
    characters. *)
Definition format_ip_address (addr : IPV4address) (size : Z) : outcome string :=
  sprintf size (ip_address_text addr).

(** [get_remote_ip]: the last of the four 32-bit words of the peer's
    IPv6 address, or 0 (after a line in the log) when [lwip_getpeername]
    fails, which [peer = None] stands for. *)
Definition get_remote_ip (peer : option (Z * Z * Z * Z)) : IPV4address :=
  match peer with
  | Some (_, _, _, w3) => w3
  | None => 0
  end.

(** *** Responses *)

Definition CR : string := String "013"%char "".
Definition LF : string := String "010"%char "".
Definition CRLF : string := CR +:+ LF.
(** the double quote *)
Definition DQ : string := String "034"%char "".

(** What a handler hands to the HTTP server: a header field
    ([httpd_resp_set_hdr]), a chunk of the body ([httpd_resp_send_chunk]
    with [HTTPD_RESP_USE_STRLEN], so that the length of the chunk is that
    of the text; [httpd_resp_send_chunk(req, NULL, 0)] sends the chunk of
    length 0, which ends the response), or the whole body
    ([httpd_resp_send]). *)
Inductive sent : Type :=
| Set_hdr (field value : string)
| Send_chunk (text : string)
| Send (data : string).

(** Wifi_names.h *)
Definition TITLE : string := "your location".

(** button separation in pixels *)
Definition BUT_H_SPACING_PX : Z := 60.

(** our standard response headers for HTML requests *)
Definition RESPONSE_PROLOG : string :=
  "<!DOCTYPE HTML>" +:+ CRLF +:+ "<html><head><meta http-equiv=" +:+ DQ +:+
  "Content-Type" +:+ DQ +:+ " content=" +:+ DQ +:+
  "text/html; charset=windows-1252" +:+ DQ +:+ ">".
(** optional auto-refresh *)
Definition RESPONSE_REFRESH_HEADER : string :=
  "<meta http-equiv=" +:+ DQ +:+ "refresh" +:+ DQ +:+ " content=" +:+ DQ +:+
  "5" +:+ DQ +:+ ">".
Definition RESPONSE_HOMEBUTTON : string :=
  "<a href='/'><button>home</button></a><br><br>" +:+ CRLF.

(** the remaining headers, up to the null pointer that ends the array;
    [stringify] gives the digits of [BUT_H_SPACING_PX] *)
Definition response_headers : list string :=
  [ CRLF +:+ " <style>" +:+ CRLF;
    ".lcd {font-family: monospace; font-size:x-large; width:23ch; border:3px; margin-left:100px; border-style:solid; border-color:blue; border-radius:10px; padding:1em}" +:+
    CRLF;
    ".led{height:20px; width:20px; border-radius:50%; background-color:blue; display:inline-block; position:absolute}" +:+
    CRLF;
    ".button {height:25px; width:25px; border:4px solid Gray; border-radius:50%; background-color:LightGray; color:black; cursor: pointer;}" +:+
    CRLF;
    ".button:hover{background-color:black;}" +:+ CRLF;
    ".arrowbutton {transform:rotate(180deg); font-size:40px; color:grey; background-color:white; border:0px; margin:0px}" +:+
    CRLF;
    ".arrowbutton:hover{color:black;}" +:+ CRLF;
    ".tablecell {width:" +:+ print_d BUT_H_SPACING_PX +:+
    "px;text-align:center;}" +:+ CRLF +:+ "</style></head><body>" +:+ CRLF;
    "<h1 style=" +:+ DQ +:+ "text-indent:115px" +:+ DQ +:+ ">" +:+ TITLE +:+
    "</h1>" +:+ CRLF;
    "<a href='/log'><button>log</button></a>&emsp;" +:+ CRLF;
    "<a href='/temps'><button>temperature history</button></a>&emsp;" +:+
    CRLF;
    "<a href='/visitors'><button>visitors</button></a>&emsp;" +:+ CRLF ].

Definition send_standard_headers (homepage : bool) : list sent :=
  [Set_hdr "Connection" "close"; Send_chunk RESPONSE_PROLOG]
  (* add HTML code to auto-refresh the home page *)
  ++ (if homepage then [Send_chunk RESPONSE_REFRESH_HEADER] else [])
  ++ (Send_chunk <$> response_headers)
  (* add the home navigation button *)
  ++ (if homepage then [] else [Send_chunk RESPONSE_HOMEBUTTON]).

Definition send_standard_close : list sent :=
  [Send_chunk (" </body></html>" +:+ LF); Send_chunk ""].

(** What the web task reads of the controller task. *)
Record controller_t : Type := {
  lcdbuf : list ascii;           (* char lcdbuf[4][21] *)
  lcdrow : Z;
  lcdcol : Z;
  lcd_cursorblinking : bool;
  heater_mode : heater_t;
  heater_on : bool;
  leds_on : Z;                   (* mask for which LEDs are currently on *)
  led_masks : list Z             (* uint16_t led_masks[NUM_LEDS] *)
}.

(** The calls of [expand_arrows_and_blanks] for the rows [rows]. *)
Fixpoint expand_rows (ctl : controller_t) (rows : list Z) : outcome (list sent) :=
  match rows with
  | [] => Done []
  | row :: rows' =>
      run chunk <- expand_arrows_and_blanks (lcd_cursorblinking ctl) (lcdrow ctl)
                     (lcdcol ctl) row (lcdbuf ctl);
      run rest <- expand_rows ctl rows';
      Done (Send_chunk chunk :: rest)
  end.

Definition show_lcd_screen (ctl : controller_t) : outcome (list sent) :=
  run rows <- expand_rows ctl (seqZ 0 LCD_ROWS);
  Done (Send_chunk ("<p class=" +:+ DQ +:+ "lcd" +:+ DQ +:+ ">" +:+ CRLF)
        :: rows ++ [Send_chunk ("</p>" +:+ LF)]).

Definition BUTLINESIZE : Z := 300.

(** [snprintf(buf + at, size, ...)] for [size] of type [size_t], [text]
    being what the format and the arguments denote: nothing is stored when
    [size] is 0; a [size] that would be negative wraps around to a huge
    one, and [buf + at] is then already outside the array. *)
Definition snprintf_at (buf : chars) (at_ size : Z) (text : string) : outcome (chars * Z) :=
  if decide (size < 0) then Fault Write_outside
  else if decide (size = 0) then Done (buf, (snprintf size text).2)
  else run buf' <- strcpy buf at_ (snprintf size text).1;
       Done (buf', (snprintf size text).2).

(** the temperature control rotary *)
Definition heater_colour (ctl : controller_t) : string :=
  if decide (heater_mode ctl = HEATING_NONE) then "LightGray"
  else if heater_on ctl then "Red" else "LightBlue".

Definition heater_button_text (colour : string) : string :=
  "<button style=" +:+ DQ +:+
  "height:35px;width:35px;margin:0px;border:4px solid gray; border-radius:50%; background-color:" +:+
  colour +:+ DQ +:+ "></button>".

(** a button, with a green ring if its light is on *)
Definition button_style (lit : bool) : string :=
  if lit then " style=" +:+ DQ +:+ "border-color:LimeGreen" +:+ DQ else "".

Definition button_text_line (lit : bool) (but : Z) : string :=
  "<td class=" +:+ DQ +:+ "tablecell" +:+ DQ +:+ "><button class=" +:+ DQ +:+
  "button" +:+ DQ +:+ button_style lit +:+ " type=" +:+ DQ +:+ "submit" +:+
  DQ +:+ " name=" +:+ DQ +:+ "button" +:+ DQ +:+ " value=" +:+ DQ +:+
  print_d but +:+ DQ +:+ "> </button></td>" +:+ CRLF.

(** draw the buttons *)
Fixpoint button_lines (ctl : controller_t) (buts : list Z) : outcome (list sent) :=
  match buts with
  | [] => Done []
  | but :: buts' =>
      match load (led_masks ctl) but with
      | None => Fault Read_outside
      | Some mask =>
          let lit := bool_decide (Z.land (leds_on ctl) mask <> 0) in
          let line := (snprintf BUTLINESIZE (button_text_line lit but)).1 in
          run rest <- button_lines ctl buts';
          Done (Send_chunk line :: rest)
      end
  end.

(** the labels in rows 2, 3, and 4 *)
Definition button_labels : list (list string) :=
  [ ["heat"; "spa"; "<b>&larr;</b>"];
    ["heat"; "pool"; "<b>&rarr;</b>"];
    ["spa"; "jets"; "<b>&darr;</b>"];
    ["pool"; "light"; "<b>&uarr;</b>"];
    ["filter"; "spa"; " "];
    ["filter"; "pool"; " "];
    ["spa"; "level"; " "];
    ["program"; " "; " "] ].

(** [button_labels[but][rownum]] *)
Definition button_label (but rownum : Z) : outcome string :=
  match load button_labels but with
  | Some labels =>
      match load labels rownum with
      | Some text => Done text
      | None => Fault Read_outside
      end
  | None => Fault Read_outside
  end.

Definition label_cell_text (text : string) : string :=
  "<td class=" +:+ DQ +:+ "tablecell" +:+ DQ +:+ ">" +:+ text +:+ "</td>".

(** The loop over the buttons of one row of labels: the array [row] and
    [rowchars] after it. *)
Fixpoint label_cells (rownum : Z) (buts : list Z) (row : chars) (rowchars : Z)
    : outcome (chars * Z) :=
  match buts with
  | [] => Done (row, rowchars)
  | but :: buts' =>
      run text <- button_label but rownum;
      run r <- snprintf_at row rowchars (BUTLINESIZE - rowchars) (label_cell_text text);
      label_cells rownum buts' r.1 (rowchars + r.2)
  end.

(** The rows of labels: [row] is one array for all of them. *)
Fixpoint label_rows (rownums : list Z) (row : chars) : outcome (list sent) :=
  match rownums with
  | [] => Done []
  | rownum :: rownums' =>
      run r <- snprintf_at row 0 BUTLINESIZE "<tr>";
      run r <- label_cells rownum (seqZ 0 NUM_BUTTONS) r.1 r.2;
      run r' <- snprintf_at r.1 r.2 (BUTLINESIZE - r.2) ("</tr>" +:+ CRLF);
      run text <- c_string r'.1;
      run rest <- label_rows rownums' r'.1;
      Done (Send_chunk text :: rest)
  end.

Definition show_buttons (ctl : controller_t) : outcome (list sent) :=
  let line := (snprintf BUTLINESIZE (heater_button_text (heater_colour ctl))).1 in
  run buttons <- button_lines ctl (seqZ 0 NUM_BUTTONS);
  run labels <- label_rows (seqZ 0 3) (replicate (Z.to_nat BUTLINESIZE) None);
  Done ([ Send_chunk
            ("<br><form action=" +:+ DQ +:+ "/" +:+ DQ +:+ " method=" +:+
            DQ +:+ "post" +:+ DQ +:+ ">" +:+ LF);
          Send_chunk
            ("<div style=" +:+ DQ +:+
            "height:60px;display:flex;align-items:center" +:+ DQ +:+
            "><button class=" +:+ DQ +:+ "arrowbutton" +:+ DQ +:+
            " type=" +:+ DQ +:+ "submit" +:+ DQ +:+ " name=" +:+ DQ +:+
            "temp" +:+ DQ +:+ " value=" +:+ DQ +:+ "up" +:+ DQ +:+
            ">&cudarrl;</button>");
          Send_chunk line;
          Send_chunk
            ("<button class=" +:+ DQ +:+ "arrowbutton" +:+ DQ +:+ " type=" +:+
            DQ +:+ "submit" +:+ DQ +:+ " name=" +:+ DQ +:+ "temp" +:+ DQ +:+
            " value=" +:+ DQ +:+ "down" +:+ DQ +:+
            ">&larrpl;</button></div>&nbsp;&nbsp;temperature<br>" +:+ CRLF);
          (* start a table with the button in row 1 *)
          Send_chunk ("<br><br><table><tbody><tr>" +:+ CRLF) ]
        ++ buttons
        ++ [Send_chunk ("</tr>" +:+ CRLF)]
        ++ labels
        ++ [Send_chunk ("</table></form></div>" +:+ CRLF)]).

(** The page every response to a request for the root URI carries. *)
Definition home_page (ctl : controller_t) : option (list sent) :=
  lcd ← defined (show_lcd_screen ctl);
  buttons ← defined (show_buttons ctl);
  Some (send_standard_headers true ++ lcd ++ buttons ++ send_standard_close).

(** handler for root URI *)
Definition root_GET_handler (ctl : controller_t) (now : datetime) (addr : IPV4address)
    (st : server_t) : option (server_t * list sent) :=
  st ← report_ip_address now addr "" st;
  page ← home_page ctl;
  Some (st, page).

(** [log_GET_printer] and [temp_GET_printer], for their arrays of 210 and
    of 100 characters *)
Definition line_printer (size : Z) (line : string) : sent :=
  Send_chunk (snprintf size (line +:+ "<br>" +:+ LF)).1.
Definition log_GET_printer : string -> sent := line_printer 210.
Definition temp_GET_printer : string -> sent := line_printer 100.

(** [visitors_GET_printer]: [vsnprintf] into an array of 250 characters *)
Definition visitors_GET_printer (text : string) : sent :=
  Send_chunk (snprintf 250 text).1.

Section Dumps.
(** [compare_datetime], [format_datetime], [log_dump] and
    [temphistory_dump] are declared in [controller_03.h]; their bodies
    belong to the main sketch.  Of the two dumps the handlers need the
    lines they hand to [print]. *)
Variable compare_datetime : datetime -> datetime -> Z.
Variable format_datetime : datetime -> string.
Variables log_lines temp_lines : list string.

(** The texts that [visitors_dump] hands to [print] for an entry. *)
Definition visitor_texts (c : client_t) : outcome (list string) :=
  run buf <- format_ip_address (ip_address c) 30;
  Done ([ "IP " +:+ buf +:+ " visited " +:+ print_d (count c) +:+
          " times, first at " +:+ format_datetime (first_time c) ]
        ++ (if decide (compare_datetime (recent_time c) (first_time c) <> 0)
            then [ ", recently at " +:+ format_datetime (recent_time c) ]
            else [])
        ++ [ (if gave_password c then "; password given" else "") +:+
             "<br>" +:+ CRLF ]).

(** The loop [for (ndx = 0; ndx < MAX_IP_ADDRESSES; ++ndx)] of
    [visitors_dump], with [fuel] turns left. *)
Fixpoint dump_from (fuel : nat) (ndx : Z) (clients : list client_t)
    : option (list string) :=
  match fuel with
  | O => Some []
  | S fuel' =>
      c ← load clients ndx;
      texts ← (if decide (count c > 0) then defined (visitor_texts c) else Some []);
      rest ← dump_from fuel' (ndx + 1) clients;
      Some (texts ++ rest)
  end.

(** [visitors_dump(parm, print)]: the sorted table and what [print] gives
    for each text. *)
Definition visitors_dump {A} (print : string -> A) (clients : list client_t)
    : option (list client_t * list A) :=
  sorted ← sort_clients compare_datetime clients;
  texts ← dump_from (Z.to_nat MAX_IP_ADDRESSES) 0 sorted;
  Some (sorted, fmap (M := list) print texts).

Definition log_GET_handler (now : datetime) (addr : IPV4address) (st : server_t)
    : option (server_t * list sent) :=
  st ← report_ip_address now addr "" st;
  Some (st, send_standard_headers false ++ (log_GET_printer <$> log_lines)
            ++ send_standard_close).

Definition visitors_GET_handler (now : datetime) (addr : IPV4address) (st : server_t)
    : option (server_t * list sent) :=
  st ← report_ip_address now addr "" st;
  r ← visitors_dump visitors_GET_printer (clients st);
  Some ({| button_webpushed := button_webpushed st;
           clients := r.1;
           client_requests := client_requests st;
           effects := effects st |},
        send_standard_headers false ++ r.2 ++ send_standard_close).

Definition temps_GET_handler (now : datetime) (addr : IPV4address) (st : server_t)
    : option (server_t * list sent) :=
  st ← report_ip_address now addr "" st;
  Some (st, send_standard_headers false ++ (temp_GET_printer <$> temp_lines)
            ++ send_standard_close).
End Dumps.

(** [iconimagejpg] is the binary jpg encoding of the image, defined
    elsewhere. *)
Definition favicon_GET_handler (iconimagejpg : string) (now : datetime)
    (addr : IPV4address) (st : server_t) : option (server_t * list sent) :=
  st ← report_ip_address now addr "" st;
  Some (st, [Set_hdr "Connection" "close"; Set_hdr "Content-Type" "image/jpg";
             Send iconimagejpg]).

(** *** The server *)

(** The requests that the server has a handler for: the URIs and methods
    that [start_webserver] registers.  A POST comes with its body and with
    what [httpd_req_recv] returns to the handler. *)
Inductive page_t : Type :=
| Root                   (* GET / *)
| Favicon                (* GET /favicon.ico *)
| Log                    (* GET /log *)
| Temps                  (* GET /temps *)
| Visitors               (* GET /visitors *)
| Button_push (body : string) (datalen : Z).   (* POST / *)

(** A request, with what its handler finds when it runs: the clock and the
    variables of the controller task, the address of the peer as
    [lwip_getpeername] gives it, if it does, and the lines that [log_dump]
    or [temphistory_dump] has to print. *)
Record http_request : Type := {
  req_page : page_t;
  req_now : datetime;
  req_peer : option (Z * Z * Z * Z);
  req_ctl : controller_t;
  req_lines : list string
}.

(** The address that [report_ip_address] records for the request. *)
Definition req_addr (r : http_request) : IPV4address := get_remote_ip (req_peer r).

Section Server.
Variable compare_datetime : datetime -> datetime -> Z.
Variable format_datetime : datetime -> string.
Variable iconimagejpg : string.

(** The handler of the request, and the response it sends. *)
Definition handle (r : http_request) (st : server_t) : option (server_t * list sent) :=
  match req_page r with
  | Root => root_GET_handler (req_ctl r) (req_now r) (req_addr r) st
  | Favicon => favicon_GET_handler iconimagejpg (req_now r) (req_addr r) st
  | Log => log_GET_handler (req_lines r) (req_now r) (req_addr r) st
  | Temps => temps_GET_handler (req_lines r) (req_now r) (req_addr r) st
  | Visitors =>
      visitors_GET_handler compare_datetime format_datetime (req_now r) (req_addr r) st
  | Button_push body datalen =>
      (* [button_POST_handler] ends with the response of the home page *)
      st ← button_POST_handler (req_now r) (req_addr r) body datalen st;
      page ← home_page (req_ctl r);
      Some (st, page)
  end.

(** The requests are handled one after the other. *)
Fixpoint handle_all (rs : list http_request) (st : server_t)
    : option (server_t * list (list sent)) :=
  match rs with
  | [] => Some (st, [])
  | r :: rs' =>
      h ← handle r st;
      hs ← handle_all rs' h.1;
      Some (hs.1, h.2 :: hs.2)
  end.
End Server.

(** What the visitor table sees of a request. *)
Definition table_request (r : http_request) : request_t :=
  {| request_now := req_now r; request_addr := req_addr r;
     request_visitors := match req_page r with Visitors => true | _ => false end |}.

(** A response in chunks that is ended once, by its last chunk: the
    header, chunks that are not empty, and the chunk of length 0. *)
Definition ended_once (response : list sent) : Prop :=
  exists texts,
    response = Set_hdr "Connection" "close" :: (Send_chunk <$> texts) ++ [Send_chunk ""] /\
    Forall (fun text => text <> "") texts.

(** A row of [lcdbuf] that holds the C string [text]: its characters, then
    NULs up to the [LCD_COLS] characters of the row. *)
Definition lcd_row (text : list ascii) : list ascii :=
  text ++ replicate (Z.to_nat LCD_COLS - length text) NUL.

(** *** Wifi connection routines *)



(** The events the handlers tell apart by event base and event id;
    [IP_EVENT_STA_GOT_IP] comes with the address of [ip_info.ip] as event
    data, and [Other_event] is any other event. *)
Inductive event_t : Type :=
| WIFI_EVENT_STA_START
| WIFI_EVENT_STA_DISCONNECTED
| IP_EVENT_STA_GOT_IP (ip : IPV4address)
| Other_event.

(** What the Wifi routines call, and the lines they print. *)
Inductive wifi_call : Type :=
| Esp_wifi_connect
| Dprint_retry                          (* "retry to connect to the AP\n" *)
| Dprint_connect_failed (ssid : string) (* "connect to the AP failed for %s\n" *)
| Dprint_our_address (address : string) (* "our IP address: %s\n" *)
| Dprint_connected (ssid password : string)
| Dprint_failed_to_connect (ssid password : string)
| Dprint_unexpected_event               (* "UNEXPECTED EVENT\n" *)
| Dprint_starting_server (port : Z)     (* "Starting server on port %d\n" *)
| Dprint_starting_webserver             (* "Starting webserver\n" *)
| Dprint_stopping_webserver             (* "Stopping webserver\n" *)
| Httpd_start
| Httpd_register_uri_handler (uri : string) (post : bool)
| Httpd_stop.





















#[global] Instance event_t_eq_dec : EqDecision event_t.
Proof. solve_decision. Defined.
#[global] Instance wifi_call_eq_dec : EqDecision wifi_call.
Proof. solve_decision. Defined.

(** How often an event occurs among [events], and a call among [calls]. *)
Definition occurrences `{EqDecision A} (x : A) (l : list A) : Z :=
  Z.of_nat (length (filter (fun y => y = x) l)).





End Webserver.

(** ** Parts of the controller outside the sources

    The control loop that commands the relays, debounces the buttons and
    keeps the temperature setpoint belongs to the main sketch, of which the
    sources hold the declarations only.  The definitions of this module
    follow the wording of the specification and use the constants of
    [controller_03.h]. *)

Module Core.
Import Controller03.

(** Modelled from the spec: the routine that commands a relay is missing.
    Section 6 lists "10 independent relay commands (on/off ...)" and the
    header gives each relay its bits in the 16-bit word of the two ADG728
    drivers: a command turns the bits of its relay on or off in that
    word. *)
Definition relay_command (r : relay) (on : bool) (relay_word : Z) : Z :=
  if on then Z.lor relay_word (relay_mask r)
  else Z.ldiff relay_word (relay_mask r).

(** Modelled from the spec: the body of [temp_change], declared in
    [controller_03.h] and called by the POST handler, is missing.
    Section 4.5: "Each encoder tick adjusts the active target temperature
    by 1 degree, clamped to the bound set determined by which accessory is
    currently the heat target"; section 3 gives the bound sets
    [TEMP_MIN, TEMP_MAX_POOL] and [TEMP_MIN, TEMP_MAX_SPA].  With no heat
    target there is no active setpoint to adjust. *)
Definition temp_bounds (heater_mode : heater_t) : option (Z * Z) :=
  match heater_mode with
  | HEATING_NONE => None
  | HEATING_SPA => Some (TEMP_MIN, TEMP_MAX_SPA)
  | HEATING_POOL => Some (TEMP_MIN, TEMP_MAX_POOL)
  end.

Definition clamp (lo hi z : Z) : Z := Z.max lo (Z.min hi z).

Definition temp_change (direction : Z) (heater_mode : heater_t) (target : Z) : Z :=
  match temp_bounds heater_mode with
  | None => target
  | Some (lo, hi) => clamp lo hi (target + direction)
  end.

(** Modelled from the spec: the debounce routine is missing.  Section 4.1:
    "Samples 8 discrete button lines ... at a fixed poll tick.  A button's
    debounced state changes only after the raw level has been stable for a
    fixed debounce window (50 ms); transitions within the window produce
    no edge."  The state of a line is its debounced level, the raw level
    of the last sample and the time in milliseconds of the sample at which
    the raw level last changed. *)
Record debounce_t : Type := {
  debounced : bool;
  raw_level : bool;
  raw_since : Z
}.

Definition debounce_init : debounce_t :=
  {| debounced := false; raw_level := false; raw_since := 0 |}.

Section Debounce.
Variable delay : Z.   (* DEBOUNCE_DELAY, in milliseconds *)

(** One sample of a line: the new state and whether the debounced level
    changed (an edge). *)
Definition debounce_sample (now : Z) (raw : bool) (s : debounce_t)
    : debounce_t * bool :=
  if decide (raw <> raw_level s) then
    ({| debounced := debounced s; raw_level := raw; raw_since := now |}, false)
  else if decide (delay <= now - raw_since s /\ raw <> debounced s) then
    ({| debounced := raw; raw_level := raw; raw_since := raw_since s |}, true)
  else (s, false).

(** The samples of one line, oldest first: the final state and, for each
    sample, whether it produced an edge. *)
Fixpoint debounce_run (samples : list (Z * bool)) (s : debounce_t)
    : debounce_t * list bool :=
  match samples with
  | [] => (s, [])
  | (now, raw) :: samples' =>
      let r := debounce_sample now raw s in
      let r' := debounce_run samples' r.1 in
      (r'.1, r.2 :: r'.2)
  end.

(** The raw level of a button in a sample of the button multiplexer. *)
Definition pressed (b : button) (sample : Z) : bool :=
  bool_decide (Z.land sample (button_mask b) <> 0).

(** One poll of the 8 lines: the new states and the buttons with an
    edge. *)
Definition poll (now sample : Z) (st : button -> debounce_t)
    : (button -> debounce_t) * list button :=
  (fun b => (debounce_sample now (pressed b sample) (st b)).1,
   filter (fun b => (debounce_sample now (pressed b sample) (st b)).2 = true)
     buttons).

Fixpoint poll_run (samples : list (Z * Z)) (st : button -> debounce_t)
    : (button -> debounce_t) * list (list button) :=
  match samples with
  | [] => (st, [])
  | (now, sample) :: samples' =>
      let r := poll now sample st in
      let r' := poll_run samples' r.1 in
      (r'.1, r.2 :: r'.2)
  end.
End Debounce.

(** Sample times increase strictly from [t] on. *)
Fixpoint increasing {A} (t : Z) (samples : list (Z * A)) : Prop :=
  match samples with
  | [] => True
  | (now, _) :: samples' => t < now /\ increasing now samples'
  end.

(** Every sample at which the raw level differs from the one before it
    ([raw] before the first sample) has its time in [[lo, hi]]. *)
Fixpoint transitions_within (lo hi : Z) (raw : bool) (samples : list (Z * bool))
    : Prop :=
  match samples with
  | [] => True
  | (now, raw') :: samples' =>
      (raw' <> raw -> lo <= now <= hi) /\ transitions_within lo hi raw' samples'
  end.

(** The number of edges in the result of a run. *)
Definition edges (flags : list bool) : nat := length (filter (fun e => e = true) flags).

(** The samples of the line of button [b], and its edges, in the samples
    and the results of the polls. *)
Definition line (b : button) (samples : list (Z * Z)) : list (Z * bool) :=
  (fun p => (p.1, pressed b p.2)) <$> samples.
Definition edges_of (b : button) (polls : list (list button)) : list bool :=
  (fun es => bool_decide (b ∈ es)) <$> polls.

End Core.

(** * Properties *)

(** ** Constants of the headers *)

Lemma wrap_signed_small (bits z : Z) :
  0 < bits -> - 2 ^ (bits - 1) <= z < 2 ^ (bits - 1) -> wrap_signed bits z = z.
Proof.
  intros Hbits Hz. unfold wrap_signed.
  assert (H2 : 2 ^ bits = 2 * 2 ^ (bits - 1)).
  { replace bits with (Z.succ (bits - 1)) at 1 by lia.
    rewrite Z.pow_succ_r by lia. reflexivity. }
  rewrite Z.mod_small by lia. lia.
Qed.

(** An [int] has at least 16 bits, so it holds every value below [2^15]. *)
Lemma int_holds (bits z : Z) :
  16 <= bits -> - 32768 <= z < 32768 -> wrap_signed bits z = z.
Proof.
  intros Hbits Hz. apply wrap_signed_small; [lia|].
  assert (2 ^ 15 <= 2 ^ (bits - 1)) by (apply Z.pow_le_mono_r; lia).
  change (2 ^ 15) with 32768 in *. lia.
Qed.

Lemma ceval_Lit (bits n : Z) :
  16 <= bits -> - 32768 <= n < 32768 -> ceval bits (Lit n) = n.
Proof. intros Hbits Hn. cbn [ceval]. apply int_holds; assumption. Qed.

Lemma ceval_Mul_Lit (bits n m : Z) :
  16 <= bits -> - 32768 <= n < 32768 -> - 32768 <= m < 32768 ->
  - 32768 <= n * m < 32768 ->
  ceval bits (Mul (Lit n) (Lit m)) = n * m.
Proof.
  intros Hbits Hn Hm Hnm. cbn [ceval]. rewrite (int_holds bits n), (int_holds bits m) by assumption.
  apply int_holds; assumption.
Qed.

Ltac eval_macro :=
  first [ rewrite ceval_Mul_Lit by lia | rewrite ceval_Lit by lia ]; reflexivity.

(** C2.  In a build without [DEBUG_TIMES], whatever the width of [int], the
    delays of both header versions are: 60 seconds of wait after heater off,
    45 seconds of wait for a valve change, and 3 seconds each after pump off
    and after pump on. *)
Theorem sequencer_delays (b : build) :
  DEBUG_TIMES b = 0 -> 16 <= int_bits b ->
  let value := ceval (int_bits b) in
  (value (Controller03.DELAY_HEATER_OFF b) = 60 /\
   value (Controller03.DELAY_VALVE_CHANGE b) = 45 /\
   value Controller03.DELAY_PUMP_OFF = 3 /\
   value Controller03.DELAY_PUMP_ON = 3) /\
  (value (Controller02.DELAY_HEATER_OFF b) = 60 /\
   value (Controller02.DELAY_VALVE_CHANGE b) = 45 /\
   value Controller02.DELAY_PUMP_OFF = 3 /\
   value Controller02.DELAY_PUMP_ON = 3).
Proof.
  intros Hdebug Hbits value. subst value.
  unfold Controller03.DELAY_HEATER_OFF, Controller03.DELAY_VALVE_CHANGE,
    Controller02.DELAY_HEATER_OFF, Controller02.DELAY_VALVE_CHANGE,
    Controller03.DELAY_PUMP_OFF, Controller03.DELAY_PUMP_ON,
    Controller02.DELAY_PUMP_OFF, Controller02.DELAY_PUMP_ON.
  repeat case_decide; try congruence.
  repeat split; eval_macro.
Qed.

Lemma sequencer_delays_esp32 :
  let b := {| DEBUG_TIMES := 0; int_bits := 32 |} in
  let value := ceval (int_bits b) in
  (value (Controller03.DELAY_HEATER_OFF b) = 60 /\
   value (Controller03.DELAY_VALVE_CHANGE b) = 45 /\
   value Controller03.DELAY_PUMP_OFF = 3 /\
   value Controller03.DELAY_PUMP_ON = 3) /\
  (value (Controller02.DELAY_HEATER_OFF b) = 60 /\
   value (Controller02.DELAY_VALVE_CHANGE b) = 45 /\
   value Controller02.DELAY_PUMP_OFF = 3 /\
   value Controller02.DELAY_PUMP_ON = 3).
Proof.
  apply (sequencer_delays {| DEBUG_TIMES := 0; int_bits := 32 |});
    [reflexivity | simpl; lia].
Defined.

(** C3.  The timeouts, in minutes, of both header versions, whatever the
    width of [int]: spa heat 180 ([3*60]), pool heat 1440 ([24*60]), spa fill
    5, spa empty 5, pool light 180 ([3*60]), spa jets 60 ([1*60]), filter
    pool 20, filter spa 10. *)
Theorem timeout_minutes (bits : Z) :
  16 <= bits ->
  let value := ceval bits in
  (value Controller03.MODE_SPA_TIMEOUT = 180 /\
   value Controller03.MODE_POOL_TIMEOUT = 1440 /\
   value Controller03.MODE_FILL_TIMEOUT = 5 /\
   value Controller03.MODE_EMPTY_TIMEOUT = 5 /\
   value Controller03.POOL_LIGHT_TIMEOUT = 180 /\
   value Controller03.SPA_JETS_TIMEOUT = 60 /\
   value Controller03.FILTER_POOL_TIME = 20 /\
   value Controller03.FILTER_SPA_TIME = 10) /\
  (value Controller02.MODE_SPA_TIMEOUT = 180 /\
   value Controller02.MODE_POOL_TIMEOUT = 1440 /\
   value Controller02.MODE_FILL_TIMEOUT = 5 /\
   value Controller02.MODE_EMPTY_TIMEOUT = 5 /\
   value Controller02.POOL_LIGHT_TIMEOUT = 180 /\
   value Controller02.SPA_JETS_TIMEOUT = 60 /\
   value Controller02.FILTER_POOL_TIME = 20 /\
   value Controller02.FILTER_SPA_TIME = 10).
Proof.
  intros Hbits value. subst value.
  repeat split;
    match goal with |- ceval _ ?m = _ => unfold m end; eval_macro.
Qed.

Lemma timeout_minutes_avr :
  let value := ceval 16 in
  (value Controller03.MODE_SPA_TIMEOUT = 180 /\
   value Controller03.MODE_POOL_TIMEOUT = 1440 /\
   value Controller03.MODE_FILL_TIMEOUT = 5 /\
   value Controller03.MODE_EMPTY_TIMEOUT = 5 /\
   value Controller03.POOL_LIGHT_TIMEOUT = 180 /\
   value Controller03.SPA_JETS_TIMEOUT = 60 /\
   value Controller03.FILTER_POOL_TIME = 20 /\
   value Controller03.FILTER_SPA_TIME = 10) /\
  (value Controller02.MODE_SPA_TIMEOUT = 180 /\
   value Controller02.MODE_POOL_TIMEOUT = 1440 /\
   value Controller02.MODE_FILL_TIMEOUT = 5 /\
   value Controller02.MODE_EMPTY_TIMEOUT = 5 /\
   value Controller02.POOL_LIGHT_TIMEOUT = 180 /\
   value Controller02.SPA_JETS_TIMEOUT = 60 /\
   value Controller02.FILTER_POOL_TIME = 20 /\
   value Controller02.FILTER_SPA_TIME = 10).
Proof. apply (timeout_minutes 16). lia. Defined.

(** C6.  The enumerations of both header versions: the mode has exactly the
    7 values IDLE, HEAT_SPA, HEAT_POOL, FILL_SPA, EMPTY_SPA, FILTER_POOL and
    FILTER_SPA, IDLE being declared first (so its value is 0, the value of a
    zeroed variable); the valve configuration has exactly 5 values, one of
    them UNDEFINED; the pump status and the heater setting have exactly the
    3 values NONE, SPA and POOL. *)
Theorem enumerations :
  (card Controller03.global_mode_t = 7%nat /\
   enum Controller03.global_mode_t =
     [Controller03.MODE_IDLE; Controller03.MODE_HEAT_SPA;
      Controller03.MODE_HEAT_POOL; Controller03.MODE_FILL_SPA;
      Controller03.MODE_EMPTY_SPA; Controller03.MODE_FILTER_POOL;
      Controller03.MODE_FILTER_SPA] /\
   enumerator_value Controller03.global_mode_t_decl Controller03.MODE_IDLE = Some 0 /\
   card Controller03.vconfig_t = 5%nat /\
   Controller03.VALVES_UNDEFINED ∈ enum Controller03.vconfig_t /\
   card Controller03.pump_status_t = 3%nat /\
   enum Controller03.pump_status_t =
     [Controller03.PUMP_NONE; Controller03.PUMP_SPA; Controller03.PUMP_POOL] /\
   card Controller03.heater_t = 3%nat /\
   enum Controller03.heater_t =
     [Controller03.HEATING_NONE; Controller03.HEATING_SPA;
      Controller03.HEATING_POOL]) /\
  (card Controller02.mode_t = 7%nat /\
   enum Controller02.mode_t =
     [Controller02.MODE_IDLE; Controller02.MODE_HEAT_SPA;
      Controller02.MODE_HEAT_POOL; Controller02.MODE_FILL_SPA;
      Controller02.MODE_EMPTY_SPA; Controller02.MODE_FILTER_POOL;
      Controller02.MODE_FILTER_SPA] /\
   enumerator_value Controller02.mode_t_decl Controller02.MODE_IDLE = Some 0 /\
   card Controller02.vconfig_t = 5%nat /\
   Controller02.VALVES_UNDEFINED ∈ enum Controller02.vconfig_t /\
   card Controller02.pump_status_t = 3%nat /\
   enum Controller02.pump_status_t =
     [Controller02.PUMP_NONE; Controller02.PUMP_SPA; Controller02.PUMP_POOL] /\
   card Controller02.heater_t = 3%nat /\
   enum Controller02.heater_t =
     [Controller02.HEATING_NONE; Controller02.HEATING_SPA;
      Controller02.HEATING_POOL]).
Proof.
  repeat split; try reflexivity; apply (bool_decide_unpack _); vm_compute; exact I.
Qed.

(** ** Relay masks *)

Lemma land_lor_disjoint (state m m' : Z) :
  Z.land m m' = 0 -> Z.land (Z.lor state m) m' = Z.land state m'.
Proof.
  intros Hd. rewrite Z.land_lor_distr_l, Hd. apply Z.lor_0_r.
Qed.

Lemma land_ldiff_disjoint (state m m' : Z) :
  Z.land m m' = 0 -> Z.land (Z.ldiff state m) m' = Z.land state m'.
Proof.
  intros Hd. apply Z.bits_inj'. intros i Hi.
  rewrite !Z.land_spec, Z.ldiff_spec.
  assert (Hb : Z.testbit (Z.land m m') i = false) by (rewrite Hd; apply Z.bits_0).
  rewrite Z.land_spec in Hb.
  destruct (Z.testbit state i), (Z.testbit m i), (Z.testbit m' i); done.
Qed.

Lemma relay_masks_disjoint (r r' : Controller03.relay) :
  r <> r' -> Z.land (Controller03.relay_mask r) (Controller03.relay_mask r') = 0.
Proof. destruct r, r'; intros Hne; try done; reflexivity. Qed.

(** C7.  Both header versions name exactly ten relays.  Version 2 gives them
    ten different pins; version 3 gives each one bit of the 16-bit relay
    word, no two relays the same bit, so the masks of two relays have no bit
    in common and turning one relay on or off leaves the bit of every other
    relay as it was. *)
Theorem relays_independent :
  card Controller02.relay = 10%nat /\
  card Controller03.relay = 10%nat /\
  (forall r r', Controller02.relay_pin r = Controller02.relay_pin r' -> r = r') /\
  (forall r, exists k, 0 <= k < 16 /\ Controller03.relay_mask r = 2 ^ k) /\
  (forall r r', r <> r' ->
     Controller03.relay_mask r <> Controller03.relay_mask r' /\
     Z.land (Controller03.relay_mask r) (Controller03.relay_mask r') = 0) /\
  (forall r r' on relay_word, r <> r' ->
     Z.land (Core.relay_command r on relay_word) (Controller03.relay_mask r') =
     Z.land relay_word (Controller03.relay_mask r')).
Proof.
  split; [reflexivity|]. split; [reflexivity|]. split; [|split; [|split]].
  - intros [] []; simpl; intros H; try reflexivity; discriminate H.
  - intros r. exists (Z.log2 (Controller03.relay_mask r)).
    destruct r; vm_compute; repeat split; congruence.
  - intros r r' Hne. split; [|by apply relay_masks_disjoint].
    destruct r, r'; simpl; congruence.
  - intros r r' [] w Hne; unfold Core.relay_command.
    + apply land_lor_disjoint, relay_masks_disjoint, Hne.
    + apply land_ldiff_disjoint, relay_masks_disjoint, Hne.
Qed.

(** ** Temperature setpoint *)

Lemma temp_change_pool_le (k : nat) (target : Z) :
  target <= Controller03.TEMP_MAX_POOL ->
  Nat.iter k (Core.temp_change 1 Controller03.HEATING_POOL) target
    <= Controller03.TEMP_MAX_POOL.
Proof.
  intros Ht. induction k as [|k IH]; simpl; [exact Ht|].
  unfold Core.temp_change, Core.clamp; simpl.
  unfold Controller03.TEMP_MIN, Controller03.TEMP_MAX_POOL in *. lia.
Qed.

(** C5.  An encoder tick ([direction] 1 or -1) on the setpoint of the
    accessory being heated gives the old setpoint plus the tick, brought back
    into [60, 92] for the pool and [60, 105] for the spa: a setpoint inside
    the bounds moves by exactly 1 degree unless that would leave the bounds,
    and then stays where it is.  From 80, heating the pool, 25 ticks up end
    at 92, and no number of ticks up gives more than 92. *)
Theorem temp_change_clamped :
  Core.temp_bounds Controller03.HEATING_POOL = Some (60, 92) /\
  Core.temp_bounds Controller03.HEATING_SPA = Some (60, 105) /\
  (forall heater_mode lo hi direction target,
     Core.temp_bounds heater_mode = Some (lo, hi) ->
     direction = 1 \/ direction = -1 ->
     lo <= target <= hi ->
     let target' := Core.temp_change direction heater_mode target in
     lo <= target' <= hi /\
     (lo <= target + direction <= hi -> target' = target + direction) /\
     (~ lo <= target + direction <= hi -> target' = target)) /\
  Nat.iter 25 (Core.temp_change 1 Controller03.HEATING_POOL) 80 = 92 /\
  (forall k : nat,
     Nat.iter k (Core.temp_change 1 Controller03.HEATING_POOL) 80 <= 92).
Proof.
  split; [reflexivity|]. split; [reflexivity|]. split; [|split].
  - intros h lo hi d t Hb Hd Ht t'. subst t'.
    unfold Core.temp_change. rewrite Hb. unfold Core.clamp.
    assert (lo <= hi) by lia. lia.
  - vm_compute. reflexivity.
  - intros k. apply (temp_change_pool_le k 80). vm_compute. discriminate.
Qed.

(** ** Expansion of an LCD row *)

Section ExpandFacts.
Import Controller03 Webserver.

Lemma length_list_ascii (s : string) :
  length (list_ascii_of_string s) = String.length s.
Proof. induction s as [|c s IH]; simpl; [reflexivity|]. by rewrite IH. Qed.

Lemma poke_next (pre : list ascii) (y : option ascii) (rest : chars) (c : ascii) :
  poke ((Some <$> pre) ++ y :: rest) (Z.of_nat (length pre)) c
  = Done ((Some <$> (pre ++ [c])) ++ rest).
Proof.
  unfold poke, store. rewrite length_app, length_fmap. simpl.
  rewrite decide_True by lia.
  rewrite Nat2Z.id, insert_app_r_alt by (rewrite length_fmap; lia).
  rewrite length_fmap, Nat.sub_diag. simpl.
  by rewrite fmap_app, <- app_assoc.
Qed.

Lemma strcpy_next (s : string) : forall (pre : list ascii) (rest : chars),
  (String.length s < length rest)%nat ->
  strcpy ((Some <$> pre) ++ rest) (Z.of_nat (length pre)) s
  = Done ((Some <$> (pre ++ list_ascii_of_string s))
            ++ Some NUL :: drop (S (String.length s)) rest).
Proof.
  induction s as [|c s IH]; intros pre rest Hlen; simpl in *.
  - destruct rest as [|y rest]; [simpl in Hlen; lia|].
    rewrite poke_next. simpl. rewrite drop_0.
    by rewrite fmap_app, <- app_assoc, app_nil_r.
  - destruct rest as [|y rest]; [simpl in Hlen; lia|].
    rewrite poke_next. simpl.
    replace (Z.of_nat (length pre) + 1) with (Z.of_nat (length (pre ++ [c])))
      by (rewrite length_app; simpl; lia).
    rewrite IH by (simpl in Hlen; lia).
    by rewrite <- app_assoc.
Qed.
End ExpandFacts.
Section ExpandFacts2.
Import Controller03 Webserver.
Variable lcd_cursorblinking : bool.
Variables lcdrow lcdcol row : Z.

Lemma expansion_length (cursor : bool) (c : ascii) :
  (1 <= String.length (expansion cursor c) <= 8)%nat.
Proof.
  unfold expansion. repeat case_decide; try (simpl; lia).
  destruct cursor; simpl; lia.
Qed.

Lemma expansion_no_NUL (cursor : bool) (c : ascii) :
  c <> NUL -> Forall (fun x => x <> NUL) (list_ascii_of_string (expansion cursor c)).
Proof.
  intros Hc. unfold expansion.
  repeat case_decide; try (repeat constructor; discriminate).
  destruct cursor; simpl; repeat constructor; try discriminate; exact Hc.
Qed.

Lemma expand_char_next (c : ascii) (col : Z) (pre : list ascii) (rest : chars) :
  (9 <= length rest)%nat ->
  let e := expansion
    (bool_decide (lcd_cursorblinking = true /\ row = lcdrow /\ col = lcdcol)) c in
  exists rest',
    expand_char lcd_cursorblinking lcdrow lcdcol row c col
      ((Some <$> pre) ++ rest) (Z.of_nat (length pre))
    = Done ((Some <$> (pre ++ list_ascii_of_string e)) ++ rest',
            Z.of_nat (length pre) + Z.of_nat (String.length e)) /\
    (length rest' + String.length e = length rest)%nat.
Proof.
  intros Hrest e. subst e. unfold expand_char, expansion.
  destruct (decide (c = LEFTARROW)); [|destruct (decide (c = UPARROW));
    [|destruct (decide (c = RIGHTARROW)); [|destruct (decide (c = DOWNARROW));
      [|destruct (decide (c = " "%char)); [|]]]]].
  1-5: rewrite strcpy_next by (simpl; lia); eexists; split; [reflexivity|];
       simpl; rewrite length_drop; lia.
  destruct (decide (lcd_cursorblinking = true /\ row = lcdrow /\ col = lcdcol)).
  - rewrite bool_decide_true by assumption.
    rewrite strcpy_next by (simpl; lia). eexists; split; [reflexivity|].
    simpl; rewrite length_drop; lia.
  - rewrite bool_decide_false by assumption.
    destruct rest as [|y rest]; [simpl in Hrest; lia|].
    rewrite poke_next. eexists; split; [reflexivity|]. simpl; lia.
Qed.

Lemma expand_loop_next (src : list ascii) :
  forall (col : Z) (pre : list ascii) (rest : chars),
  (length pre + length rest = 500)%nat -> (length pre <= 492)%nat ->
  Forall (fun x => x <> NUL) pre ->
  let text :=
    pre ++ expanded lcd_cursorblinking lcdrow lcdcol row src col
             (Z.of_nat (length pre)) in
  match expand_loop lcd_cursorblinking lcdrow lcdcol row src col
          ((Some <$> pre) ++ rest) (Z.of_nat (length pre)) with
  | Done (a, dst) =>
      exists rest',
        a = (Some <$> text) ++ rest' /\ dst = Z.of_nat (length text) /\
        (length text + length rest' = 500)%nat /\ (length text <= 492)%nat /\
        Forall (fun x => x <> NUL) text
  | Fault f => f = Read_outside /\ NUL ∉ src
  end.
Proof.
  induction src as [|c src IH]; intros col pre rest Hlen Hpre Hnul; simpl.
  - split; [reflexivity|]. apply not_elem_of_nil.
  - unfold MAXLINE. destruct (decide (c <> NUL /\ Z.of_nat (length pre) < 500 - 15))
      as [[Hc Hdst]|Hstop].
    + destruct (expand_char_next c col pre rest) as (rest1 & Hstep & Hlen1); [lia|].
      rewrite Hstep. simpl.
      pose proof (expansion_length
        (bool_decide (lcd_cursorblinking = true /\ row = lcdrow /\ col = lcdcol)) c) as He.
      set (e := expansion _ c) in *.
      replace (Z.of_nat (length pre) + Z.of_nat (String.length e))
        with (Z.of_nat (length (pre ++ list_ascii_of_string e)))
        by (rewrite length_app, length_list_ascii; lia).
      assert (Hlen' : length (pre ++ list_ascii_of_string e) = (length pre + String.length e)%nat)
        by (rewrite length_app, length_list_ascii; lia).
      specialize (IH (col + 1) (pre ++ list_ascii_of_string e) rest1).
      rewrite <- app_assoc in IH.
      destruct (expand_loop _ _ _ _ src _ _ _) as [[a dst]|f].
      * apply IH; [lia | lia |].
        apply Forall_app; split; [exact Hnul|]. by apply expansion_no_NUL.
      * destruct IH as [-> Hsrc]; [lia | lia | |].
        { apply Forall_app; split; [exact Hnul|]. by apply expansion_no_NUL. }
        split; [reflexivity|]. rewrite not_elem_of_cons. split; [congruence|exact Hsrc].
    + exists rest. rewrite app_nil_r. repeat split; try done.
Qed.

Lemma c_string_text (pre : list ascii) (rest : chars) :
  Forall (fun x => x <> NUL) pre ->
  c_string ((Some <$> pre) ++ Some NUL :: rest) = Done (string_of_list_ascii pre).
Proof.
  induction 1 as [|c pre Hc Hpre IH].
  - reflexivity.
  - cbn [fmap list_fmap app c_string] in *.
    destruct (decide (c = NUL)); [contradiction|]. by rewrite IH.
Qed.
End ExpandFacts2.

Lemma expand_arrows_and_blanks_result (lcd_cursorblinking : bool)
    (lcdrow lcdcol row : Z) (lcdbuf : list ascii) :
  let src := drop (Z.to_nat (Webserver.LCD_COLS * row)) lcdbuf in
  let text := Webserver.expanded lcd_cursorblinking lcdrow lcdcol row src 0 0 in
  (0 <= row /\ (length text <= 492)%nat /\
   Webserver.expand_arrows_and_blanks lcd_cursorblinking lcdrow lcdcol row lcdbuf
   = Webserver.Done (string_of_list_ascii
       (text ++ list_ascii_of_string ("<br>" +:+ String Webserver.newline EmptyString)))) \/
  ((row < 0 \/ Webserver.NUL ∉ src) /\
   Webserver.expand_arrows_and_blanks lcd_cursorblinking lcdrow lcdcol row lcdbuf
   = Webserver.Fault Webserver.Read_outside).
Proof.
  intros src text. unfold Webserver.expand_arrows_and_blanks.
  destruct (decide (0 <= row)) as [Hrow|Hrow]; [|right; split; [left; lia|reflexivity]].
  fold src.
  assert (Hloop := expand_loop_next lcd_cursorblinking lcdrow lcdcol row src 0 []
                     (replicate (Z.to_nat Controller03.MAXLINE) None)).
  cbn [fmap list_fmap app length Z.of_nat] in Hloop.
  rewrite length_replicate in Hloop. change (Z.of_nat 0) with 0 in Hloop.
  specialize (Hloop eq_refl ltac:(lia) ltac:(constructor)). fold text in Hloop.
  destruct (Webserver.expand_loop _ _ _ _ src 0 _ 0) as [[a dst]|f];
    cbn [Webserver.obind fst snd].
  - destruct Hloop as (rest & -> & -> & Hlen & Htext & Hnul). left.
    rewrite strcpy_next by (simpl; lia). cbn [Webserver.obind].
    rewrite (c_string_text (_ ++ _)).
    + split; [exact Hrow|]. split; [exact Htext|]. reflexivity.
    + apply Forall_app; split; [exact Hnul|]. repeat constructor; discriminate.
  - destruct Hloop as [-> Hsrc]. right. split; [right; exact Hsrc|reflexivity].
Qed.

Lemma length_string_of_list (l : list ascii) :
  String.length (string_of_list_ascii l) = length l.
Proof. induction l as [|c l IH]; simpl; [reflexivity|]. by rewrite IH. Qed.

(** C10.  [expand_arrows_and_blanks] makes no store outside [outmsg]: for
    every content of [lcdbuf], every row, every cursor position and either
    value of the blink flag, the run ends without a store outside the
    [MAXLINE] characters of the array (and without reading a character of it
    that was never written).  The chunk it sends, with its terminator, fits
    in [MAXLINE] characters; it is sent whenever the row holds a NUL; and a
    character of the row stands for at most 8 characters of it. *)
Theorem expand_arrows_and_blanks_in_bounds (lcd_cursorblinking : bool)
    (lcdrow lcdcol row : Z) (lcdbuf : list ascii) :
  let result :=
    Webserver.expand_arrows_and_blanks lcd_cursorblinking lcdrow lcdcol row lcdbuf in
  result <> Webserver.Fault Webserver.Write_outside /\
  result <> Webserver.Fault Webserver.Read_indeterminate /\
  (forall chunk, result = Webserver.Done chunk ->
     Z.of_nat (String.length chunk) + 1 <= Controller03.MAXLINE) /\
  (0 <= row ->
   Webserver.NUL ∈ drop (Z.to_nat (Webserver.LCD_COLS * row)) lcdbuf ->
   exists chunk, result = Webserver.Done chunk) /\
  (forall cursor c, (String.length (Webserver.expansion cursor c) <= 8)%nat).
Proof.
  intros result. subst result.
  destruct (expand_arrows_and_blanks_result lcd_cursorblinking lcdrow lcdcol row lcdbuf)
    as [(Hrow & Hlen & ->)|([Hrow|Hnul] & ->)].
  - split; [discriminate|]. split; [discriminate|]. split; [|split].
    + intros chunk [= <-]. rewrite length_string_of_list, length_app.
      unfold Controller03.MAXLINE. simpl. lia.
    + intros _ _. eexists. reflexivity.
    + intros cursor c. apply expansion_length.
  - split; [discriminate|]. split; [discriminate|]. split; [|split].
    + intros chunk [=].
    + intros Hrow'. lia.
    + intros cursor c. apply expansion_length.
  - split; [discriminate|]. split; [discriminate|]. split; [|split].
    + intros chunk [=].
    + intros _ Hin. contradiction.
    + intros cursor c. apply expansion_length.
Qed.

(** A row of at most 61 characters is expanded whole: the guard of the loop
    stays true up to the NUL. *)
Lemma expanded_whole (lcd_cursorblinking : bool) (lcdrow lcdcol row : Z)
    (text : list ascii) : forall (rest : list ascii) (col dst : Z),
  Forall (fun c => c <> Webserver.NUL) text ->
  dst + 8 * Z.of_nat (length text) <= 492 ->
  Webserver.expanded lcd_cursorblinking lcdrow lcdcol row
    (text ++ Webserver.NUL :: rest) col dst
  = Webserver.expand_text lcd_cursorblinking lcdrow lcdcol row text col.
Proof.
  induction text as [|c text IH]; intros rest col dst Hnul Hlen.
  - cbn [app Webserver.expanded Webserver.expand_text].
    rewrite decide_False by (intros [H _]; by apply H). reflexivity.
  - inversion Hnul as [|? ? Hc Hnul']; subst.
    cbn [app Webserver.expanded Webserver.expand_text length] in *.
    rewrite decide_True by (split; [exact Hc|unfold Controller03.MAXLINE; lia]).
    pose proof (expansion_length
      (bool_decide (lcd_cursorblinking = true /\ row = lcdrow /\ col = lcdcol)) c).
    f_equal. apply IH; [exact Hnul'|lia].
Qed.

(** X1.  A row that holds at most 61 characters before its NUL (a row of the
    21-column LCD holds at most 20) is sent whole: the chunk is the
    expansion of each of its characters, the character under the blinking
    cursor underlined, followed by "<br>" and a newline. *)
Theorem expand_arrows_and_blanks_whole_row (lcd_cursorblinking : bool)
    (lcdrow lcdcol row : Z) (lcdbuf text rest : list ascii) :
  0 <= row ->
  drop (Z.to_nat (Webserver.LCD_COLS * row)) lcdbuf = text ++ Webserver.NUL :: rest ->
  Forall (fun c => c <> Webserver.NUL) text ->
  (length text <= 61)%nat ->
  Webserver.expand_arrows_and_blanks lcd_cursorblinking lcdrow lcdcol row lcdbuf
  = Webserver.Done (string_of_list_ascii
      (Webserver.expand_text lcd_cursorblinking lcdrow lcdcol row text 0
         ++ list_ascii_of_string ("<br>" +:+ String Webserver.newline EmptyString))).
Proof.
  intros Hrow Hsrc Hnul Hlen.
  destruct (expand_arrows_and_blanks_result lcd_cursorblinking lcdrow lcdcol row lcdbuf)
    as [(_ & _ & ->)|([Hneg|Hno] & _)].
  - rewrite Hsrc, expanded_whole by (done || lia). reflexivity.
  - lia.
  - exfalso. apply Hno. rewrite Hsrc. apply elem_of_app. right. apply elem_of_cons. by left.
Qed.

Lemma expand_arrows_and_blanks_menu_row :
  let row1 := list_ascii_of_string
    (String Controller03.LEFTARROW "set temp " +:+ String Controller03.UPARROW "") in
  let lcdbuf := replicate 21 Webserver.NUL ++ row1 ++ replicate 52 Webserver.NUL in
  Webserver.expand_arrows_and_blanks true 1 4 1 lcdbuf
  = Webserver.Done (string_of_list_ascii
      (Webserver.expand_text true 1 4 1 row1 0
         ++ list_ascii_of_string ("<br>" +:+ String Webserver.newline EmptyString))).
Proof.
  intros row1 lcdbuf.
  apply (expand_arrows_and_blanks_whole_row true 1 4 1 lcdbuf row1
           (replicate 51 Webserver.NUL)).
  - lia.
  - reflexivity.
  - repeat constructor; discriminate.
  - simpl. lia.
Defined.

(** ** Visitor table *)

Section VisitorTable.
Import Controller03 Webserver.

Lemma scan_clients_spec (addr : IPV4address) (cs : list client_t) :
  forall ndx e m mc,
  match scan_clients addr cs ndx e m mc with
  | Returned k =>
      exists (i : nat) c,
        k = ndx + Z.of_nat i /\ cs !! i = Some c /\ ip_address c = addr /\
        forall (j : nat) c', (j < i)%nat -> cs !! j = Some c' -> ip_address c' <> addr
  | Finished e' m' mc' =>
      Forall (fun c => ip_address c <> addr) cs /\
      ((e' = e /\ Forall (fun c => count c <> 0) cs) \/
       (exists (i : nat) c, e' = ndx + Z.of_nat i /\ cs !! i = Some c /\ count c = 0)) /\
      ((m' = m /\ mc' = mc /\ Forall (fun c => count c <> 0 -> mc <= count c) cs) \/
       (exists (i : nat) c,
          m' = ndx + Z.of_nat i /\ cs !! i = Some c /\ count c <> 0 /\
          count c = mc' /\ mc' < mc /\
          Forall (fun c' => count c' <> 0 -> mc' <= count c') cs))
  end.
Proof.
  induction cs as [|c cs IH]; intros ndx e m mc; simpl.
  - split; [constructor|]. split; left; split_and!; done || constructor.
  - destruct (decide (ip_address c = addr)) as [Hip|Hip].
    { exists 0%nat, c. split_and!; [lia|done|done|]. intros j c' Hj. lia. }
    destruct (decide (count c = 0)) as [Hz|Hz];
      [|destruct (decide (count c < mc)) as [Hlt|Hge]].
    + specialize (IH (ndx + 1) ndx m mc).
      destruct (scan_clients addr cs (ndx + 1) ndx m mc) as [k|e' m' mc'].
      * destruct IH as (i & c' & -> & Hi & Hc' & Hfirst).
        exists (S i), c'. split_and!; [lia|done|done|].
        intros [|j] c'' Hj Hl; simpl in Hl; [congruence|]. apply (Hfirst j); [lia|done].
      * destruct IH as (Hips & Hempty & Hmin). split; [by constructor|]. split.
        -- right. destruct Hempty as [[-> _]|(i & c' & -> & Hi & Hc')].
           ++ exists 0%nat, c. split_and!; [lia|done|done].
           ++ exists (S i), c'. split_and!; [lia|done|done].
        -- destruct Hmin as [(-> & -> & Hall)|(i & c' & -> & Hi & Hnz & Hc' & Hlt & Hall)].
           ++ left. split_and!; [done|done|]. constructor; [congruence|done].
           ++ right. exists (S i), c'. split_and!; try done; [lia|].
              constructor; [congruence|done].
    + specialize (IH (ndx + 1) e ndx (count c)).
      destruct (scan_clients addr cs (ndx + 1) e ndx (count c)) as [k|e' m' mc'].
      * destruct IH as (i & c' & -> & Hi & Hc' & Hfirst).
        exists (S i), c'. split_and!; [lia|done|done|].
        intros [|j] c'' Hj Hl; simpl in Hl; [congruence|]. apply (Hfirst j); [lia|done].
      * destruct IH as (Hips & Hempty & Hmin). split; [by constructor|]. split.
        -- destruct Hempty as [[-> Hall]|(i & c' & -> & Hi & Hc')].
           ++ left. split; [done|]. by constructor.
           ++ right. exists (S i), c'. split_and!; [lia|done|done].
        -- right.
           destruct Hmin as [(-> & -> & Hall)|(i & c' & -> & Hi & Hnz & Hc' & Hlt' & Hall)].
           ++ exists 0%nat, c. split_and!; try done; [lia|]. constructor; [lia|done].
           ++ exists (S i), c'. split_and!; try done; [lia|lia|].
              constructor; [lia|done].
    + specialize (IH (ndx + 1) e m mc).
      destruct (scan_clients addr cs (ndx + 1) e m mc) as [k|e' m' mc'].
      * destruct IH as (i & c' & -> & Hi & Hc' & Hfirst).
        exists (S i), c'. split_and!; [lia|done|done|].
        intros [|j] c'' Hj Hl; simpl in Hl; [congruence|]. apply (Hfirst j); [lia|done].
      * destruct IH as (Hips & Hempty & Hmin). split; [by constructor|]. split.
        -- destruct Hempty as [[-> Hall]|(i & c' & -> & Hi & Hc')].
           ++ left. split; [done|]. by constructor.
           ++ right. exists (S i), c'. split_and!; [lia|done|done].
        -- destruct Hmin as [(-> & -> & Hall)|(i & c' & -> & Hi & Hnz & Hc' & Hlt' & Hall)].
           ++ left. split_and!; [done|done|]. constructor; [lia|done].
           ++ right. exists (S i), c'. split_and!; try done; [lia|].
              constructor; [lia|done].
Qed.

Lemma load_nat {A} (a : list A) (i : nat) : load a (Z.of_nat i) = a !! i.
Proof. unfold load. rewrite decide_True by lia. by rewrite Nat2Z.id. Qed.

Lemma store_nat {A} (a : list A) (i : nat) (x : A) :
  (i < length a)%nat -> store a (Z.of_nat i) x = Some (<[i := x]> a).
Proof. intros Hi. unfold store. rewrite decide_True by lia. by rewrite Nat2Z.id. Qed.

(** What one call does to a table: either the first slot that holds the
    address is counted again, or no slot holds it and a slot is
    overwritten: one with count 0, or, when no count is 0, one whose count
    is least. *)
Lemma remember_ip_address_step (n : Z) (t : list client_t)
    (now : datetime) (addr : IPV4address) :
  visitor_table n t -> n < INT_MAX ->
  exists (t' : list client_t) (k : nat),
    remember_ip_address now addr t = Some (t', Z.of_nat k) /\
    ((exists c, t !! k = Some c /\ ip_address c = addr /\
                t' = <[k := seen_again now c]> t /\
                forall (j : nat) c', (j < k)%nat -> t !! j = Some c' ->
                                     ip_address c' <> addr) \/
     (Forall (fun c => ip_address c <> addr) t /\
      t' = <[k := new_entry now addr]> t /\
      exists c, t !! k = Some c /\
        (count c = 0 \/
         (Forall (fun c' => count c' <> 0) t /\
          Forall (fun c' => count c <= count c') t)))).
Proof.
  intros (Hlen & Hdist & Hcount) Hn. unfold remember_ip_address.
  pose proof (scan_clients_spec addr t 0 (-1) (-1) INT_MAX) as Hscan.
  destruct (scan_clients addr t 0 (-1) (-1) INT_MAX) as [k|e' m' mc'].
  - destruct Hscan as (i & c & -> & Hi & Hc & Hfirst).
    exists (<[i := seen_again now c]> t), i.
    rewrite Z.add_0_l, load_nat, Hi. simpl.
    assert (Hci : 0 <= count c <= n)
      by (rewrite Forall_forall in Hcount; apply Hcount; by eapply list_elem_of_lookup_2).
    rewrite decide_True by (unfold LONG_MAX, INT_MAX in *; lia).
    rewrite store_nat by (by eapply lookup_lt_Some). simpl.
    split; [reflexivity|]. left. exists c. done.
  - destruct Hscan as (Hips & Hempty & Hmin).
    destruct Hempty as [[-> Hfull]|(i & c & -> & Hi & Hc)].
    + rewrite decide_False by lia.
      destruct Hmin as [(-> & -> & Hall)|(i & c & -> & Hi & Hnz & Hc & Hlt & Hall)].
      * exfalso. destruct t as [|c t]; [simpl in Hlen; discriminate|].
        inversion Hall as [|? ? Hc0]; subst. inversion Hfull; subst.
        inversion Hcount as [|? ? Hc1]; subst. unfold INT_MAX in *. lia.
      * exists (<[i := new_entry now addr]> t), i.
        rewrite Z.add_0_l, store_nat by (by eapply lookup_lt_Some). simpl.
        split; [reflexivity|]. right. split; [done|]. split; [done|].
        exists c. split; [done|]. right. split; [done|].
        rewrite Forall_forall in Hall, Hfull |- *. intros c' Hc'.
        rewrite Hc. apply Hall; [done|]. by apply Hfull.
    + rewrite decide_True by lia.
      exists (<[i := new_entry now addr]> t), i.
      rewrite Z.add_0_l, store_nat by (by eapply lookup_lt_Some). simpl.
      split; [reflexivity|]. right. split; [done|]. split; [done|].
      exists c. split; [done|]. by left.
Qed.

Lemma visitor_table_init : visitor_table 0 clients_init.
Proof.
  split; [reflexivity|]. split.
  - intros i j ci cj _ Hj _ _.
    apply lookup_replicate in Hj as [-> _]. reflexivity.
  - apply Forall_replicate. simpl. lia.
Qed.

Lemma visitor_table_bound (n : Z) (t : list client_t) : visitor_table n t -> 0 <= n.
Proof.
  intros (Hlen & _ & Hcount). destruct t as [|c t]; [discriminate Hlen|].
  inversion Hcount; subst. lia.
Qed.

Lemma seen_again_table (n : Z) (t : list client_t) (now : datetime)
    (k : nat) (c : client_t) :
  visitor_table n t -> t !! k = Some c ->
  (forall (j : nat) c', (j < k)%nat -> t !! j = Some c' ->
                        ip_address c' <> ip_address c) ->
  visitor_table (n + 1) (<[k := seen_again now c]> t).
Proof.
  intros (Hlen & Hdist & Hcount) Hk Hfirst. split; [by rewrite length_insert|]. split.
  - intros i j ci cj Hi Hj Hij Hip.
    apply list_lookup_insert_Some in Hi as [(Hki & <- & _)|[Hki Hi]];
      apply list_lookup_insert_Some in Hj as [(Hkj & <- & _)|[Hkj Hj]]; try lia.
    + subst i. simpl in Hip. by apply (Hdist k j c cj).
    + subst j. simpl in Hip. exfalso. by apply (Hfirst i ci).
    + by apply (Hdist i j ci cj).
  - apply Forall_insert.
    + eapply Forall_impl; [exact Hcount|]. simpl. intros; lia.
    + rewrite Forall_forall in Hcount.
      assert (0 <= count c <= n) by (apply Hcount; by eapply list_elem_of_lookup_2).
      simpl. lia.
Qed.

Lemma new_entry_table (n : Z) (t : list client_t) (now : datetime)
    (addr : IPV4address) (k : nat) :
  visitor_table n t -> Forall (fun c => ip_address c <> addr) t ->
  visitor_table (n + 1) (<[k := new_entry now addr]> t).
Proof.
  intros Ht Hips. pose proof (visitor_table_bound n t Ht) as Hn.
  destruct Ht as (Hlen & Hdist & Hcount). rewrite Forall_forall in Hips.
  split; [by rewrite length_insert|]. split.
  - intros i j ci cj Hi Hj Hij Hip.
    apply list_lookup_insert_Some in Hi as [(Hki & <- & _)|[Hki Hi]];
      apply list_lookup_insert_Some in Hj as [(Hkj & <- & _)|[Hkj Hj]]; try lia.
    + simpl in Hip. exfalso. apply (Hips cj); [by eapply list_elem_of_lookup_2|done].
    + simpl in Hip. exfalso. apply (Hips ci); [by eapply list_elem_of_lookup_2|done].
    + by apply (Hdist i j ci cj).
  - apply Forall_insert.
    + eapply Forall_impl; [exact Hcount|]. simpl. intros; lia.
    + simpl. lia.
Qed.

Lemma remember_ip_address_table (n : Z) (t t' : list client_t)
    (now : datetime) (addr : IPV4address) (k : Z) :
  visitor_table n t -> n < INT_MAX ->
  remember_ip_address now addr t = Some (t', k) ->
  visitor_table (n + 1) t'.
Proof.
  intros Ht Hn Hr.
  destruct (remember_ip_address_step n t now addr Ht Hn) as (t1 & k1 & Hr1 & Hcase).
  rewrite Hr in Hr1. injection Hr1 as -> ->.
  destruct Hcase as [(c & Hk & Hc & -> & Hfirst)|(Hips & -> & _)].
  - apply seen_again_table; [done|done|]. intros j c' Hj Hl. rewrite Hc. by apply (Hfirst j).
  - by apply new_entry_table.
Qed.

(** In a table that satisfies the invariant, slots in use hold different
    addresses. *)
Lemma visitor_table_distinct (n : Z) (t : list client_t) (i j : nat) (ci cj : client_t) :
  visitor_table n t -> t !! i = Some ci -> t !! j = Some cj ->
  occupied ci -> occupied cj -> ip_address ci = ip_address cj -> i = j.
Proof.
  intros (_ & Hdist & _) Hi Hj Hoi Hoj Hip. unfold occupied in *.
  destruct (Nat.lt_trichotomy i j) as [Hlt|[Heq|Hgt]]; [|exact Heq|].
  - exfalso. apply Hoj. by apply (Hdist i j ci cj).
  - exfalso. apply Hoi. by apply (Hdist j i cj ci).
Qed.
End VisitorTable.

(** ** Sorting the visitor table *)

Section SortFacts.
Import Controller03 Webserver.
Variable compare_datetime : datetime -> datetime -> Z.

(** [c] was visited less recently than [temp]: the test of the inner loop. *)
Let older (temp c : client_t) : Prop :=
  compare_datetime (recent_time c) (recent_time temp) < 0.

Lemma insert_at_length {A} (l1 l2 : list A) (x y : A) :
  <[length l1 := x]> (l1 ++ y :: l2) = l1 ++ x :: l2.
Proof. by rewrite insert_app_r_alt, Nat.sub_diag by lia. Qed.

(** The inner loop moves the entries older than [temp] at the end of the
    sorted part one slot up and stores [temp] below them. *)
Lemma make_room_spec (temp : client_t) (l1 : list client_t) :
  forall (hole : client_t) (l2 : list client_t),
  exists l1a l1b,
    l1 = l1a ++ l1b /\
    make_room compare_datetime temp (l1 ++ hole :: l2) (length l1)
      = Some (l1a ++ temp :: l1b ++ l2) /\
    Forall (older temp) l1b /\
    (forall c, last l1a = Some c -> ~ older temp c).
Proof.
  induction l1 as [|c l1 IH] using rev_ind; intros hole l2.
  - exists [], []. split_and!; [done|done|constructor|discriminate].
  - rewrite length_app, Nat.add_1_r. cbn [make_room].
    rewrite <- app_assoc. cbn [app].
    rewrite list_lookup_middle by reflexivity. cbn [mbind option_bind].
    destruct (decide (compare_datetime (recent_time c) (recent_time temp) < 0))
      as [Hold|Hnew].
    + replace (l1 ++ c :: hole :: l2) with ((l1 ++ [c]) ++ hole :: l2)
        by (by rewrite <- app_assoc).
      replace (S (length l1)) with (length (l1 ++ [c]))
        by (rewrite length_app; simpl; lia).
      rewrite store_nat by (rewrite !length_app; simpl; lia).
      cbn [mbind option_bind].
      rewrite insert_at_length.
      rewrite <- app_assoc. cbn [app].
      destruct (IH c (c :: l2)) as (l1a & l1b & -> & Hroom & Hall & Hlast).
      rewrite length_app in Hroom |- *. rewrite Hroom.
      exists l1a, (l1b ++ [c]). split_and!.
      * by rewrite app_assoc.
      * by rewrite <- !app_assoc.
      * apply Forall_app. split; [exact Hall|]. by constructor.
      * exact Hlast.
    + replace (l1 ++ c :: hole :: l2) with ((l1 ++ [c]) ++ hole :: l2)
        by (by rewrite <- app_assoc).
      replace (S (length l1)) with (length (l1 ++ [c]))
        by (rewrite length_app; simpl; lia).
      rewrite store_nat by (rewrite !length_app; simpl; lia).
      rewrite insert_at_length.
      exists (l1 ++ [c]), []. split_and!.
      * by rewrite app_nil_r.
      * reflexivity.
      * constructor.
      * intros c'. rewrite last_snoc. intros [= <-]. exact Hnew.
Qed.

Lemma newest_first_app (l1 l2 : list client_t) :
  newest_first compare_datetime (l1 ++ l2) ->
  newest_first compare_datetime l1 /\ newest_first compare_datetime l2.
Proof.
  induction l1 as [|c l1 IH]; intros Hs; [split; [exact I|exact Hs]|].
  destruct Hs as [Hc Hs]. destruct (IH Hs) as [H1 H2]. split; [|exact H2].
  split; [|exact H1]. destruct l1 as [|c' l1]; [exact I|exact Hc].
Qed.

Lemma newest_first_insert (temp : client_t) (l1a l1b : list client_t) :
  newest_first compare_datetime l1a -> newest_first compare_datetime l1b ->
  (forall c, last l1a = Some c -> ~ older temp c) ->
  (forall c, head l1b = Some c ->
             ~ compare_datetime (recent_time temp) (recent_time c) < 0) ->
  newest_first compare_datetime (l1a ++ temp :: l1b).
Proof.
  intros Ha Hb Hlast Hhead. induction l1a as [|c l1a IH].
  - split; [|exact Hb]. destruct l1b as [|c' l1b]; [exact I|by apply Hhead].
  - destruct Ha as [Hc Ha]. split.
    + destruct l1a as [|c' l1a]; [by apply Hlast|exact Hc].
    + apply IH; [exact Ha|]. intros c' Hc'. apply Hlast.
      destruct l1a; [discriminate|exact Hc'].
Qed.

Lemma sort_from_spec (l2 : list client_t) : forall l1 : list client_t,
  exists t',
    sort_from compare_datetime (length l2) (length l1) (l1 ++ l2) = Some t' /\
    t' ≡ₚ l1 ++ l2 /\
    ((forall a b, compare_datetime a b < 0 -> ~ compare_datetime b a < 0) ->
     newest_first compare_datetime l1 -> newest_first compare_datetime t').
Proof.
  induction l2 as [|temp l2 IH]; intros l1.
  - exists (l1 ++ []). split_and!; [reflexivity|reflexivity|].
    intros _ Hs. by rewrite app_nil_r.
  - cbn [length sort_from]. rewrite list_lookup_middle by reflexivity.
    cbn [mbind option_bind].
    destruct (make_room_spec temp l1 temp l2) as (l1a & l1b & -> & -> & Hold & Hlast).
    cbn [mbind option_bind].
    destruct (IH (l1a ++ temp :: l1b)) as (t' & Hsort & Hperm & Hsorted).
    replace (S (length (l1a ++ l1b))) with (length (l1a ++ temp :: l1b))
      by (rewrite !length_app; simpl; lia).
    rewrite <- app_assoc in Hsort. cbn [app] in Hsort.
    exists t'. split_and!.
    + exact Hsort.
    + rewrite Hperm. rewrite <- !app_assoc. cbn [app].
      apply Permutation_app_head. apply Permutation_middle.
    + intros Hasym Hs. apply Hsorted; [exact Hasym|].
      apply newest_first_app in Hs as [Ha Hb].
      apply newest_first_insert; [exact Ha|exact Hb|exact Hlast|].
      intros c Hc. destruct l1b as [|c' l1b]; [discriminate|].
      injection Hc as ->. inversion Hold; subst. by apply Hasym.
Qed.
End SortFacts.

(** X2.  [sort_clients] stays inside the table and permutes its entries,
    whatever [compare_datetime] answers; and if [compare_datetime] never
    answers "less" both ways round, then in the sorted table no entry was
    visited less recently than the entry after it. *)
Theorem sort_clients_permutes
    (compare_datetime : Controller03.datetime -> Controller03.datetime -> Z)
    (t : list Webserver.client_t) :
  length t = Z.to_nat Webserver.MAX_IP_ADDRESSES ->
  exists t',
    Webserver.sort_clients compare_datetime t = Some t' /\
    t' ≡ₚ t /\
    ((forall a b, compare_datetime a b < 0 -> ~ compare_datetime b a < 0) ->
     Webserver.newest_first compare_datetime t').
Proof.
  intros Hlen. destruct t as [|c t]; [discriminate Hlen|].
  injection Hlen as Hlen. unfold Webserver.sort_clients.
  destruct (sort_from_spec compare_datetime t [c]) as (t' & Hsort & Hperm & Hsorted).
  rewrite Hlen in Hsort. exists t'. split; [exact Hsort|]. split; [exact Hperm|].
  intros Hasym. apply Hsorted; [exact Hasym|]. split; exact I.
Qed.

Lemma sort_clients_permutes_init :
  exists t',
    Webserver.sort_clients (fun a b => Controller03.year a - Controller03.year b)
      Webserver.clients_init = Some t' /\
    t' ≡ₚ Webserver.clients_init /\
    ((forall a b : Controller03.datetime,
        Controller03.year a - Controller03.year b < 0 ->
        ~ Controller03.year b - Controller03.year a < 0) ->
     Webserver.newest_first (fun a b => Controller03.year a - Controller03.year b) t').
Proof.
  apply (sort_clients_permutes (fun a b => Controller03.year a - Controller03.year b)
           Webserver.clients_init).
  reflexivity.
Defined.

(** ** The visitor table under sorting *)

Section SortedVisits.
Import Controller03 Webserver.
Variable compare_datetime : datetime -> datetime -> Z.

Lemma earlier_wins_iff (t : list client_t) : distinct_addresses t <-> earlier_wins t.
Proof.
  induction t as [|c t IH]; simpl.
  - split; [done|]. intros _ i j ci cj Hi. by rewrite lookup_nil in Hi.
  - split.
    + intros Hd. split.
      * apply Forall_forall. intros c' [j Hj]%list_elem_of_lookup Hip.
        apply (Hd 0%nat (S j) c c'); [done|done|lia|done].
      * apply IH. intros i j ci cj Hi Hj Hij. apply (Hd (S i) (S j)); [done|done|lia].
    + intros [Hc Ht] [|i] [|j] ci cj Hi Hj Hij Hip; try lia; simpl in Hi, Hj.
      * injection Hi as <-. rewrite Forall_forall in Hc. apply Hc; [|done].
        by eapply list_elem_of_lookup_2.
      * apply IH in Ht. apply (Ht i j ci cj); [done|done|lia|done].
Qed.

Lemma earlier_wins_app (l r : list client_t) :
  earlier_wins (l ++ r) <->
  earlier_wins l /\ earlier_wins r /\
  Forall (fun c => Forall (fun c' => ip_address c = ip_address c' -> count c' = 0) r) l.
Proof.
  induction l as [|c l IH]; simpl.
  - split; [intros H; split_and!; [done|done|constructor]|by intros (_ & H & _)].
  - rewrite Forall_app, IH, Forall_cons. tauto.
Qed.

(** The properties of slots that sorting moves along with them: an unused
    slot has the zeroed [recent_time], a used one a time not before it. *)
Let unused_zero (c : client_t) : Prop := count c = 0 -> recent_time c = zero_datetime.
Let used_set (c : client_t) : Prop :=
  count c <> 0 -> ~ compare_datetime (recent_time c) zero_datetime < 0.
Let kept (t : list client_t) : Prop :=
  earlier_wins t /\ Forall unused_zero t /\ Forall used_set t.

(** Moving [temp] down past entries visited less recently keeps [kept]. *)
Lemma kept_insert (temp : client_t) (l1a l1b l2 : list client_t) :
  Forall (fun c => compare_datetime (recent_time c) (recent_time temp) < 0) l1b ->
  kept (l1a ++ l1b ++ temp :: l2) -> kept (l1a ++ temp :: l1b ++ l2).
Proof.
  intros Hold (Hwins & Hzero & Hset). unfold kept.
  rewrite !Forall_app, !Forall_cons, !Forall_app in *.
  split; [|tauto].
  apply earlier_wins_app in Hwins as (Ha & Hb & Hab).
  apply earlier_wins_app in Hb as (Hb & Htemp & Hbt).
  simpl in Htemp. destruct Htemp as [Htl Hl2].
  apply earlier_wins_app. split; [exact Ha|]. split.
  - simpl. split.
    + apply Forall_app. split; [|exact Htl].
      apply Forall_forall. intros c Hc Hip.
      destruct (decide (count c = 0)) as [Hz|Hnz]; [exact Hz|exfalso].
      (* [c] came before [temp] with the same address: [temp] is unused *)
      assert (Hcount : count temp = 0).
      { rewrite Forall_forall in Hbt. specialize (Hbt c Hc).
        apply Forall_cons in Hbt as [Hbt _]. by apply Hbt. }
      destruct Hzero as (_ & _ & Htz & _). destruct Hset as (_ & Hsb & _).
      rewrite Forall_forall in Hold, Hsb.
      specialize (Hold c Hc). rewrite (Htz Hcount) in Hold. by apply (Hsb c Hc).
    + apply earlier_wins_app. split; [exact Hb|]. split; [exact Hl2|].
      eapply Forall_impl; [exact Hbt|]. intros c Hc. by apply Forall_cons in Hc as [_ Hc].
  - eapply Forall_impl; [exact Hab|]. intros c Hc.
    rewrite Forall_app, Forall_cons in Hc. rewrite Forall_cons, Forall_app. tauto.
Qed.

(** Whatever the insertions of the sort keep, the sort keeps. *)
Lemma sort_from_invariant (P : list client_t -> Prop) :
  (forall temp l1a l1b l2,
     Forall (fun c => compare_datetime (recent_time c) (recent_time temp) < 0) l1b ->
     P (l1a ++ l1b ++ temp :: l2) -> P (l1a ++ temp :: l1b ++ l2)) ->
  forall (l2 l1 t' : list client_t),
  P (l1 ++ l2) ->
  sort_from compare_datetime (length l2) (length l1) (l1 ++ l2) = Some t' ->
  P t'.
Proof.
  intros Hstep. induction l2 as [|temp l2 IH]; intros l1 t' HP Hsort.
  - injection Hsort as <-. exact HP.
  - cbn [length sort_from] in Hsort. rewrite list_lookup_middle in Hsort by reflexivity.
    cbn [mbind option_bind] in Hsort.
    destruct (make_room_spec compare_datetime temp l1 temp l2)
      as (l1a & l1b & -> & Hroom & Hold & _).
    rewrite Hroom in Hsort. cbn [mbind option_bind] in Hsort.
    apply (IH (l1a ++ temp :: l1b) t').
    + rewrite <- app_assoc. cbn [app]. apply Hstep; [exact Hold|].
      by rewrite <- app_assoc in HP.
    + replace (length (l1a ++ temp :: l1b)) with (S (length (l1a ++ l1b)))
        by (rewrite !length_app; simpl; lia).
      rewrite <- app_assoc. exact Hsort.
Qed.

(** What requests and sorts keep of a table. *)
Let well_kept (n : Z) (t : list client_t) : Prop :=
  visitor_table n t /\ Forall unused_zero t /\ Forall used_set t.

Lemma well_kept_remember (n : Z) (t : list client_t) (now : datetime)
    (addr : IPV4address) :
  well_kept n t -> n < INT_MAX ->
  ~ compare_datetime now zero_datetime < 0 ->
  exists t' k, remember_ip_address now addr t = Some (t', k) /\ well_kept (n + 1) t'.
Proof.
  intros (Ht & Hzero & Hset) Hn Hnow.
  destruct (remember_ip_address_step n t now addr Ht Hn) as (t' & k & Hr & Hcase).
  exists t', (Z.of_nat k). split; [exact Hr|].
  split; [by eapply remember_ip_address_table|].
  destruct Hcase as [(c & Hk & _ & -> & _)|(_ & -> & _)].
  - assert (Hc : 0 <= count c).
    { destruct Ht as (_ & _ & Hcount). rewrite Forall_forall in Hcount.
      apply (Hcount c). by eapply list_elem_of_lookup_2. }
    split; apply Forall_insert; try done.
    + intros Hz. simpl in Hz. exfalso. lia.
    + intros _. exact Hnow.
  - split; apply Forall_insert; try done.
    intros _. exact Hnow.
Qed.

Lemma well_kept_sort (n : Z) (t : list client_t) :
  well_kept n t ->
  exists t', sort_clients compare_datetime t = Some t' /\ well_kept n t'.
Proof.
  intros ((Hlen & Hdist & Hcount) & Hzero & Hset).
  destruct t as [|c t]; [discriminate Hlen|]. injection Hlen as Hlen.
  unfold sort_clients.
  destruct (sort_from_spec compare_datetime t [c]) as (t' & Hsort & Hperm & _).
  rewrite Hlen in Hsort. exists t'. split; [exact Hsort|].
  assert (Hkept : kept t').
  { apply (sort_from_invariant kept kept_insert t [c] t'); [|by rewrite Hlen].
    split; [by apply earlier_wins_iff|]. split; [exact Hzero|exact Hset]. }
  destruct Hkept as (Hwins & Hzero' & Hset').
  split; [|split; [exact Hzero'|exact Hset']].
  split; [|split].
  - rewrite Hperm. simpl. by rewrite Hlen.
  - by apply earlier_wins_iff.
  - by rewrite Hperm.
Qed.

Lemma serve_all_kept (reqs : list request_t) : forall (n : Z) (t : list client_t),
  well_kept n t -> n + Z.of_nat (length reqs) <= INT_MAX ->
  clock_set compare_datetime reqs ->
  exists t', serve_all compare_datetime reqs t = Some t' /\
             well_kept (n + Z.of_nat (length reqs)) t'.
Proof.
  induction reqs as [|r reqs IH]; intros n t Ht Hn Hclock.
  - exists t. split; [reflexivity|]. simpl. by rewrite Z.add_0_r.
  - apply Forall_cons in Hclock as [Hnow Hclock]. cbn [length] in Hn.
    destruct (well_kept_remember n t (request_now r) (request_addr r) Ht ltac:(lia) Hnow)
      as (t1 & k & Hr & Ht1).
    cbn [serve_all]. rewrite Hr. cbn [mbind option_bind fst].
    assert (Hsorted : exists t2,
      (if request_visitors r then sort_clients compare_datetime t1 else Some t1) = Some t2 /\
      well_kept (n + 1) t2).
    { destruct (request_visitors r); [by apply well_kept_sort|by exists t1]. }
    destruct Hsorted as (t2 & -> & Ht2). cbn [mbind option_bind].
    destruct (IH (n + 1) t2 Ht2 ltac:(lia) Hclock) as (t' & Hserve & Ht').
    exists t'. split; [exact Hserve|].
    replace (n + Z.of_nat (length (r :: reqs))) with (n + 1 + Z.of_nat (length reqs))
      by (cbn [length]; lia).
    exact Ht'.
Qed.
End SortedVisits.

(** X3.  The table also keeps its 50 slots and its slots in use keep
    different addresses when visits are mixed with requests for /visitors,
    which sort the table after recording the visit: for fewer than [INT_MAX]
    requests, provided [compare_datetime] never places a clock reading
    before the zeroed time of an unused slot. *)
Theorem visitor_table_sorted_visits
    (compare_datetime : Controller03.datetime -> Controller03.datetime -> Z)
    (reqs : list Webserver.request_t) :
  Z.of_nat (length reqs) < Webserver.INT_MAX ->
  Webserver.clock_set compare_datetime reqs ->
  exists t,
    Webserver.serve_all compare_datetime reqs Webserver.clients_init = Some t /\
    length t = Z.to_nat Webserver.MAX_IP_ADDRESSES /\
    (forall (i j : nat) ci cj,
       t !! i = Some ci -> t !! j = Some cj ->
       Webserver.occupied ci -> Webserver.occupied cj ->
       Webserver.ip_address ci = Webserver.ip_address cj -> i = j).
Proof.
  intros Hreqs Hclock.
  destruct (serve_all_kept compare_datetime reqs 0 Webserver.clients_init)
    as (t & Hserve & Ht & _); [|lia|exact Hclock|].
  - split; [exact visitor_table_init|].
    split; apply Forall_replicate; [reflexivity|intros H; by contradict H].
  - exists t. split; [exact Hserve|]. split; [apply Ht|].
    intros i j ci cj. by apply (visitor_table_distinct _ t i j ci cj Ht).
Qed.

Lemma visitor_table_sorted_visits_example :
  let compare a b := Controller03.year a - Controller03.year b in
  let at_year y := {| Controller03.sec := 0; Controller03.min := 0; Controller03.hour := 1;
                      Controller03.ampm := 0; Controller03.day := 1; Controller03.date := 1;
                      Controller03.month := 1; Controller03.year := y |} in
  let reqs :=
    [ {| Webserver.request_now := at_year 22; Webserver.request_addr := 7;
         Webserver.request_visitors := false |};
      {| Webserver.request_now := at_year 23; Webserver.request_addr := 0;
         Webserver.request_visitors := true |};
      {| Webserver.request_now := at_year 24; Webserver.request_addr := 0;
         Webserver.request_visitors := false |} ] in
  exists t,
    Webserver.serve_all compare reqs Webserver.clients_init = Some t /\
    length t = Z.to_nat Webserver.MAX_IP_ADDRESSES /\
    (forall (i j : nat) ci cj,
       t !! i = Some ci -> t !! j = Some cj ->
       Webserver.occupied ci -> Webserver.occupied cj ->
       Webserver.ip_address ci = Webserver.ip_address cj -> i = j).
Proof.
  intros compare at_year reqs. apply (visitor_table_sorted_visits compare reqs).
  - vm_compute. reflexivity.
  - repeat constructor; vm_compute; discriminate.
Defined.

(** ** The entries of the visitor table *)

Section Entries.
Import Controller03 Webserver.
Variable compare_datetime : datetime -> datetime -> Z.

(** Counts are not negative and a slot that is not in use is still zeroed. *)
Let zeroed (t : list client_t) : Prop :=
  length t = Z.to_nat MAX_IP_ADDRESSES /\
  Forall (fun c => 0 <= count c /\ (count c = 0 -> c = zero_client)) t.

Lemma remember_ip_address_zeroed (t t' : list client_t) (now : datetime)
    (addr : IPV4address) (k : Z) :
  zeroed t -> remember_ip_address now addr t = Some (t', k) -> zeroed t'.
Proof.
  intros [Hlen Hz]. unfold remember_ip_address.
  destruct (scan_clients addr t 0 (-1) (-1) INT_MAX) as [ndx|empty_ndx min_ndx min_count].
  - unfold load, store. destruct (decide (0 <= ndx)); [|discriminate].
    destruct (t !! Z.to_nat ndx) as [c|] eqn:Hc; [|discriminate].
    cbn [mbind option_bind].
    destruct (decide (count c < LONG_MAX)); [|discriminate].
    destruct (decide (0 <= ndx < Z.of_nat (length t))); [|discriminate].
    intros [= <- _]. split; [by rewrite length_insert|].
    apply Forall_insert; [exact Hz|].
    rewrite Forall_forall in Hz.
    destruct (Hz c) as [Hc0 _]; [by eapply list_elem_of_lookup_2|].
    simpl. split; [lia|]. intros; lia.
  - unfold store.
    destruct (decide (0 <= (if decide (empty_ndx >= 0) then empty_ndx else min_ndx)
                      < Z.of_nat (length t))); [|discriminate].
    intros [= <- _]. split; [by rewrite length_insert|].
    apply Forall_insert; [exact Hz|]. simpl. split; [lia|]. intros; lia.
Qed.

Lemma serve_all_zeroed (reqs : list request_t) : forall t t' : list client_t,
  zeroed t -> serve_all compare_datetime reqs t = Some t' -> zeroed t'.
Proof.
  induction reqs as [|r reqs IH]; intros t t' Ht; cbn [serve_all].
  - by intros [= <-].
  - destruct (remember_ip_address (request_now r) (request_addr r) t) as [[t1 k]|] eqn:Hr;
      [|discriminate].
    cbn [mbind option_bind fst].
    apply remember_ip_address_zeroed in Hr; [|exact Ht].
    destruct (request_visitors r).
    + destruct (sort_clients compare_datetime t1) as [t2|] eqn:Hsort; [|discriminate].
      cbn [mbind option_bind]. apply IH.
      destruct Hr as [Hlen Hz]. destruct t1 as [|c t1]; [discriminate Hlen|].
      injection Hlen as Hlen.
      destruct (sort_from_spec compare_datetime t1 [c]) as (t3 & Hsort3 & Hperm & _).
      rewrite Hlen in Hsort3.
      change (sort_clients compare_datetime (c :: t1) = Some t3) in Hsort3.
      rewrite Hsort in Hsort3. injection Hsort3 as ->.
      split; [rewrite Hperm; simpl; by rewrite Hlen|by rewrite Hperm].
    + cbn [mbind option_bind]. by apply IH.
Qed.

(** Without requests for /visitors the table is never sorted. *)
Lemma serve_all_unsorted (reqs : list request_t) : forall (n : Z) (t : list client_t),
  visitor_table n t -> n + Z.of_nat (length reqs) <= INT_MAX ->
  Forall (fun r => request_visitors r = false) reqs ->
  exists t', serve_all compare_datetime reqs t = Some t' /\
             visitor_table (n + Z.of_nat (length reqs)) t'.
Proof.
  induction reqs as [|r reqs IH]; intros n t Ht Hn Hplain.
  - exists t. split; [reflexivity|]. simpl. by rewrite Z.add_0_r.
  - apply Forall_cons in Hplain as [Hr Hplain]. cbn [length] in Hn.
    destruct (remember_ip_address_step n t (request_now r) (request_addr r) Ht ltac:(lia))
      as (t1 & k & Hrem & _).
    cbn [serve_all]. rewrite Hrem, Hr. cbn [mbind option_bind fst].
    destruct (IH (n + 1) t1) as (t' & Hall & Ht'); [|lia|exact Hplain|].
    + eapply remember_ip_address_table; [exact Ht|lia|exact Hrem].
    + exists t'. split; [exact Hall|].
      replace (n + Z.of_nat (length (r :: reqs))) with (n + 1 + Z.of_nat (length reqs))
        by (cbn [length]; lia).
      exact Ht'.
Qed.

(** The table that requests leave, sorted in between or not. *)
Lemma serve_all_table (reqs : list request_t) :
  Z.of_nat (length reqs) <= INT_MAX ->
  clock_set compare_datetime reqs \/ Forall (fun r => request_visitors r = false) reqs ->
  exists t, serve_all compare_datetime reqs clients_init = Some t /\
            visitor_table (Z.of_nat (length reqs)) t /\
            Forall (fun c => count c = 0 -> c = zero_client) t.
Proof.
  intros Hn Hreqs.
  assert (Hinit : zeroed clients_init).
  { split; [apply length_replicate|]. apply Forall_replicate. by split. }
  assert (Htable : exists t, serve_all compare_datetime reqs clients_init = Some t /\
                             visitor_table (Z.of_nat (length reqs)) t).
  { destruct Hreqs as [Hclock|Hplain].
    - destruct (serve_all_kept compare_datetime reqs 0 clients_init)
        as (t & Hserve & Ht & _); [|lia|exact Hclock|by exists t].
      split; [exact visitor_table_init|].
      split; apply Forall_replicate; [reflexivity|intros H; by contradict H].
    - destruct (serve_all_unsorted reqs 0 clients_init visitor_table_init ltac:(lia) Hplain)
        as (t & Hserve & Ht).
      by exists t. }
  destruct Htable as (t & Hserve & Ht). exists t. split; [exact Hserve|]. split; [exact Ht|].
  destruct (serve_all_zeroed reqs _ _ Hinit Hserve) as [_ Hz].
  eapply Forall_impl; [exact Hz|]. by intros c [_ Hc].
Qed.
End Entries.

(** C9.  After any sequence of fewer than [INT_MAX] requests, whether or
    not requests for /visitors sort the table in between, the table is
    defined, and so is the table after one more call of
    [remember_ip_address], for [addr] at time [now]; the latter still has
    [MAX_IP_ADDRESSES] slots and no two slots in use hold the same address.
    If a slot in use holds [addr], the call returns that slot and changes
    the table only there: the count goes up by one and [recent_time] becomes
    [now], the address, [first_time] and [gave_password] stay.  If no slot
    in use holds [addr] and some slot has count 0, a slot with count 0
    becomes the entry of [addr], with count 1, [recent_time] [now] and no
    password, and nothing else changes; its [first_time] is [now], except
    for the address 0, which every zeroed slot holds: that entry keeps the
    zeroed [first_time].  If no slot in use holds [addr] and every slot is
    in use, a slot whose count is least is overwritten with the entry of
    [addr]: count 1, both times [now], no password.  When the table is
    sorted in between, this needs [compare_datetime] never to place a clock
    reading before the zeroed time. *)
Theorem visitor_table_entries
    (compare_datetime : Controller03.datetime -> Controller03.datetime -> Z)
    (reqs : list Webserver.request_t)
    (now : Controller03.datetime) (addr : Webserver.IPV4address) :
  Z.of_nat (length reqs) < Webserver.INT_MAX ->
  Webserver.clock_set compare_datetime reqs \/
    Forall (fun r => Webserver.request_visitors r = false) reqs ->
  exists (t t' : list Webserver.client_t) (k : nat),
    Webserver.serve_all compare_datetime reqs Webserver.clients_init = Some t /\
    Webserver.remember_ip_address now addr t = Some (t', Z.of_nat k) /\
    length t' = Z.to_nat Webserver.MAX_IP_ADDRESSES /\
    (forall (i j : nat) ci cj,
       t' !! i = Some ci -> t' !! j = Some cj ->
       Webserver.occupied ci -> Webserver.occupied cj ->
       Webserver.ip_address ci = Webserver.ip_address cj -> i = j) /\
    (forall (i : nat) c,
       t !! i = Some c -> Webserver.occupied c -> Webserver.ip_address c = addr ->
       k = i /\
       exists c',
         t' = <[i := c']> t /\
         Webserver.ip_address c' = addr /\
         Webserver.count c' = Webserver.count c + 1 /\
         Webserver.recent_time c' = now /\
         Webserver.first_time c' = Webserver.first_time c /\
         Webserver.gave_password c' = Webserver.gave_password c) /\
    ((forall c, c ∈ t -> Webserver.occupied c -> Webserver.ip_address c <> addr) ->
     (exists c, c ∈ t /\ Webserver.count c = 0) ->
     exists c c',
       t !! k = Some c /\ Webserver.count c = 0 /\ t' = <[k := c']> t /\
       Webserver.ip_address c' = addr /\ Webserver.count c' = 1 /\
       Webserver.recent_time c' = now /\
       Webserver.first_time c'
         = (if decide (addr = 0) then Webserver.zero_datetime else now) /\
       Webserver.gave_password c' = false) /\
    ((forall c, c ∈ t -> Webserver.occupied c /\ Webserver.ip_address c <> addr) ->
     exists c c',
       t !! k = Some c /\
       (forall c'', c'' ∈ t -> Webserver.count c <= Webserver.count c'') /\
       t' = <[k := c']> t /\
       Webserver.ip_address c' = addr /\ Webserver.count c' = 1 /\
       Webserver.first_time c' = now /\ Webserver.recent_time c' = now /\
       Webserver.gave_password c' = false).
Proof.
  intros Hreqs Hsorted.
  destruct (serve_all_table compare_datetime reqs ltac:(lia) Hsorted)
    as (t & Hall & Ht & Hzero).
  destruct (remember_ip_address_step _ t now addr Ht Hreqs) as (t' & k & Hr & Hcase).
  pose proof (remember_ip_address_table _ t t' now addr _ Ht Hreqs Hr) as Ht'.
  rewrite Forall_forall in Hzero.
  exists t, t', k. split; [exact Hall|]. split; [exact Hr|].
  split; [apply Ht'|].
  split; [intros i j ci cj; by apply (visitor_table_distinct _ t' i j ci cj Ht')|].
  split; [|split].
  - intros i c Hi Hocc Hc.
    destruct Hcase as [(ck & Hk & Hck & -> & Hfirst)|(Hips & _)].
    + assert (k = i) as ->.
      { destruct (Nat.lt_trichotomy k i) as [Hlt|[Heq|Hgt]]; [|exact Heq|].
        - exfalso. apply Hocc.
          destruct Ht as (_ & Hdist & _). apply (Hdist k i ck c); congruence.
        - exfalso. by apply (Hfirst i c). }
      split; [reflexivity|].
      assert (ck = c) as -> by congruence.
      exists (Webserver.seen_again now c). by split_and!.
    + exfalso. rewrite Forall_forall in Hips.
      apply (Hips c); [by eapply list_elem_of_lookup_2|exact Hc].
  - intros Hnew (c0 & Hc0 & Hzero0).
    destruct Hcase as [(ck & Hk & Hck & -> & _)|(Hips & -> & ck & Hk & [Hz|[Hfull _]])].
    + assert (Hz : Webserver.count ck = 0).
      { destruct (decide (Webserver.count ck = 0)) as [Hz|Hnz]; [exact Hz|].
        exfalso. apply (Hnew ck); [by eapply list_elem_of_lookup_2|exact Hnz|exact Hck]. }
      assert (ck = Webserver.zero_client) as ->
        by (apply Hzero; [by eapply list_elem_of_lookup_2|exact Hz]).
      simpl in Hck. subst addr.
      exists Webserver.zero_client, (Webserver.seen_again now Webserver.zero_client).
      by split_and!.
    + assert (ck = Webserver.zero_client) as ->
        by (apply Hzero; [by eapply list_elem_of_lookup_2|exact Hz]).
      assert (Haddr : addr <> 0).
      { intros ->. rewrite Forall_forall in Hips.
        apply (Hips Webserver.zero_client); [by eapply list_elem_of_lookup_2|reflexivity]. }
      exists Webserver.zero_client, (Webserver.new_entry now addr).
      simpl. rewrite decide_False by exact Haddr. by split_and!.
    + exfalso. rewrite Forall_forall in Hfull. by apply (Hfull c0).
  - intros Hfull.
    destruct Hcase as [(ck & Hk & Hck & -> & _)|(Hips & -> & ck & Hk & [Hz|[_ Hmin]])].
    + exfalso. apply (Hfull ck); [by eapply list_elem_of_lookup_2|exact Hck].
    + exfalso. destruct (Hfull ck) as [Hocc _]; [by eapply list_elem_of_lookup_2|].
      exact (Hocc Hz).
    + exists ck, (Webserver.new_entry now addr). split; [exact Hk|].
      rewrite Forall_forall in Hmin. by split_and!.
Qed.

(** Three visitors, the table sorted by a request for /visitors, and the
    first of them seen again. *)
Lemma visitor_table_entries_sorted_table :
  let at_sec s := {| Controller03.sec := s; Controller03.min := 0; Controller03.hour := 9;
                     Controller03.ampm := 0; Controller03.day := 1; Controller03.date := 2;
                     Controller03.month := 3; Controller03.year := 22 |} in
  let compare_datetime a b := Controller03.sec a - Controller03.sec b in
  let request s a v := {| Webserver.request_now := at_sec s; Webserver.request_addr := a;
                          Webserver.request_visitors := v |} in
  let reqs := [request 1 0x0a00000b false; request 2 0 false;
               request 3 0x0a00000c true; request 4 0 false] in
  let now := at_sec 5 in
  let addr := 0x0a00000b in
  exists (t t' : list Webserver.client_t) (k : nat),
    Webserver.serve_all compare_datetime reqs Webserver.clients_init = Some t /\
    Webserver.remember_ip_address now addr t = Some (t', Z.of_nat k) /\
    length t' = Z.to_nat Webserver.MAX_IP_ADDRESSES /\
    (forall (i j : nat) ci cj,
       t' !! i = Some ci -> t' !! j = Some cj ->
       Webserver.occupied ci -> Webserver.occupied cj ->
       Webserver.ip_address ci = Webserver.ip_address cj -> i = j) /\
    (forall (i : nat) c,
       t !! i = Some c -> Webserver.occupied c -> Webserver.ip_address c = addr ->
       k = i /\
       exists c',
         t' = <[i := c']> t /\
         Webserver.ip_address c' = addr /\
         Webserver.count c' = Webserver.count c + 1 /\
         Webserver.recent_time c' = now /\
         Webserver.first_time c' = Webserver.first_time c /\
         Webserver.gave_password c' = Webserver.gave_password c) /\
    ((forall c, c ∈ t -> Webserver.occupied c -> Webserver.ip_address c <> addr) ->
     (exists c, c ∈ t /\ Webserver.count c = 0) ->
     exists c c',
       t !! k = Some c /\ Webserver.count c = 0 /\ t' = <[k := c']> t /\
       Webserver.ip_address c' = addr /\ Webserver.count c' = 1 /\
       Webserver.recent_time c' = now /\
       Webserver.first_time c'
         = (if decide (addr = 0) then Webserver.zero_datetime else now) /\
       Webserver.gave_password c' = false) /\
    ((forall c, c ∈ t -> Webserver.occupied c /\ Webserver.ip_address c <> addr) ->
     exists c c',
       t !! k = Some c /\
       (forall c'', c'' ∈ t -> Webserver.count c <= Webserver.count c'') /\
       t' = <[k := c']> t /\
       Webserver.ip_address c' = addr /\ Webserver.count c' = 1 /\
       Webserver.first_time c' = now /\ Webserver.recent_time c' = now /\
       Webserver.gave_password c' = false).
Proof.
  intros at_sec compare_datetime request reqs now addr.
  apply (visitor_table_entries compare_datetime reqs now addr).
  - vm_compute. reflexivity.
  - left. repeat constructor; vm_compute; discriminate.
Defined.

(** ** The conversion of the button number *)

Section ButtonText.
Import Controller03 Webserver.

Lemma scan_literal_Matched (format : string) : forall input rest : string,
  scan_literal format input = Matched rest <-> input = format +:+ rest.
Proof.
  induction format as [|f format IH]; intros input rest; simpl.
  - split; [by intros [= ->]|by intros ->].
  - destruct input as [|c input]; [split; discriminate|].
    destruct (decide (f = c)) as [->|Hne].
    + rewrite IH. split; [by intros ->|by intros [= ->]].
    + split; [discriminate|]. intros [= -> _]. done.
Qed.

Lemma append_cons (c : ascii) (s r : string) : String c s +:+ r = String c (s +:+ r).
Proof. reflexivity. Qed.

Lemma append_empty (r : string) : "" +:+ r = r.
Proof. reflexivity. Qed.

Lemma all_chars_cons (p : ascii -> bool) (c : ascii) (s : string) :
  all_chars p (String c s) <-> p c = true /\ all_chars p s.
Proof. unfold all_chars. simpl. by rewrite Forall_cons. Qed.

Lemma skip_space_spec (input : string) :
  exists spaces,
    input = spaces +:+ skip_space input /\ all_chars isspace spaces /\
    (forall c rest, skip_space input = String c rest -> isspace c = false).
Proof.
  induction input as [|c input (spaces & Heq & Hsp & Hrest)]; simpl.
  - exists "". split_and!; [done|constructor|discriminate].
  - destruct (isspace c) eqn:Hc.
    + exists (String c spaces). split_and!.
      * rewrite append_cons. f_equal. exact Heq.
      * by apply all_chars_cons.
      * exact Hrest.
    + exists "". split_and!; [done|constructor|]. by intros c' rest [= <- _].
Qed.

Lemma skip_space_app (spaces rest : string) :
  all_chars isspace spaces ->
  (forall c rest', rest = String c rest' -> isspace c = false) ->
  skip_space (spaces +:+ rest) = rest.
Proof.
  intros Hsp Hrest. induction spaces as [|c spaces IH].
  - rewrite append_empty. destruct rest as [|c rest]; [done|].
    simpl. by rewrite (Hrest c rest).
  - rewrite append_cons. simpl. apply all_chars_cons in Hsp as [-> Hsp]. by apply IH.
Qed.

Lemma scan_digits_spec (input : string) :
  exists digits rest,
    input = digits +:+ rest /\ all_chars isdigit digits /\
    (forall c rest', rest = String c rest' -> isdigit c = false) /\
    scan_digits input = digit_values digits.
Proof.
  induction input as [|c input (digits & rest & Heq & Hd & Hrest & Hscan)]; simpl.
  - exists "", "". split_and!; [done|constructor|discriminate|done].
  - destruct (isdigit c) eqn:Hc.
    + exists (String c digits), rest. split_and!.
      * rewrite append_cons. f_equal. exact Heq.
      * by apply all_chars_cons.
      * exact Hrest.
      * unfold digit_values. simpl. by rewrite Hscan.
    + exists "", (String c input). split_and!; [done|constructor| |done].
      by intros c' rest' [= <- _].
Qed.

Lemma scan_digits_app (digits rest : string) :
  all_chars isdigit digits ->
  (forall c rest', rest = String c rest' -> isdigit c = false) ->
  scan_digits (digits +:+ rest) = digit_values digits.
Proof.
  intros Hd Hrest. induction digits as [|c digits IH].
  - rewrite append_empty. destruct rest as [|c rest]; [done|].
    simpl. by rewrite (Hrest c rest).
  - rewrite append_cons. simpl. apply all_chars_cons in Hd as [-> Hd].
    unfold digit_values. simpl. f_equal. by apply IH.
Qed.

Lemma digit_values_nil (digits : string) : digit_values digits = [] -> digits = "".
Proof. by destruct digits. Qed.

Lemma digit_not_space_or_sign (c : ascii) :
  isdigit c = true -> isspace c = false /\ c <> "-"%char /\ c <> "+"%char.
Proof.
  unfold isdigit, isspace. intros Hd%bool_decide_eq_true. split_and!.
  - apply bool_decide_eq_false. lia.
  - intros ->. vm_compute in Hd. destruct Hd as [Hd _]. by apply Hd.
  - intros ->. vm_compute in Hd. destruct Hd as [Hd _]. by apply Hd.
Qed.

Lemma scan_d_text (input : string) (b : Z) :
  scan_d input = (1, Some b) <->
  exists spaces sign digits rest : string,
    input = spaces +:+ sign +:+ digits +:+ rest /\
    all_chars isspace spaces /\
    (sign = "" \/ sign = "+" \/ sign = "-") /\
    digits <> "" /\ all_chars isdigit digits /\
    (forall c rest', rest = String c rest' -> isdigit c = false) /\
    b = clamp_long (if decide (sign = "-") then - decimal (digit_values digits)
                    else decimal (digit_values digits)).
Proof.
  split.
  - unfold scan_d.
    destruct (skip_space_spec input) as (spaces & Heq & Hsp & Hfirst).
    destruct (skip_space input) as [|c r]; [discriminate|].
    destruct (decide (c = "-"%char \/ c = "+"%char)) as [Hsign|Hnosign].
    + destruct (scan_digits_spec r) as (digits & rest & -> & Hd & Hrest & Hscan).
      rewrite Hscan. destruct (digit_values digits) as [|d ds] eqn:Hds; [discriminate|].
      intros [= <-].
      exists spaces, (String c ""), digits, rest. split_and!; try done.
      * destruct Hsign as [-> | ->]; auto.
      * intros ->. discriminate Hds.
      * rewrite Hds. destruct Hsign as [-> | ->]; reflexivity.
    + destruct (scan_digits_spec (String c r)) as (digits & rest & Hcr & Hd & Hrest & Hscan).
      rewrite Hscan. destruct (digit_values digits) as [|d ds] eqn:Hds; [discriminate|].
      intros [= <-].
      exists spaces, "", digits, rest. split_and!; try done.
      * by rewrite append_empty, <- Hcr.
      * auto.
      * intros ->. discriminate Hds.
      * rewrite Hds, bool_decide_false by tauto. reflexivity.
  - intros (spaces & sign & digits & rest & -> & Hsp & Hsign & Hne & Hd & Hrest & ->).
    destruct digits as [|d digits]; [done|]. clear Hne.
    pose proof Hd as [Hd0 _]%all_chars_cons.
    destruct (digit_not_space_or_sign d Hd0) as (Hd1 & Hd2 & Hd3).
    unfold scan_d. rewrite skip_space_app; [|exact Hsp|].
    + destruct Hsign as [-> | [-> | ->]].
      * rewrite append_empty, append_cons.
        rewrite decide_False by tauto.
        rewrite <- append_cons, scan_digits_app by done.
        rewrite bool_decide_false by done. reflexivity.
      * rewrite append_cons, append_empty. rewrite decide_True by auto.
        rewrite scan_digits_app by done. reflexivity.
      * rewrite append_cons, append_empty. rewrite decide_True by auto.
        rewrite scan_digits_app by done. reflexivity.
    + intros c rest'.
      destruct Hsign as [-> | [-> | ->]].
      * rewrite append_empty, append_cons. by intros [= <- _].
      * rewrite append_cons. by intros [= <- _].
      * rewrite append_cons. by intros [= <- _].
Qed.

(** The scanner of the model and the grammar agree. *)
Lemma sscanf_button_text (postdata : string) (b : Z) :
  sscanf_button postdata = (1, Some b) <-> button_text postdata b.
Proof.
  unfold sscanf_button, button_text. split.
  - destruct (scan_literal "button=" postdata) as [input| |] eqn:Hlit; try discriminate.
    apply scan_literal_Matched in Hlit as ->.
    intros (spaces & sign & digits & rest & -> & H)%scan_d_text.
    by exists spaces, sign, digits, rest.
  - intros (spaces & sign & digits & rest & -> & H).
    rewrite (proj2 (scan_literal_Matched "button=" _ _) eq_refl).
    apply scan_d_text. by exists spaces, sign, digits, rest.
Qed.
End ButtonText.

(** ** POST handler *)

Section PostHandler.
Import Controller03 Webserver.

Lemma scan_d_stored (input : string) (ret : Z) (button : Z) :
  scan_d input = (ret, Some button) -> ret = 1.
Proof.
  unfold scan_d. destruct (skip_space input) as [|c rest]; [discriminate|].
  destruct (if decide (c = "-"%char \/ c = "+"%char) then _ else _);
    intros [= <- _]; reflexivity.
Qed.

Lemma sscanf_button_stored (postdata : string) (ret : Z) (button : Z) :
  sscanf_button postdata = (ret, Some button) -> ret = 1.
Proof.
  unfold sscanf_button. destruct (scan_literal _ postdata); try discriminate.
  apply scan_d_stored.
Qed.

Lemma sscanf_button_temp (postdata : string) :
  postdata = "temp=up" \/ postdata = "temp=down" ->
  sscanf_button postdata = (0, None).
Proof. intros [-> | ->]; reflexivity. Qed.

Lemma report_ip_address_frame (now : datetime) (addr : IPV4address)
    (content : string) (st st1 : server_t) :
  report_ip_address now addr content st = Some st1 ->
  button_webpushed st1 = button_webpushed st /\
  effects st1 = effects st ++ [Dprint_request content].
Proof.
  unfold report_ip_address. case_decide; [|discriminate].
  destruct (remember_ip_address now addr (clients st)); [|discriminate].
  intros [= <-]. split; reflexivity.
Qed.
End PostHandler.

Ltac in_effects :=
  rewrite ?elem_of_cons, ?elem_of_nil;
  intuition (try discriminate; try congruence; try (simplify_eq; lia)).

Section Receive.
Import Controller03 Webserver.

Lemma store_bytes_next (s : string) : forall (pre : list ascii) (rest : chars),
  (String.length s <= length rest)%nat ->
  store_bytes ((Some <$> pre) ++ rest) (Z.of_nat (length pre)) s
  = Done ((Some <$> (pre ++ list_ascii_of_string s)) ++ drop (String.length s) rest).
Proof.
  induction s as [|c s IH]; intros pre rest Hlen; simpl in *.
  - by rewrite app_nil_r, drop_0.
  - destruct rest as [|y rest]; [simpl in Hlen; lia|].
    rewrite poke_next. simpl.
    replace (Z.of_nat (length pre) + 1) with (Z.of_nat (length (pre ++ [c])))
      by (rewrite length_app; simpl; lia).
    rewrite IH by (simpl in Hlen; lia).
    by rewrite <- app_assoc.
Qed.

(** What is read of an array that holds [data] and then a terminator. *)
Lemma c_string_bytes (data : string) (rest : chars) :
  c_string ((Some <$> list_ascii_of_string data) ++ Some NUL :: rest) = Done (c_str data).
Proof.
  induction data as [|c data IH]; cbn [list_ascii_of_string fmap list_fmap app c_string c_str].
  - by rewrite decide_True.
  - destruct (decide (c = NUL)); [reflexivity|].
    change (list_fmap ascii (option ascii) Some) with (fmap (M := list) (@Some ascii)).
    by rewrite IH.
Qed.

Lemma length_substring (n : nat) : forall s : string,
  (n <= String.length s)%nat -> String.length (String.substring 0 n s) = n.
Proof.
  induction n as [|n IH]; intros [|c s] Hn; simpl in *; try lia; try reflexivity.
  rewrite IH by lia. reflexivity.
Qed.

(** A receive that returns a count: [postdata] is the C string of the
    bytes received. *)
Lemma receive_postdata_stored (body : string) (datalen : Z) :
  0 <= datalen <= sizeof_postdata - 1 ->
  datalen <= Z.of_nat (String.length body) ->
  receive_postdata body datalen
  = Done (c_str (String.substring 0 (Z.to_nat datalen) body)).
Proof.
  intros Hfit Hbody. unfold receive_postdata, httpd_req_recv, sizeof_postdata in *.
  set (data := String.substring 0 (Z.to_nat datalen) body).
  assert (Hdata : String.length data = Z.to_nat datalen)
    by (apply length_substring; lia).
  pose proof (store_bytes_next data [] (replicate (Z.to_nat 25) None)) as Hstore.
  specialize (Hstore ltac:(rewrite length_replicate; lia)).
  change (store_bytes (replicate (Z.to_nat 25) None) 0 data
          = Done ((Some <$> list_ascii_of_string data)
                    ++ drop (String.length data) (replicate (Z.to_nat 25) None)))
    in Hstore.
  rewrite Hstore.
  cbn [obind].
  assert (Hrest : exists y rest,
    drop (String.length data) (replicate (Z.to_nat 25) (@None ascii)) = y :: rest).
  { destruct (drop (String.length data) (replicate (Z.to_nat 25) (@None ascii)))
      as [|y rest] eqn:Hdrop; [|by eauto].
    apply (f_equal length) in Hdrop. rewrite length_drop, length_replicate in Hdrop.
    simpl in Hdrop. lia. }
  destruct Hrest as (y & rest & ->).
  replace datalen with (Z.of_nat (length (list_ascii_of_string data)))
    by (rewrite length_list_ascii; lia).
  rewrite poke_next. cbn [obind].
  rewrite fmap_app, <- app_assoc. apply c_string_bytes.
Qed.

(** A receive that returns an error: the terminator is stored before the
    array. *)
Lemma receive_postdata_error (body : string) (datalen : Z) :
  datalen < 0 -> receive_postdata body datalen = Fault Write_outside.
Proof.
  intros Hneg. unfold receive_postdata, httpd_req_recv.
  replace (Z.to_nat datalen) with 0%nat by lia.
  assert (Hnone : String.substring 0 0 body = "") by (by destruct body).
  rewrite Hnone. cbn [store_bytes obind]. unfold poke, store.
  by rewrite decide_False by lia.
Qed.
End Receive.

(** The cases of the handler, by what [sscanf] and [strcmp] answer on
    [postdata]. *)
Lemma button_POST_handler_scanned (now : Controller03.datetime)
    (addr : Webserver.IPV4address) (body : string) (datalen : Z) (postdata : string)
    (st : Webserver.server_t) :
  Webserver.receive_postdata body datalen = Webserver.Done postdata ->
  let pushes b := Webserver.sscanf_button postdata = (1, Some b) /\ 0 <= b <= 7 in
  match Webserver.report_ip_address now addr postdata st with
  | None => Webserver.button_POST_handler now addr body datalen st = None
  | Some st1 =>
      exists st' new,
        Webserver.button_POST_handler now addr body datalen st = Some st' /\
        Webserver.effects st' =
          Webserver.effects st ++ Webserver.Dprint_request postdata :: new /\
        Webserver.clients st' = Webserver.clients st1 /\
        Webserver.client_requests st' = Webserver.client_requests st1 /\
        (forall b, Webserver.Store_button_webpushed b ∈ new <-> pushes b) /\
        (forall b, pushes b ->
           Webserver.button_webpushed st' =
             <[Z.to_nat b := true]> (Webserver.button_webpushed st)) /\
        (forall d, Webserver.Call_temp_change d ∈ new <->
           (d = 1 /\ postdata = "temp=up") \/ (d = -1 /\ postdata = "temp=down")) /\
        ((forall b, ~ pushes b) ->
           Webserver.button_webpushed st' = Webserver.button_webpushed st) /\
        ((forall b, ~ pushes b) -> postdata <> "temp=up" -> postdata <> "temp=down" ->
           new = [Webserver.Dprint_unexpected datalen postdata;
                  Webserver.Call_delay 500; Webserver.Send_home_page])
  end.
Proof.
  intros Hrecv pushes. unfold Webserver.button_POST_handler. rewrite Hrecv.
  cbn [Webserver.defined mbind option_bind].
  destruct (Webserver.report_ip_address now addr postdata st) as [st1|] eqn:Hreport;
    [|reflexivity].
  apply report_ip_address_frame in Hreport as [Hbuttons Heffects].
  cbn [mbind option_bind].
  destruct (Webserver.sscanf_button postdata) as [ret [b|]] eqn:Hscan.
  - pose proof (sscanf_button_stored _ _ _ Hscan) as ->.
    destruct (decide (1 = 1 /\ b >= 0 /\ b <= 7)) as [(_ & Hlo & Hhi)|Hout].
    + assert (Hnot_temp : postdata <> "temp=up" /\ postdata <> "temp=down").
      { split; intros Heq; rewrite sscanf_button_temp in Hscan by auto; discriminate. }
      eexists _, [Webserver.Dprint_button b; Webserver.Store_button_webpushed b;
                  Webserver.Call_delay 500; Webserver.Send_home_page].
      split; [reflexivity|]. cbn. rewrite Heffects, Hbuttons, <- !app_assoc.
      split; [reflexivity|]. split; [reflexivity|]. split; [reflexivity|].
      unfold pushes. split_and!.
      * intros b'. in_effects.
      * intros b' [[= <-] _]. reflexivity.
      * intros d. in_effects.
      * intros Hnone. exfalso. apply (Hnone b). split; [reflexivity|lia].
      * intros Hnone. exfalso. apply (Hnone b). split; [reflexivity|lia].
    + assert (Hnone : forall b', ~ pushes b').
      { intros b' [[= <-] Hb']. apply Hout. split; [reflexivity|lia]. }
      destruct (decide (postdata = "temp=up")) as [Hup|Hup];
        [|destruct (decide (postdata = "temp=down")) as [Hdown|Hdown]].
      * rewrite sscanf_button_temp in Hscan by auto. discriminate.
      * rewrite sscanf_button_temp in Hscan by auto. discriminate.
      * eexists _, [Webserver.Dprint_unexpected _ postdata;
                    Webserver.Call_delay 500; Webserver.Send_home_page].
        split; [reflexivity|]. cbn. rewrite Heffects, Hbuttons, <- !app_assoc.
        split; [reflexivity|]. split; [reflexivity|]. split; [reflexivity|].
        split_and!; try done.
        -- intros b'. split; [in_effects|]. intros Hb'. by apply Hnone in Hb'.
        -- intros b' Hb'. by apply Hnone in Hb'.
        -- intros d. in_effects.
  - assert (Hnone : forall b', ~ pushes b') by (intros b' [[=] _]).
    destruct (decide (postdata = "temp=up")) as [Hup|Hup];
      [|destruct (decide (postdata = "temp=down")) as [Hdown|Hdown]].
    + eexists _, [Webserver.Dprint_temp_up; Webserver.Call_temp_change 1;
                  Webserver.Call_delay 500; Webserver.Send_home_page].
      split; [reflexivity|]. cbn. rewrite Heffects, Hbuttons, <- !app_assoc.
      split; [reflexivity|]. split; [reflexivity|]. split; [reflexivity|].
      split_and!; try done.
      * intros b'. split; [in_effects|]. intros Hb'. by apply Hnone in Hb'.
      * intros b' Hb'. by apply Hnone in Hb'.
      * intros d. rewrite Hup. in_effects.
    + eexists _, [Webserver.Dprint_temp_down; Webserver.Call_temp_change (-1);
                  Webserver.Call_delay 500; Webserver.Send_home_page].
      split; [reflexivity|]. cbn. rewrite Heffects, Hbuttons, <- !app_assoc.
      split; [reflexivity|]. split; [reflexivity|]. split; [reflexivity|].
      split_and!; try done.
      * intros b'. split; [in_effects|]. intros Hb'. by apply Hnone in Hb'.
      * intros b' Hb'. by apply Hnone in Hb'.
      * intros d. rewrite Hdown. in_effects.
    + eexists _, [Webserver.Dprint_unexpected _ postdata;
                  Webserver.Call_delay 500; Webserver.Send_home_page].
      split; [reflexivity|]. cbn. rewrite Heffects, Hbuttons, <- !app_assoc.
      split; [reflexivity|]. split; [reflexivity|]. split; [reflexivity|].
      split_and!; try done.
      * intros b'. split; [in_effects|]. intros Hb'. by apply Hnone in Hb'.
      * intros b' Hb'. by apply Hnone in Hb'.
      * intros d. in_effects.
Qed.

(** C8, as the code has it.  The handler looks at [postdata], the C string
    of the bytes that [httpd_req_recv] has stored: the first [datalen] bytes
    of the body, where [datalen], what the call returns, is at most 24 and
    at most the length of the body.  When the call returns an error, a
    negative [datalen], the handler stores the terminator outside
    [postdata]: its behaviour is undefined.  Otherwise, whenever the
    request is recorded, the handler returns, and after the log line of the
    request: it stores [true] in [button_webpushed[b]] if and only if
    [postdata] reads "button=", white space or none, a sign or none and
    decimal digits that denote [b], with [0 <= b <= 7], and the array
    changes only there; it calls [temp_change(1)] exactly when [postdata] is
    "temp=up" and [temp_change(-1)] exactly when it is "temp=down", and
    makes no other call of [temp_change]; for any other [postdata] the
    array is unchanged and the handler only logs the unexpected bytes before
    it waits and sends the home page.  The visitor table and the request
    counter are those of [report_ip_address]. *)
Theorem button_POST_handler_cases (now : Controller03.datetime)
    (addr : Webserver.IPV4address) (body : string) (datalen : Z)
    (st : Webserver.server_t) :
  datalen <= Z.of_nat (String.length body) ->
  datalen <= Webserver.sizeof_postdata - 1 ->
  (datalen < 0 -> Webserver.button_POST_handler now addr body datalen st = None) /\
  (0 <= datalen ->
   let postdata := Webserver.c_str (String.substring 0 (Z.to_nat datalen) body) in
   let pushes b := Webserver.button_text postdata b /\ 0 <= b <= 7 in
   match Webserver.report_ip_address now addr postdata st with
   | None => Webserver.button_POST_handler now addr body datalen st = None
   | Some st1 =>
       exists st' new,
         Webserver.button_POST_handler now addr body datalen st = Some st' /\
         Webserver.effects st' =
           Webserver.effects st ++ Webserver.Dprint_request postdata :: new /\
         Webserver.clients st' = Webserver.clients st1 /\
         Webserver.client_requests st' = Webserver.client_requests st1 /\
         (forall b, Webserver.Store_button_webpushed b ∈ new <-> pushes b) /\
         (forall b, pushes b ->
            Webserver.button_webpushed st' =
              <[Z.to_nat b := true]> (Webserver.button_webpushed st)) /\
         (forall d, Webserver.Call_temp_change d ∈ new <->
            (d = 1 /\ postdata = "temp=up") \/ (d = -1 /\ postdata = "temp=down")) /\
         ((forall b, ~ pushes b) ->
            Webserver.button_webpushed st' = Webserver.button_webpushed st) /\
         ((forall b, ~ pushes b) -> postdata <> "temp=up" -> postdata <> "temp=down" ->
            new = [Webserver.Dprint_unexpected datalen postdata;
                   Webserver.Call_delay 500; Webserver.Send_home_page])
   end).
Proof.
  intros Hbody Hfit. split.
  - intros Hneg. unfold Webserver.button_POST_handler.
    by rewrite receive_postdata_error.
  - intros Hpos postdata pushes.
    pose proof (button_POST_handler_scanned now addr body datalen postdata st) as Hcases.
    cbv zeta in Hcases. specialize (Hcases ltac:(by apply receive_postdata_stored)).
    destruct (Webserver.report_ip_address now addr postdata st) as [st1|]; [|exact Hcases].
    destruct Hcases as (st' & new & Hrun & Heff & Hcl & Hreq & Hstore & Hset & Htemp
                        & Hframe & Hother).
    assert (Hpushes : forall b,
      pushes b <-> Webserver.sscanf_button postdata = (1, Some b) /\ 0 <= b <= 7).
    { intros b. unfold pushes. by rewrite sscanf_button_text. }
    exists st', new. split_and!; try done.
    + intros b. by rewrite Hstore, Hpushes.
    + intros b Hb. by apply Hset, Hpushes.
    + intros Hnone. apply Hframe. intros b Hb. by apply (Hnone b), Hpushes.
    + intros Hnone. apply Hother. intros b Hb. by apply (Hnone b), Hpushes.
Qed.

(** The body "button=7", received whole. *)
Lemma button_POST_handler_cases_button_7 :
  let body := "button=7" in
  let datalen := 8 in
  let now := Webserver.zero_datetime in
  let addr := 0x0100A8C0 in
  let st := Webserver.server_init in
  (datalen < 0 -> Webserver.button_POST_handler now addr body datalen st = None) /\
  (0 <= datalen ->
   let postdata := Webserver.c_str (String.substring 0 (Z.to_nat datalen) body) in
   let pushes b := Webserver.button_text postdata b /\ 0 <= b <= 7 in
   match Webserver.report_ip_address now addr postdata st with
   | None => Webserver.button_POST_handler now addr body datalen st = None
   | Some st1 =>
       exists st' new,
         Webserver.button_POST_handler now addr body datalen st = Some st' /\
         Webserver.effects st' =
           Webserver.effects st ++ Webserver.Dprint_request postdata :: new /\
         Webserver.clients st' = Webserver.clients st1 /\
         Webserver.client_requests st' = Webserver.client_requests st1 /\
         (forall b, Webserver.Store_button_webpushed b ∈ new <-> pushes b) /\
         (forall b, pushes b ->
            Webserver.button_webpushed st' =
              <[Z.to_nat b := true]> (Webserver.button_webpushed st)) /\
         (forall d, Webserver.Call_temp_change d ∈ new <->
            (d = 1 /\ postdata = "temp=up") \/ (d = -1 /\ postdata = "temp=down")) /\
         ((forall b, ~ pushes b) ->
            Webserver.button_webpushed st' = Webserver.button_webpushed st) /\
         ((forall b, ~ pushes b) -> postdata <> "temp=up" -> postdata <> "temp=down" ->
            new = [Webserver.Dprint_unexpected datalen postdata;
                   Webserver.Call_delay 500; Webserver.Send_home_page])
   end).
Proof.
  intros body datalen now addr st.
  apply (button_POST_handler_cases now addr body datalen st).
  - vm_compute. discriminate.
  - vm_compute. discriminate.
Defined.

(** A body longer than the 24 bytes the handler asks for: as a whole it reads
    button 399, which is out of range, yet the handler, which receives
    "button=00000000000000003", pushes button 3. *)
Lemma button_POST_handler_long_body :
  let body := "button=0000000000000000399" in
  Webserver.button_text body 399 /\
  Webserver.button_webpushed Webserver.server_init
    = [false; false; false; false; false; false; false; false] /\
  (st ← Webserver.button_POST_handler Webserver.zero_datetime 0 body
          (Webserver.sizeof_postdata - 1) Webserver.server_init;
   Some (Webserver.button_webpushed st))
    = Some [false; false; false; true; false; false; false; false].
Proof.
  split; [|split].
  - apply sscanf_button_text. vm_compute. reflexivity.
  - reflexivity.
  - vm_compute. reflexivity.
Qed.

(** ** Debounce *)

Section DebounceFacts.
Import Controller03 Core.
Variable delay : Z.

Lemma edges_cons (e : bool) (flags : list bool) :
  edges (e :: flags) = ((if e then 1 else 0) + edges flags)%nat.
Proof. unfold edges. destruct e; reflexivity. Qed.

(** No edge once the line has settled after the window. *)
Lemma debounce_run_settled (lo hi : Z) (samples : list (Z * bool)) :
  forall (s : debounce_t) (t0 : Z),
  debounced s = raw_level s -> hi <= t0 ->
  increasing t0 samples -> transitions_within lo hi (raw_level s) samples ->
  edges (debounce_run delay samples s).2 = 0%nat.
Proof.
  induction samples as [|[now raw] samples IH]; intros s t0 Hs Ht0 Hinc Htr; [reflexivity|].
  destruct Hinc as [Hnow Hinc]. destruct Htr as [Hraw Htr].
  cbn [debounce_run]. unfold debounce_sample.
  destruct (decide (raw <> raw_level s)) as [Hne|Heq]; [specialize (Hraw Hne); lia|].
  apply dec_stable in Heq as ->.
  rewrite decide_False by (intros [_ Hd]; congruence).
  cbn [fst snd]. rewrite edges_cons.
  apply (IH s now); [exact Hs|lia|exact Hinc|exact Htr].
Qed.

(** At most one edge once the raw level has started to change. *)
Lemma debounce_run_bouncing (lo hi : Z) (samples : list (Z * bool)) :
  hi <= lo + delay ->
  forall (s : debounce_t) (t0 : Z),
  lo <= raw_since s ->
  increasing t0 samples -> transitions_within lo hi (raw_level s) samples ->
  (edges (debounce_run delay samples s).2 <= 1)%nat.
Proof.
  intros Hwin.
  induction samples as [|[now raw] samples IH]; intros s t0 Hs Hinc Htr; [unfold edges; simpl; lia|].
  destruct Hinc as [Hnow Hinc]. destruct Htr as [Hraw Htr].
  cbn [debounce_run]. unfold debounce_sample.
  destruct (decide (raw <> raw_level s)) as [Hne|Heq].
  - specialize (Hraw Hne). cbn [fst snd]. rewrite edges_cons.
    apply (IH _ now); [simpl; lia|exact Hinc|exact Htr].
  - apply dec_stable in Heq as ->.
    destruct (decide (delay <= now - raw_since s /\ raw_level s <> debounced s))
      as [[Hd Hdiff]|Hno]; cbn [fst snd]; rewrite edges_cons.
    + rewrite (debounce_run_settled lo hi samples _ now); [lia|reflexivity|lia|exact Hinc|exact Htr].
    + apply (IH s now); [exact Hs|exact Hinc|exact Htr].
Qed.

(** At most one edge from a settled line when the transitions of the raw
    level fit in a window no longer than the delay. *)
Lemma debounce_run_burst (lo hi : Z) (samples : list (Z * bool)) :
  hi <= lo + delay ->
  forall (s : debounce_t) (t0 : Z),
  debounced s = raw_level s ->
  increasing t0 samples -> transitions_within lo hi (raw_level s) samples ->
  (edges (debounce_run delay samples s).2 <= 1)%nat.
Proof.
  intros Hwin.
  induction samples as [|[now raw] samples IH]; intros s t0 Hs Hinc Htr; [unfold edges; simpl; lia|].
  pose proof Hinc as [Hnow Hinc']. pose proof Htr as [Hraw Htr'].
  destruct (decide (raw <> raw_level s)) as [Hne|Heq].
  - specialize (Hraw Hne).
    cbn [debounce_run]. unfold debounce_sample. rewrite decide_True by exact Hne.
    cbn [fst snd]. rewrite edges_cons.
    apply (debounce_run_bouncing lo hi samples Hwin _ now); [simpl; lia|exact Hinc'|exact Htr'].
  - apply dec_stable in Heq as ->.
    cbn [debounce_run]. unfold debounce_sample.
    rewrite decide_False by (intros H; by apply H).
    rewrite decide_False by (intros [_ Hd]; congruence).
    cbn [fst snd]. rewrite edges_cons.
    apply (IH s now); [exact Hs|exact Hinc'|exact Htr'].
Qed.

(** An edge comes after the raw level has held, from an earlier sample on,
    for the whole delay. *)
Lemma debounce_run_stable (samples : list (Z * bool)) :
  forall (h : list (Z * bool)) (s : debounce_t) (t0 : Z),
  (forall t r, (t, r) ∈ h -> t <= t0) ->
  (forall t r, (t, r) ∈ h -> raw_since s <= t -> r = raw_level s) ->
  (debounced s <> raw_level s -> (raw_since s, raw_level s) ∈ h) ->
  increasing t0 samples ->
  forall before now raw after,
  samples = before ++ (now, raw) :: after ->
  (debounce_run delay samples s).2 !! length before = Some true ->
  exists since,
    since + delay <= now /\ (since, raw) ∈ h ++ before /\
    forall t r, (t, r) ∈ h ++ before -> since <= t -> r = raw.
Proof.
  induction samples as [|[now1 raw1] samples IH];
    intros h s t0 Hpast Hheld Hsince Hinc before now raw after Hsplit Hedge.
  { by destruct before. }
  destruct Hinc as [Hnow1 Hinc].
  destruct before as [|[now0 raw0] before].
  - injection Hsplit as -> -> _. cbn in Hedge. unfold debounce_sample in Hedge.
    destruct (decide (raw <> raw_level s)) as [Hne|Heq]; [discriminate|].
    apply dec_stable in Heq as ->.
    destruct (decide (delay <= now - raw_since s /\ raw_level s <> debounced s))
      as [[Hd Hdiff]|Hno]; [|discriminate].
    exists (raw_since s). rewrite app_nil_r. split; [lia|]. split; [by apply Hsince|exact Hheld].
  - injection Hsplit as <- <- ->. cbn in Hedge.
    destruct (IH (h ++ [(now1, raw1)]) (debounce_sample delay now1 raw1 s).1 now1)
      with (before := before) (now := now) (raw := raw) (after := after)
      as (since & Hd & Hin & Hall); try done.
    + intros t r [Hin|[= -> ->]%list_elem_of_singleton]%elem_of_app; [|lia].
      specialize (Hpast t r Hin). lia.
    + intros t r Hin Ht. unfold debounce_sample in *.
      destruct (decide (raw1 <> raw_level s)) as [Hne|Heq]; cbn in *.
      * apply elem_of_app in Hin as [Hin|[= -> ->]%list_elem_of_singleton]; [|reflexivity].
        specialize (Hpast t r Hin). lia.
      * apply dec_stable in Heq as ->.
        destruct (decide (delay <= now1 - raw_since s /\ raw_level s <> debounced s)); cbn in *;
          (apply elem_of_app in Hin as [Hin|[= -> ->]%list_elem_of_singleton];
           [by apply (Hheld t r)|reflexivity]).
    + intros Hdiff. unfold debounce_sample in *.
      destruct (decide (raw1 <> raw_level s)) as [Hne|Heq]; cbn in *.
      * apply elem_of_app. right. by apply list_elem_of_singleton.
      * apply dec_stable in Heq as ->.
        destruct (decide (delay <= now1 - raw_since s /\ raw_level s <> debounced s)); cbn in *;
          [done|]. apply elem_of_app. left. by apply Hsince.
    + exists since. rewrite <- app_assoc in Hin, Hall. done.
Qed.

(** The polls of the 8 lines, seen from one line. *)
Lemma poll_run_line (b : button) (samples : list (Z * Z)) :
  forall st : button -> debounce_t,
  edges_of b (poll_run delay samples st).2
  = (debounce_run delay (line b samples) (st b)).2.
Proof.
  induction samples as [|[now sample] samples IH]; intros st; [reflexivity|].
  unfold edges_of, line in *.
  cbn [poll_run debounce_run fmap list_fmap poll fst snd]. f_equal.
  - destruct (debounce_sample delay now (pressed b sample) (st b)).2 eqn:He.
    + apply bool_decide_eq_true. apply list_elem_of_filter. split; [exact He|].
      exact (elem_of_enum b).
    + apply bool_decide_eq_false. rewrite list_elem_of_filter. intros [Hb _]. congruence.
  - apply (IH (fun b => (debounce_sample delay now (pressed b sample) (st b)).1)).
Qed.
End DebounceFacts.

(** C4.  With the 50 ms of [DEBOUNCE_DELAY], polls at increasing times and
    all 8 lines released and settled at the start, for every button line:
    the debounced level changes exactly at the polls that report an edge;
    a poll at time [now] reports an edge only if the raw level of the line
    has been the one of that poll at every sample since some earlier sample
    taken at least 50 ms before [now]; and when all the changes of the raw
    level fall in one window of 50 ms, the whole run has at most one edge. *)
Theorem debounce_window (b : Controller03.button) (samples : list (Z * Z)) (t0 : Z) :
  Core.increasing t0 samples ->
  let delay := ceval 32 Controller03.DEBOUNCE_DELAY in
  let polls := (Core.poll_run delay samples (fun _ => Core.debounce_init)).2 in
  delay = 50 /\
  (forall now raw s,
     Core.debounced (Core.debounce_sample delay now raw s).1 <> Core.debounced s <->
     (Core.debounce_sample delay now raw s).2 = true) /\
  (forall before now sample after es,
     samples = before ++ (now, sample) :: after ->
     polls !! length before = Some es -> b ∈ es ->
     exists since s0,
       since + delay <= now /\ (since, s0) ∈ before /\
       forall t s, (t, s) ∈ before -> since <= t ->
                   Core.pressed b s = Core.pressed b sample) /\
  (forall lo,
     Core.transitions_within lo (lo + delay) false (Core.line b samples) ->
     (Core.edges (Core.edges_of b polls) <= 1)%nat).
Proof.
  intros Hinc delay polls.
  assert (Hdelay : delay = 50) by reflexivity. clearbody delay.
  assert (Hline : Core.increasing t0 (Core.line b samples)).
  { clear polls. revert t0 Hinc. induction samples as [|[t s] samples IH]; intros t0 Hinc.
    - exact I.
    - destruct Hinc as [Ht Hinc]. split; [exact Ht|]. by apply IH. }
  split; [exact Hdelay|]. split; [|split].
  - intros now raw s. unfold Core.debounce_sample.
    destruct (decide (raw <> Core.raw_level s)) as [Hne|Heq]; cbn;
      [split; [intros H; by contradict H|discriminate]|].
    destruct (decide (delay <= now - Core.raw_since s /\ raw <> Core.debounced s))
      as [[_ Hd]|Hno]; cbn; [done|].
    split; [intros H; by contradict H|discriminate].
  - intros before now sample after es Hsplit Hes Hb.
    destruct (debounce_run_stable delay (Core.line b samples) [] Core.debounce_init t0)
      with (before := Core.line b before) (now := now) (raw := Core.pressed b sample)
           (after := Core.line b after) as (since & Hd & Hin & Hall).
    + intros t r Hin. by apply elem_of_nil in Hin.
    + intros t r Hin. by apply elem_of_nil in Hin.
    + intros Hdiff. by exfalso.
    + exact Hline.
    + rewrite Hsplit. unfold Core.line. by rewrite fmap_app.
    + rewrite <- (poll_run_line delay b samples (fun _ => Core.debounce_init)). fold polls. unfold Core.edges_of, Core.line.
      rewrite list_lookup_fmap, length_fmap, Hes. cbn. by rewrite bool_decide_true.
    + cbn in Hin, Hall. apply list_elem_of_fmap in Hin as ([t s0] & [= -> Hs0] & Hin).
      exists t, s0. split; [exact Hd|]. split; [exact Hin|].
      intros t' s' Hin' Ht'. apply (Hall t' (Core.pressed b s')); [|exact Ht'].
      apply list_elem_of_fmap. by exists (t', s').
  - intros lo Htr. unfold polls.
    rewrite (poll_run_line delay b samples (fun _ => Core.debounce_init)).
    apply (debounce_run_burst delay lo (lo + delay) _ ltac:(lia) Core.debounce_init t0);
      [reflexivity|exact Hline|exact Htr].
Qed.

(** A press that bounces at 10, 20 and 30 ms and is then held. *)
Lemma debounce_window_bouncing_press :
  let b := Controller03.SPA_JETS_BUTTON in
  let samples := [(0, 0); (10, 0x04); (20, 0); (30, 0x04); (60, 0x04); (90, 0x04); (120, 0x04)] in
  let delay := ceval 32 Controller03.DEBOUNCE_DELAY in
  let polls := (Core.poll_run delay samples (fun _ => Core.debounce_init)).2 in
  delay = 50 /\
  (forall now raw s,
     Core.debounced (Core.debounce_sample delay now raw s).1 <> Core.debounced s <->
     (Core.debounce_sample delay now raw s).2 = true) /\
  (forall before now sample after es,
     samples = before ++ (now, sample) :: after ->
     polls !! length before = Some es -> b ∈ es ->
     exists since s0,
       since + delay <= now /\ (since, s0) ∈ before /\
       forall t s, (t, s) ∈ before -> since <= t ->
                   Core.pressed b s = Core.pressed b sample) /\
  (forall lo,
     Core.transitions_within lo (lo + delay) false (Core.line b samples) ->
     (Core.edges (Core.edges_of b polls) <= 1)%nat).
Proof.
  intros b samples. apply (debounce_window b samples (-1)). simpl. lia.
Defined.

(** ** What the visitor table records *)

Section ExactVisits.
Import Controller03 Webserver.
Variable compare_datetime : datetime -> datetime -> Z.

(** What requests and sorts keep of a table that never had to give up an
    entry: the slots are those of [visitor_table], a slot never used is
    still zeroed, a slot in use records the requests of its address, and
    every address that made a request has a slot in use. *)
Let unused_zero (c : client_t) : Prop := count c = 0 -> recent_time c = zero_datetime.
Let used_set (c : client_t) : Prop :=
  count c <> 0 -> ~ compare_datetime (recent_time c) zero_datetime < 0.
Let slot_ok (seen : list request_t) (c : client_t) : Prop :=
  (count c = 0 -> c = zero_client) /\ (count c <> 0 -> records seen c).
Let exact (seen : list request_t) (t : list client_t) : Prop :=
  (visitor_table (Z.of_nat (length seen)) t /\ Forall unused_zero t /\ Forall used_set t) /\
  Forall (slot_ok seen) t /\
  (forall r, r ∈ seen -> exists c, c ∈ t /\ ip_address c = request_addr r /\ count c <> 0).

Lemma requests_of_snoc (addr : IPV4address) (seen : list request_t) (r : request_t) :
  requests_of addr (seen ++ [r])
  = requests_of addr seen ++ (if decide (request_addr r = addr) then [r] else []).
Proof.
  unfold requests_of. rewrite filter_app. f_equal.
Qed.

Lemma requests_of_nil (addr : IPV4address) (seen : list request_t) :
  requests_of addr seen = [] <-> forall r, r ∈ seen -> request_addr r <> addr.
Proof.
  unfold requests_of. split.
  - intros Hnil r Hr Haddr.
    assert (r ∈ filter (fun r => request_addr r = addr) seen) as Hin
      by (by apply list_elem_of_filter).
    rewrite Hnil in Hin. by apply elem_of_nil in Hin.
  - intros Hall. induction seen as [|r seen IH]; [reflexivity|].
    rewrite filter_cons. destruct (decide (request_addr r = addr)) as [Hr|Hr].
    + exfalso. apply (Hall r); [by left|exact Hr].
    + apply IH. intros r' Hr'. apply Hall. by right.
Qed.

(** A slot of another address records the same after a request. *)
Lemma records_other (seen : list request_t) (r : request_t) (c : client_t) :
  request_addr r <> ip_address c -> records seen c -> records (seen ++ [r]) c.
Proof.
  intros Hr. unfold records. rewrite requests_of_snoc.
  destruct (decide (request_addr r = ip_address c)); [contradiction|].
  by rewrite app_nil_r.
Qed.

(** A slot in use that is seen again records one more request. *)
Lemma records_seen_again (seen : list request_t) (r : request_t) (c : client_t) :
  request_addr r = ip_address c -> count c <> 0 -> records seen c ->
  records (seen ++ [r]) (seen_again (request_now r) c).
Proof.
  intros Hr Hnz (Hcount & Hlast & Hfirst & Hpw). unfold records. cbn [ip_address seen_again
    count recent_time first_time gave_password]. rewrite requests_of_snoc.
  destruct (decide (request_addr r = ip_address c)); [|contradiction].
  rewrite fmap_app. cbn [fmap list_fmap].
  split_and!.
  - rewrite length_app, Hcount. simpl. lia.
  - by rewrite last_snoc.
  - destruct (decide (ip_address c = 0)); [exact Hfirst|].
    destruct (request_now <$> requests_of (ip_address c) seen) as [|x l]; [|exact Hfirst].
    simpl in Hcount. contradiction.
  - exact Hpw.
Qed.

(** Slots in use with different addresses: their addresses have no
    duplicates. *)
Lemma earlier_wins_NoDup (t : list client_t) :
  earlier_wins t -> Forall (fun c => count c <> 0) t -> NoDup (ip_address <$> t).
Proof.
  induction t as [|c t IH]; intros Hwins Hocc; [constructor|].
  destruct Hwins as [Hc Hwins]. apply Forall_cons in Hocc as [_ Hocc].
  cbn [fmap list_fmap]. constructor; [|by apply IH].
  intros (c' & Hip & Hc')%list_elem_of_fmap.
  rewrite Forall_forall in Hc, Hocc. apply (Hocc c' Hc'). by apply Hc.
Qed.

(** A slot in use records at least one request of its address. *)
Lemma records_visitor (seen : list request_t) (c : client_t) :
  count c <> 0 -> records seen c -> exists r, r ∈ seen /\ request_addr r = ip_address c.
Proof.
  intros Hnz (Hcount & _). rewrite length_fmap in Hcount.
  destruct (requests_of (ip_address c) seen) as [|r l] eqn:Hmine;
    [simpl in Hcount; contradiction|].
  assert (Hin : r ∈ requests_of (ip_address c) seen) by (rewrite Hmine; by left).
  apply list_elem_of_filter in Hin as [Hr Hin]. by exists r.
Qed.

(** The first request of an address makes its record. *)
Lemma records_first (seen : list request_t) (r : request_t) (c : client_t) :
  request_addr r = ip_address c -> requests_of (ip_address c) seen = [] ->
  count c = 1 -> recent_time c = request_now r ->
  (if decide (ip_address c = 0) then first_time c = zero_datetime
   else first_time c = request_now r) ->
  gave_password c = false ->
  records (seen ++ [r]) c.
Proof.
  intros Hr Hnone Hcount Hrecent Hfirst Hpw. unfold records.
  rewrite requests_of_snoc, Hnone.
  destruct (decide (request_addr r = ip_address c)); [|contradiction].
  cbn [app fmap list_fmap length last head]. split_and!; [lia|congruence| |exact Hpw].
  destruct (decide (ip_address c = 0)); congruence.
Qed.

Lemma exact_remember (seen rest : list request_t) (t : list client_t) (r : request_t) :
  exact seen t ->
  Z.of_nat (length seen) < INT_MAX ->
  ~ compare_datetime (request_now r) zero_datetime < 0 ->
  (length (visitors (seen ++ r :: rest)) <= Z.to_nat MAX_IP_ADDRESSES)%nat ->
  exists t' k,
    remember_ip_address (request_now r) (request_addr r) t = Some (t', k) /\
    exact (seen ++ [r]) t'.
Proof.
  intros (Hkept & Hslots & Hseen) Hn Hnow Hfew.
  destruct (well_kept_remember compare_datetime _ t (request_now r) (request_addr r)
              Hkept Hn Hnow) as (t' & k & Hr & Hkept').
  exists t', k. split; [exact Hr|].
  split; [by rewrite length_app, Nat2Z.inj_add|].
  destruct Hkept as (Ht & _ & _).
  destruct (remember_ip_address_step _ t (request_now r) (request_addr r) Ht Hn)
    as (t1 & k1 & Hr1 & Hcase).
  rewrite Hr in Hr1. injection Hr1 as -> ->.
  pose proof Ht as (Hlen & Hdist & Hcount).
  rewrite Forall_lookup in Hslots.
  destruct Hcase as [(c & Hk & Hc & -> & Hfirst)|(Hips & -> & c & Hk & Hcase)].
  - (* the address is found in slot [k1] *)
    assert (Hc0 : 0 <= count c).
    { rewrite Forall_forall in Hcount. apply (Hcount c). by eapply list_elem_of_lookup_2. }
    assert (Hothers : forall (j : nat) cj, j <> k1 -> t !! j = Some cj -> count cj <> 0 ->
                                           request_addr r <> ip_address cj).
    { intros j cj Hj Hcj Hnz Hip.
      destruct (Nat.lt_trichotomy j k1) as [Hlt|[Heq|Hgt]]; [|done|].
      - by apply (Hfirst j cj).
      - apply Hnz. apply (Hdist k1 j c cj); [done|done|lia|congruence]. }
    assert (Hnew : slot_ok (seen ++ [r]) (seen_again (request_now r) c)).
    { split; [simpl; lia|]. intros _.
      destruct (decide (count c = 0)) as [Hz|Hnz].
      - destruct (Hslots k1 c Hk) as [Hzero _]. specialize (Hzero Hz). subst c.
        apply records_first; try reflexivity; [symmetry; exact Hc|].
        apply requests_of_nil. intros r0 Hr0 Haddr.
          destruct (Hseen r0 Hr0) as (c0 & [j Hj]%list_elem_of_lookup_1 & Hip0 & Hnz0).
          apply (Hothers j c0); [|done|done|].
          * intros ->. rewrite Hk in Hj. injection Hj as <-. by apply Hnz0.
          * rewrite Hip0, Haddr. simpl. by rewrite <- Hc.
      - destruct (Hslots k1 c Hk) as [_ Hrec].
        apply records_seen_again; [done|done|by apply Hrec]. }
    split.
    + apply Forall_lookup. intros j cj Hj.
      apply list_lookup_insert_Some in Hj as [(-> & <- & _)|[Hne Hj]]; [exact Hnew|].
      destruct (Hslots j cj Hj) as [Hzero Hrec]. split; [exact Hzero|].
      intros Hnz. apply records_other; [|by apply Hrec]. by apply (Hothers j).
    + intros r' [Hr'|Hr'%list_elem_of_singleton]%elem_of_app; [|subst r'].
      * destruct (Hseen r' Hr') as (c0 & [j Hj]%list_elem_of_lookup_1 & Hip0 & Hnz0).
        destruct (decide (j = k1)) as [->|Hne].
        -- rewrite Hk in Hj. injection Hj as <-.
           exists (seen_again (request_now r) c). split_and!; [|exact Hip0|simpl; lia].
           eapply list_elem_of_lookup_2. apply list_lookup_insert_eq. by eapply lookup_lt_Some.
        -- exists c0. split_and!; [|done|done].
           eapply list_elem_of_lookup_2. by rewrite list_lookup_insert_ne.
      * exists (seen_again (request_now r) c). split_and!; [|exact Hc|simpl; lia].
        eapply list_elem_of_lookup_2. apply list_lookup_insert_eq. by eapply lookup_lt_Some.
  - (* no slot holds the address *)
    rewrite Forall_forall in Hips.
    assert (Hnone : requests_of (request_addr r) seen = []).
    { apply requests_of_nil. intros r0 Hr0 Haddr.
      destruct (Hseen r0 Hr0) as (c0 & Hc0 & Hip0 & _). apply (Hips c0 Hc0). congruence. }
    destruct Hcase as [Hz|[Hfull _]].
    + destruct (Hslots k1 c Hk) as [Hzero _]. specialize (Hzero Hz). subst c.
      assert (Haddr : request_addr r <> 0).
      { intros Haddr. apply (Hips zero_client); [by eapply list_elem_of_lookup_2|by rewrite Haddr]. }
      split.
      * apply Forall_lookup. intros j cj Hj.
        apply list_lookup_insert_Some in Hj as [(-> & <- & _)|[Hne Hj]].
        -- split; [simpl; lia|]. intros _.
           apply records_first; try reflexivity; [exact Hnone|].
           cbn [ip_address new_entry first_time].
           destruct (decide (request_addr r = 0)); [contradiction|reflexivity].
        -- destruct (Hslots j cj Hj) as [Hzero Hrec]. split; [exact Hzero|].
           intros Hnz. apply records_other; [|by apply Hrec].
           intros Hip. apply (Hips cj); [by eapply list_elem_of_lookup_2|done].
      * intros r' [Hr'|Hr'%list_elem_of_singleton]%elem_of_app; [|subst r'].
        -- destruct (Hseen r' Hr') as (c0 & [j Hj]%list_elem_of_lookup_1 & Hip0 & Hnz0).
           exists c0. split_and!; [|done|done].
           eapply list_elem_of_lookup_2. rewrite list_lookup_insert_ne; [exact Hj|].
           intros <-. rewrite Hk in Hj. injection Hj as <-. by apply Hnz0.
        -- exists (new_entry (request_now r) (request_addr r)). split_and!; [|done|simpl; lia].
           eapply list_elem_of_lookup_2. apply list_lookup_insert_eq. by eapply lookup_lt_Some.
    + (* every slot is in use: more than [MAX_IP_ADDRESSES] addresses *)
      exfalso.
      assert (Hnodup : NoDup (request_addr r :: (ip_address <$> t))).
      { constructor.
        - intros (c0 & Hip & Hc0)%list_elem_of_fmap. by apply (Hips c0).
        - apply earlier_wins_NoDup; [by apply earlier_wins_iff|exact Hfull]. }
      assert (Hsub : request_addr r :: (ip_address <$> t) ⊆+ visitors (seen ++ r :: rest)).
      { apply NoDup_submseteq; [exact Hnodup|]. intros a Ha.
        apply elem_of_remove_dups, list_elem_of_fmap.
        apply elem_of_cons in Ha as [->|(c0 & -> & Hc0)%list_elem_of_fmap].
        - exists r. split; [reflexivity|]. apply elem_of_app. right. by left.
        - apply list_elem_of_lookup_1 in Hc0 as [j Hj].
          destruct (Hslots j c0 Hj) as [_ Hrec]. rewrite Forall_forall in Hfull.
          assert (Hnz : count c0 <> 0) by (apply Hfull; by eapply list_elem_of_lookup_2).
          destruct (records_visitor seen c0 Hnz (Hrec Hnz)) as (r0 & Hr0 & Haddr).
          exists r0. split; [done|]. apply elem_of_app. by left. }
      apply submseteq_length in Hsub. cbn [length] in Hsub.
      rewrite length_fmap, Hlen in Hsub. lia.
Qed.

Lemma sort_clients_Permutation (t t' : list client_t) :
  length t = Z.to_nat MAX_IP_ADDRESSES ->
  sort_clients compare_datetime t = Some t' -> t' ≡ₚ t.
Proof.
  intros Hlen Hsort. destruct t as [|c t]; [discriminate Hlen|]. injection Hlen as Hlen.
  destruct (sort_from_spec compare_datetime t [c]) as (t2 & Hsort2 & Hperm & _).
  rewrite Hlen in Hsort2.
  change (sort_clients compare_datetime (c :: t) = Some t2) in Hsort2.
  rewrite Hsort in Hsort2. by injection Hsort2 as ->.
Qed.

Lemma exact_sort (seen : list request_t) (t : list client_t) :
  exact seen t ->
  exists t', sort_clients compare_datetime t = Some t' /\ exact seen t'.
Proof.
  intros (Hkept & Hslots & Hseen).
  destruct (well_kept_sort compare_datetime _ t Hkept) as (t' & Hsort & Hkept').
  exists t'. split; [exact Hsort|]. split; [exact Hkept'|].
  assert (Hperm : t' ≡ₚ t).
  { destruct Hkept as ((Hlen & _) & _). by apply sort_clients_Permutation. }
  split; [by rewrite Hperm|].
  intros r Hr. destruct (Hseen r Hr) as (c & Hc & Hrest).
  exists c. split; [by rewrite Hperm|exact Hrest].
Qed.

Lemma serve_all_exact (reqs : list request_t) : forall (seen : list request_t) (t : list client_t),
  exact seen t ->
  Z.of_nat (length seen) + Z.of_nat (length reqs) <= INT_MAX ->
  clock_set compare_datetime reqs ->
  (length (visitors (seen ++ reqs)) <= Z.to_nat MAX_IP_ADDRESSES)%nat ->
  exists t', serve_all compare_datetime reqs t = Some t' /\ exact (seen ++ reqs) t'.
Proof.
  induction reqs as [|r reqs IH]; intros seen t Ht Hn Hclock Hfew.
  - exists t. split; [reflexivity|]. by rewrite app_nil_r.
  - apply Forall_cons in Hclock as [Hnow Hclock]. cbn [length] in Hn.
    destruct (exact_remember seen reqs t r Ht ltac:(lia) Hnow Hfew) as (t1 & k & Hr & Ht1).
    cbn [serve_all]. rewrite Hr. cbn [mbind option_bind fst].
    assert (Hsorted : exists t2,
      (if request_visitors r then sort_clients compare_datetime t1 else Some t1) = Some t2 /\
      exact (seen ++ [r]) t2).
    { destruct (request_visitors r); [by apply exact_sort|by exists t1]. }
    destruct Hsorted as (t2 & -> & Ht2). cbn [mbind option_bind].
    destruct (IH (seen ++ [r]) t2 Ht2) as (t' & Hserve & Ht').
    + rewrite length_app. simpl. lia.
    + exact Hclock.
    + by rewrite <- app_assoc.
    + exists t'. split; [exact Hserve|]. by rewrite <- app_assoc in Ht'.
Qed.

Lemma earlier_wins_filter (P : client_t -> Prop) `{!forall c, Decision (P c)}
    (t : list client_t) :
  earlier_wins t -> earlier_wins (filter P t).
Proof.
  induction t as [|c t IH]; [done|]. intros [Hc Hwins]. rewrite filter_cons.
  destruct (decide (P c)); [|by apply IH]. split; [|by apply IH].
  rewrite Forall_forall in Hc |- *. intros c' [_ Hc']%list_elem_of_filter. by apply Hc.
Qed.

End ExactVisits.

(** X4.  While the requests come from at most [MAX_IP_ADDRESSES] addresses,
    the visitor table is exact, whether or not requests for /visitors sort it
    in between: the slots in use are those of the addresses that made a
    request, one slot each; the entry of an address counts its requests and
    holds the time of the last one and, unless the address is 0, the time of
    the first one; an entry for address 0 (which [get_remote_ip] gives when
    it cannot tell the peer) holds the zeroed time as first time; and a slot
    not in use is still zeroed.  This holds for fewer than [INT_MAX] requests, provided
    [compare_datetime] never places a clock reading before the zeroed time. *)
Theorem visitor_table_records
    (compare_datetime : Controller03.datetime -> Controller03.datetime -> Z)
    (reqs : list Webserver.request_t) :
  Z.of_nat (length reqs) < Webserver.INT_MAX ->
  Webserver.clock_set compare_datetime reqs ->
  (length (Webserver.visitors reqs) <= Z.to_nat Webserver.MAX_IP_ADDRESSES)%nat ->
  exists t,
    Webserver.serve_all compare_datetime reqs Webserver.clients_init = Some t /\
    (forall c, c ∈ t -> Webserver.count c = 0 -> c = Webserver.zero_client) /\
    (forall c, c ∈ t -> Webserver.count c <> 0 -> Webserver.records reqs c) /\
    Webserver.ip_address <$> filter (fun c => Webserver.count c <> 0) t
      ≡ₚ Webserver.visitors reqs.
Proof.
  intros Hreqs Hclock Hfew.
  destruct (serve_all_exact compare_datetime reqs [] Webserver.clients_init)
    as (t & Hserve & (Ht & _) & Hslots & Hseen); [|simpl; lia|exact Hclock|exact Hfew|].
  - split; [|split].
    + split; [exact visitor_table_init|].
      split; apply Forall_replicate; [reflexivity|intros H; by contradict H].
    + apply Forall_replicate. split; [reflexivity|intros H; by contradict H].
    + intros r Hr. by apply elem_of_nil in Hr.
  - cbn [app] in Hslots, Hseen. rewrite Forall_forall in Hslots.
    exists t. split; [exact Hserve|]. split; [|split].
    + intros c Hc. by apply (Hslots c Hc).
    + intros c Hc. by apply (Hslots c Hc).
    + apply NoDup_Permutation.
      * apply earlier_wins_NoDup.
        -- apply earlier_wins_filter, earlier_wins_iff, Ht.
        -- apply Forall_forall. by intros c [Hnz _]%list_elem_of_filter.
      * apply NoDup_remove_dups.
      * intros a. unfold Webserver.visitors.
        rewrite elem_of_remove_dups, !list_elem_of_fmap. split.
        -- intros (c & -> & [Hnz Hc]%list_elem_of_filter).
           destruct (records_visitor reqs c Hnz) as (r & Hr & Haddr); [by apply (Hslots c Hc)|].
           by exists r.
        -- intros (r & -> & Hr). destruct (Hseen r Hr) as (c & Hc & Hip & Hnz).
           exists c. split; [done|]. by apply list_elem_of_filter.
Qed.

Lemma visitor_table_records_example :
  let compare a b := Controller03.year a - Controller03.year b in
  let at_year y := {| Controller03.sec := 0; Controller03.min := 0; Controller03.hour := 1;
                      Controller03.ampm := 0; Controller03.day := 1; Controller03.date := 1;
                      Controller03.month := 1; Controller03.year := y |} in
  let reqs :=
    [ {| Webserver.request_now := at_year 22; Webserver.request_addr := 7;
         Webserver.request_visitors := false |};
      {| Webserver.request_now := at_year 23; Webserver.request_addr := 0;
         Webserver.request_visitors := true |};
      {| Webserver.request_now := at_year 24; Webserver.request_addr := 7;
         Webserver.request_visitors := false |} ] in
  exists t,
    Webserver.serve_all compare reqs Webserver.clients_init = Some t /\
    (forall c, c ∈ t -> Webserver.count c = 0 -> c = Webserver.zero_client) /\
    (forall c, c ∈ t -> Webserver.count c <> 0 -> Webserver.records reqs c) /\
    Webserver.ip_address <$> filter (fun c => Webserver.count c <> 0) t
      ≡ₚ Webserver.visitors reqs.
Proof.
  intros compare at_year reqs. apply (visitor_table_records compare reqs).
  - vm_compute. reflexivity.
  - repeat constructor; vm_compute; discriminate.
  - vm_compute. lia.
Defined.
(** ** The slot of a new visitor *)

Section SlotFacts.
Import Controller03 Webserver.

(** Which slots the loop of [remember_ip_address] ends with when no slot
    holds the address: the last one with count 0, and the first one among
    those of least count that are in use. *)
Lemma scan_clients_slots (addr : IPV4address) (cs : list client_t) :
  forall ndx e m mc,
  Forall (fun c => ip_address c <> addr) cs ->
  exists e' m' mc',
    scan_clients addr cs ndx e m mc = Finished e' m' mc' /\
    ((e' = e /\ Forall (fun c => count c <> 0) cs) \/
     (exists (i : nat) c,
        e' = ndx + Z.of_nat i /\ cs !! i = Some c /\ count c = 0 /\
        forall (j : nat) c', cs !! j = Some c' -> count c' = 0 -> (j <= i)%nat)) /\
    ((m' = m /\ mc' = mc /\ Forall (fun c => count c <> 0 -> mc <= count c) cs) \/
     (exists (i : nat) c,
        m' = ndx + Z.of_nat i /\ cs !! i = Some c /\ count c <> 0 /\
        count c = mc' /\ mc' < mc /\
        forall (j : nat) c', cs !! j = Some c' -> count c' <> 0 ->
          mc' <= count c' /\ ((j < i)%nat -> mc' < count c'))).
Proof.
  induction cs as [|c cs IH]; intros ndx e m mc Hips.
  - exists e, m, mc. split; [reflexivity|]. split; left; split_and!; done || constructor.
  - apply Forall_cons in Hips as [Hip Hips]. cbn [scan_clients].
    rewrite decide_False by exact Hip.
    destruct (decide (count c = 0)) as [Hz|Hnz];
      [|destruct (decide (count c < mc)) as [Hlt|Hge]].
    + destruct (IH (ndx + 1) ndx m mc Hips) as (e' & m' & mc' & -> & Hempty & Hmin).
      exists e', m', mc'. split; [reflexivity|]. split.
      * right. destruct Hempty as [[-> Hfull]|(i & c' & -> & Hi & Hc' & Hlast)].
        -- exists 0%nat, c. split_and!; [lia|done|done|].
           intros [|j] c' Hj Hz'; [lia|]. simpl in Hj. rewrite Forall_forall in Hfull.
           exfalso. apply (Hfull c'); [by eapply list_elem_of_lookup_2|done].
        -- exists (S i), c'. split_and!; [lia|done|done|].
           intros [|j] c'' Hj Hz'; [lia|]. simpl in Hj. specialize (Hlast j c'' Hj Hz'). lia.
      * destruct Hmin as [(-> & -> & Hall)|(i & c' & -> & Hi & Hnz & Hc' & Hlt & Hleast)].
        -- left. split_and!; [done|done|]. constructor; [congruence|done].
        -- right. exists (S i), c'. split_and!; try done; [lia|].
           intros [|j] c'' Hj Hnz'; simpl in Hj.
           ++ injection Hj as <-. congruence.
           ++ destruct (Hleast j c'' Hj Hnz') as [Hle Hstrict]. split; [done|]. intros; apply Hstrict; lia.
    + destruct (IH (ndx + 1) e ndx (count c) Hips) as (e' & m' & mc' & -> & Hempty & Hmin).
      exists e', m', mc'. split; [reflexivity|]. split.
      * destruct Hempty as [[-> Hfull]|(i & c' & -> & Hi & Hc' & Hlast)].
        -- left. split; [done|]. by constructor.
        -- right. exists (S i), c'. split_and!; [lia|done|done|].
           intros [|j] c'' Hj Hz'; simpl in Hj; [congruence|].
           specialize (Hlast j c'' Hj Hz'). lia.
      * right.
        destruct Hmin as [(-> & -> & Hall)|(i & c' & -> & Hi & Hnz' & Hc' & Hlt' & Hleast)].
        -- exists 0%nat, c. split_and!; try done; [lia|].
           intros [|j] c'' Hj Hnz'; simpl in Hj.
           ++ injection Hj as <-. split; [lia|lia].
           ++ rewrite Forall_forall in Hall. split; [|lia].
              apply Hall; [by eapply list_elem_of_lookup_2|done].
        -- exists (S i), c'. split_and!; try done; [lia|lia|].
           intros [|j] c'' Hj Hnz''; simpl in Hj.
           ++ injection Hj as <-. split; [lia|]. intros _. lia.
           ++ destruct (Hleast j c'' Hj Hnz'') as [Hle Hstrict]. split; [done|].
              intros; apply Hstrict; lia.
    + destruct (IH (ndx + 1) e m mc Hips) as (e' & m' & mc' & -> & Hempty & Hmin).
      exists e', m', mc'. split; [reflexivity|]. split.
      * destruct Hempty as [[-> Hfull]|(i & c' & -> & Hi & Hc' & Hlast)].
        -- left. split; [done|]. by constructor.
        -- right. exists (S i), c'. split_and!; [lia|done|done|].
           intros [|j] c'' Hj Hz'; simpl in Hj; [congruence|].
           specialize (Hlast j c'' Hj Hz'). lia.
      * destruct Hmin as [(-> & -> & Hall)|(i & c' & -> & Hi & Hnz' & Hc' & Hlt' & Hleast)].
        -- left. split_and!; [done|done|]. constructor; [lia|done].
        -- right. exists (S i), c'. split_and!; try done; [lia|].
           intros [|j] c'' Hj Hnz''; simpl in Hj.
           ++ injection Hj as <-. split; [lia|]. intros _. lia.
           ++ destruct (Hleast j c'' Hj Hnz'') as [Hle Hstrict]. split; [done|].
              intros; apply Hstrict; lia.
Qed.

End SlotFacts.

(** X5.  The slot of a new visitor.  When no slot of the table holds the
    address, [remember_ip_address] writes the entry of the address, with
    count 1, both times [now] and no password, and nothing else: into the
    last slot with count 0 if there is one, else into the first of the
    slots whose count is least, which it thereby gives up.  (The table has
    its 50 slots and counts below [INT_MAX].) *)
Theorem remember_ip_address_slot (t : list Webserver.client_t)
    (now : Controller03.datetime) (addr : Webserver.IPV4address) :
  length t = Z.to_nat Webserver.MAX_IP_ADDRESSES ->
  Forall (fun c => Webserver.count c < Webserver.INT_MAX) t ->
  Forall (fun c => Webserver.ip_address c <> addr) t ->
  exists (k : nat) c c',
    Webserver.remember_ip_address now addr t = Some (<[k := c']> t, Z.of_nat k) /\
    Webserver.ip_address c' = addr /\ Webserver.count c' = 1 /\
    Webserver.first_time c' = now /\ Webserver.recent_time c' = now /\
    Webserver.gave_password c' = false /\
    t !! k = Some c /\
    ((Webserver.count c = 0 /\
      forall (j : nat) c', t !! j = Some c' -> Webserver.count c' = 0 -> (j <= k)%nat) \/
     (Forall (fun c' => Webserver.count c' <> 0) t /\
      forall (j : nat) c', t !! j = Some c' ->
        Webserver.count c <= Webserver.count c' /\
        ((j < k)%nat -> Webserver.count c < Webserver.count c'))).
Proof.
  intros Hlen Hcount Hips. unfold Webserver.remember_ip_address.
  destruct (scan_clients_slots addr t 0 (-1) (-1) Webserver.INT_MAX Hips)
    as (e' & m' & mc' & -> & Hempty & Hmin).
  destruct Hempty as [[-> Hfull]|(i & c & -> & Hi & Hc & Hlast)].
  - rewrite decide_False by lia.
    destruct Hmin as [(-> & -> & Hall)|(i & c & -> & Hi & Hnz & Hc & Hlt & Hleast)].
    + exfalso. destruct t as [|c t]; [simpl in Hlen; discriminate|].
      inversion Hall as [|? ? Hc0]; subst. inversion Hfull; subst.
      inversion Hcount as [|? ? Hc1]; subst. lia.
    + exists i, c, (Webserver.new_entry now addr).
      rewrite Z.add_0_l, store_nat by (by eapply lookup_lt_Some).
      split_and!; try reflexivity; [exact Hi|]. right. split; [exact Hfull|].
      intros j c' Hj. rewrite Hc. apply (Hleast j c' Hj).
      rewrite Forall_forall in Hfull. apply Hfull. by eapply list_elem_of_lookup_2.
  - rewrite decide_True by lia.
    exists i, c, (Webserver.new_entry now addr).
    rewrite Z.add_0_l, store_nat by (by eapply lookup_lt_Some).
    split_and!; try reflexivity; [exact Hi|]. left. by split.
Qed.

(** A table whose 50 slots are all in use, slots 10 and 20 with the least
    count. *)
Lemma remember_ip_address_slot_full_table :
  let seen i := {| Webserver.ip_address := i + 1;
                   Webserver.count := if decide (i = 10 \/ i = 20) then 2 else 5;
                   Webserver.first_time := Webserver.zero_datetime;
                   Webserver.recent_time := Webserver.zero_datetime;
                   Webserver.gave_password := false |} in
  let t := seen <$> seqZ 0 Webserver.MAX_IP_ADDRESSES in
  let now := Webserver.zero_datetime in
  let addr := 0x0100A8C0 in
  exists (k : nat) c c',
    Webserver.remember_ip_address now addr t = Some (<[k := c']> t, Z.of_nat k) /\
    Webserver.ip_address c' = addr /\ Webserver.count c' = 1 /\
    Webserver.first_time c' = now /\ Webserver.recent_time c' = now /\
    Webserver.gave_password c' = false /\
    t !! k = Some c /\
    ((Webserver.count c = 0 /\
      forall (j : nat) c', t !! j = Some c' -> Webserver.count c' = 0 -> (j <= k)%nat) \/
     (Forall (fun c' => Webserver.count c' <> 0) t /\
      forall (j : nat) c', t !! j = Some c' ->
        Webserver.count c <= Webserver.count c' /\
        ((j < k)%nat -> Webserver.count c < Webserver.count c'))).
Proof.
  intros seen t now addr.
  apply (remember_ip_address_slot t now addr).
  - vm_compute. reflexivity.
  - apply Forall_fmap, Forall_forall. intros i _. simpl.
    destruct (decide (i = 10 \/ i = 20)); vm_compute; reflexivity.
  - apply Forall_fmap, Forall_forall. intros i Hi%elem_of_seqZ. simpl.
    unfold Webserver.MAX_IP_ADDRESSES in Hi. lia.
Defined.
(** ** Printing and reading numbers *)

Section PrintFacts.
Import Controller03 Webserver.

Lemma append_nil_r (s : string) : s +:+ "" = s.
Proof. induction s as [|c s IH]; [reflexivity|]. by rewrite append_cons, IH. Qed.

Lemma append_assoc (a b c : string) : (a +:+ b) +:+ c = a +:+ b +:+ c.
Proof. induction a as [|x a IH]; [reflexivity|]. by rewrite !append_cons, IH. Qed.

Lemma length_append (a b : string) :
  String.length (a +:+ b) = (String.length a + String.length b)%nat.
Proof. induction a as [|x a IH]; [reflexivity|]. rewrite append_cons. simpl. by rewrite IH. Qed.

Lemma all_chars_app (p : ascii -> bool) (a b : string) :
  all_chars p (a +:+ b) <-> all_chars p a /\ all_chars p b.
Proof.
  induction a as [|x a IH].
  - rewrite append_empty. split; [intros H; split; [constructor|exact H]|by intros [_ H]].
  - rewrite append_cons, !all_chars_cons, IH. tauto.
Qed.

Lemma digit_values_app (a b : string) :
  digit_values (a +:+ b) = digit_values a ++ digit_values b.
Proof.
  induction a as [|x a IH]; [reflexivity|]. rewrite append_cons.
  change (digit_values (String x (a +:+ b)))
    with ((char_code x - 48) :: digit_values (a +:+ b)).
  by rewrite IH.
Qed.

(** The character of a decimal digit. *)
Lemma digit_char (d : Z) :
  0 <= d < 10 ->
  let c := ascii_of_N (Z.to_N (48 + d)) in
  char_code c = 48 + d /\ isdigit c = true.
Proof.
  intros Hd c. assert (Hcode : char_code c = 48 + d).
  { unfold char_code, c. rewrite N_ascii_embedding; lia. }
  split; [exact Hcode|]. unfold isdigit. apply bool_decide_eq_true. lia.
Qed.

(** [print_digits] writes the digits of [n], as many as [n] has. *)
Lemma print_digits_spec (fuel : nat) : forall (k : nat) (n : Z) (acc : string),
  (k <= fuel)%nat -> 0 <= n < 10 ^ Z.of_nat (S k) ->
  exists digits,
    print_digits fuel n acc = digits +:+ acc /\
    digits <> "" /\ all_chars isdigit digits /\
    (String.length digits <= S k)%nat /\
    decimal (digit_values digits) = n.
Proof.
  assert (Hone : forall n acc, 0 <= n < 10 ->
    exists digits,
      String (ascii_of_N (Z.to_N (48 + n mod 10))) acc = digits +:+ acc /\
      digits <> "" /\ all_chars isdigit digits /\
      (String.length digits <= 1)%nat /\ decimal (digit_values digits) = n).
  { intros n acc Hn. rewrite Z.mod_small by lia.
    destruct (digit_char n Hn) as [Hcode Hdigit].
    exists (String (ascii_of_N (Z.to_N (48 + n))) ""). split_and!; try done.
    - apply all_chars_cons. split; [exact Hdigit|constructor].
    - unfold digit_values, decimal. simpl. rewrite Hcode. lia. }
  induction fuel as [|fuel IH]; intros k n acc Hk Hn.
  - assert (k = 0%nat) as -> by lia. apply (Hone n acc). simpl in Hn. lia.
  - cbn [print_digits]. destruct (decide (n / 10 = 0)) as [Hsmall|Hbig].
    + destruct (Hone n acc) as (digits & H1 & H2 & H3 & H4 & H5).
      { apply Z.div_small_iff in Hsmall; lia. }
      exists digits. split_and!; try done. lia.
    + destruct k as [|k].
      { exfalso. apply Hbig. apply Z.div_small. simpl in Hn. lia. }
      destruct (IH k (n / 10) (String (ascii_of_N (Z.to_N (48 + n mod 10))) acc))
        as (digits & Heq & Hne & Hall & Hlen & Hval); [lia| |].
      { split; [apply Z.div_pos; lia|]. apply Z.div_lt_upper_bound; [lia|].
        replace (10 ^ Z.of_nat (S (S k))) with (10 * 10 ^ Z.of_nat (S k)) in Hn; [lia|].
        rewrite (Nat2Z.inj_succ (S k)), Z.pow_succ_r by lia. reflexivity. }
      assert (Hd : 0 <= n mod 10 < 10) by (apply Z.mod_pos_bound; lia).
      destruct (digit_char (n mod 10) Hd) as [Hcode Hdigit].
      exists (digits +:+ String (ascii_of_N (Z.to_N (48 + n mod 10))) "").
      split_and!.
      * by rewrite Heq, append_assoc.
      * intros Hnil. apply (f_equal String.length) in Hnil.
        rewrite length_append in Hnil. simpl in Hnil. lia.
      * apply all_chars_app. split; [exact Hall|].
        apply all_chars_cons. split; [exact Hdigit|constructor].
      * rewrite length_append. simpl. lia.
      * rewrite digit_values_app. unfold decimal in *. rewrite foldl_app, Hval.
        unfold digit_values. simpl. rewrite Hcode.
        pose proof (Z.div_mod n 10). lia.
Qed.

(** [%d] of a number that is not negative: its digits. *)
Lemma print_d_digits (k : nat) (n : Z) :
  (k <= 9)%nat -> 0 <= n < 10 ^ Z.of_nat (S k) ->
  print_d n <> "" /\ all_chars isdigit (print_d n) /\
  (String.length (print_d n) <= S k)%nat /\
  decimal (digit_values (print_d n)) = n.
Proof.
  intros Hk Hn. unfold print_d. rewrite decide_False by lia.
  destruct (print_digits_spec 9 k n "" Hk Hn) as (digits & -> & H).
  by rewrite append_nil_r.
Qed.

(** What [%d] prints, ["button=%d"] reads back. *)
Lemma sscanf_button_print_d (n : Z) :
  INT_MIN <= n <= INT_MAX -> sscanf_button ("button=" +:+ print_d n) = (1, Some n).
Proof.
  intros Hn. apply sscanf_button_text. unfold print_d.
  destruct (decide (n < 0)) as [Hneg|Hpos].
  - destruct (print_digits_spec 9 9 (- n) "") as (digits & -> & Hne & Hall & _ & Hval);
      [lia|unfold INT_MIN in Hn; simpl; lia|].
    rewrite append_nil_r.
    exists "", "-", digits, "". split_and!; try done.
    + by rewrite append_nil_r.
    + constructor.
    + by right; right.
    + rewrite decide_True by reflexivity. rewrite Hval.
      unfold clamp_long, LONG_MIN, LONG_MAX, INT_MIN in *. lia.
  - destruct (print_digits_spec 9 9 n "") as (digits & -> & Hne & Hall & _ & Hval);
      [lia|unfold INT_MAX in Hn; simpl; lia|].
    rewrite append_nil_r.
    exists "", "", digits, "". split_and!; try done.
    + by rewrite append_nil_r.
    + constructor.
    + by left.
    + rewrite decide_False by discriminate. rewrite Hval.
      unfold clamp_long, LONG_MIN, LONG_MAX, INT_MAX in *. lia.
Qed.

End PrintFacts.
(** ** The text of an address *)

Section FormatFacts.
Import Controller03 Webserver.

(** Digits up to a character that is not a digit: the texts are equal part
    by part. *)
Lemma digits_split (d1 : string) : forall (d2 : string) (c1 c2 : ascii) (r1 r2 : string),
  all_chars isdigit d1 -> all_chars isdigit d2 ->
  isdigit c1 = false -> isdigit c2 = false ->
  d1 +:+ String c1 r1 = d2 +:+ String c2 r2 ->
  d1 = d2 /\ c1 = c2 /\ r1 = r2.
Proof.
  induction d1 as [|x d1 IH]; intros [|y d2] c1 c2 r1 r2 H1 H2 Hc1 Hc2 Heq.
  - rewrite !append_empty in Heq. by injection Heq as -> ->.
  - rewrite append_empty, append_cons in Heq. injection Heq as -> _.
    apply all_chars_cons in H2 as [Hy _]. congruence.
  - rewrite append_empty, append_cons in Heq. injection Heq as -> _.
    apply all_chars_cons in H1 as [Hx _]. congruence.
  - rewrite !append_cons in Heq. injection Heq as -> Heq.
    apply all_chars_cons in H1 as [_ H1]. apply all_chars_cons in H2 as [_ H2].
    destruct (IH d2 c1 c2 r1 r2 H1 H2 Hc1 Hc2 Heq) as (-> & -> & ->). done.
Qed.

Lemma byte_at_range (addr : IPV4address) (k : Z) : 0 <= byte_at addr k < 256.
Proof. unfold byte_at. apply Z.mod_pos_bound. lia. Qed.

(** An address is made of its four bytes. *)
Lemma byte_at_all (addr : IPV4address) :
  0 <= addr < 2 ^ 32 ->
  addr = byte_at addr 0 + 256 * byte_at addr 1 + 65536 * byte_at addr 2
         + 16777216 * byte_at addr 3.
Proof.
  intros Haddr. unfold byte_at.
  change (2 ^ (8 * 0)) with 1. change (2 ^ (8 * 1)) with 256.
  change (2 ^ (8 * 2)) with 65536. change (2 ^ (8 * 3)) with 16777216.
  change (2 ^ 32) with 4294967296 in Haddr.
  Z.div_mod_to_equations. lia.
Qed.

Lemma print_d_byte (b : Z) :
  0 <= b < 256 ->
  all_chars isdigit (print_d b) /\ (1 <= String.length (print_d b) <= 3)%nat /\
  decimal (digit_values (print_d b)) = b.
Proof.
  intros Hb. destruct (print_d_digits 2 b) as (Hne & Hall & Hlen & Hval); [lia|simpl; lia|].
  split_and!; try done. destruct (print_d b); [done|simpl; lia].
Qed.

Lemma ip_address_text_length (addr : IPV4address) :
  (9 <= String.length (ip_address_text addr) <= 18)%nat.
Proof.
  unfold ip_address_text. rewrite !length_append.
  destruct (print_d_byte _ (byte_at_range addr 0)) as (_ & H0 & _).
  destruct (print_d_byte _ (byte_at_range addr 1)) as (_ & H1 & _).
  destruct (print_d_byte _ (byte_at_range addr 2)) as (_ & H2 & _).
  destruct (print_d_byte _ (byte_at_range addr 3)) as (_ & H3 & _).
  change (String.length (print_d WIFI_PORT)) with 2%nat.
  change (String.length ".") with 1%nat. change (String.length ":") with 1%nat. lia.
Qed.

Lemma ip_address_text_inj (a b : IPV4address) :
  0 <= a < 2 ^ 32 -> 0 <= b < 2 ^ 32 ->
  ip_address_text a = ip_address_text b -> a = b.
Proof.
  intros Ha Hb Heq. unfold ip_address_text in Heq.
  destruct (print_d_byte _ (byte_at_range a 0)) as (Ha0 & _ & Va0).
  destruct (print_d_byte _ (byte_at_range a 1)) as (Ha1 & _ & Va1).
  destruct (print_d_byte _ (byte_at_range a 2)) as (Ha2 & _ & Va2).
  destruct (print_d_byte _ (byte_at_range a 3)) as (Ha3 & _ & Va3).
  destruct (print_d_byte _ (byte_at_range b 0)) as (Hb0 & _ & Vb0).
  destruct (print_d_byte _ (byte_at_range b 1)) as (Hb1 & _ & Vb1).
  destruct (print_d_byte _ (byte_at_range b 2)) as (Hb2 & _ & Vb2).
  destruct (print_d_byte _ (byte_at_range b 3)) as (Hb3 & _ & Vb3).
  apply digits_split in Heq as (E0 & _ & Heq); [|done..].
  apply digits_split in Heq as (E1 & _ & Heq); [|done..].
  apply digits_split in Heq as (E2 & _ & Heq); [|done..].
  apply digits_split in Heq as (E3 & _ & _); [|done..].
  rewrite (byte_at_all a Ha), (byte_at_all b Hb).
  rewrite <- Va0, <- Va1, <- Va2, <- Va3, <- Vb0, <- Vb1, <- Vb2, <- Vb3.
  by rewrite E0, E1, E2, E3.
Qed.

End FormatFacts.

(** X6.  [format_ip_address] stays inside the array it is given for every
    address if and only if the array has at least 19 characters; the arrays
    of 30 characters of its callers hold the text, which has from 9 to 18
    characters. *)
Theorem format_ip_address_fits (size : Z) :
  (forall addr, 0 <= addr < 2 ^ 32 ->
     Webserver.format_ip_address addr size = Webserver.Done (Webserver.ip_address_text addr) /\
     (9 <= String.length (Webserver.ip_address_text addr) <= 18)%nat)
  <-> 19 <= size.
Proof.
  split.
  - intros Hall. destruct (Hall (2 ^ 32 - 1)) as [Hfit _]; [lia|].
    assert (Hlen : String.length (Webserver.ip_address_text (2 ^ 32 - 1)) = 18%nat)
      by (vm_compute; reflexivity).
    unfold Webserver.format_ip_address, Webserver.sprintf in Hfit. rewrite Hlen in Hfit.
    destruct (decide (Z.of_nat 18 + 1 <= size)) as [Hle|]; [lia|discriminate].
  - intros Hsize addr Haddr. pose proof (ip_address_text_length addr) as Hlen.
    split; [|exact Hlen].
    unfold Webserver.format_ip_address, Webserver.sprintf. rewrite decide_True; [done|lia].
Qed.

(** X7.  Different addresses have different texts. *)
Theorem format_ip_address_distinct (a b : Webserver.IPV4address) (size : Z) :
  0 <= a < 2 ^ 32 -> 0 <= b < 2 ^ 32 -> 19 <= size ->
  Webserver.format_ip_address a size = Webserver.format_ip_address b size <-> a = b.
Proof.
  intros Ha Hb Hsize. split; [|by intros ->].
  unfold Webserver.format_ip_address, Webserver.sprintf.
  pose proof (ip_address_text_length a). pose proof (ip_address_text_length b).
  rewrite !decide_True by lia. intros [= Heq]. by apply ip_address_text_inj.
Qed.

Lemma format_ip_address_distinct_example :
  Webserver.format_ip_address 0x0100A8C0 30 = Webserver.format_ip_address 0x0A00A8C0 30
  <-> 0x0100A8C0 = 0x0A00A8C0.
Proof. apply format_ip_address_distinct; lia. Defined.
(** ** The buttons of the home page *)

Section ButtonFacts.
Import Controller03 Webserver.

Lemma substring_whole (s : string) : forall n : nat,
  (String.length s <= n)%nat -> String.substring 0 n s = s.
Proof.
  induction s as [|c s IH]; intros [|n] Hn; simpl in *; try reflexivity; [lia|].
  rewrite IH by lia. reflexivity.
Qed.

(** [snprintf] stores the whole text when it is shorter than the array. *)
Lemma snprintf_whole (size : Z) (text : string) :
  Z.of_nat (String.length text) < size -> (snprintf size text).1 = text.
Proof. intros Hlen. unfold snprintf. cbn [fst]. apply substring_whole. lia. Qed.

Lemma button_text_line_length (lit : bool) (but : Z) :
  0 <= but < NUM_BUTTONS ->
  (0 < String.length (button_text_line lit but) < 150)%nat.
Proof.
  unfold NUM_BUTTONS. intros Hbut.
  assert (Hcases : but = 0 \/ but = 1 \/ but = 2 \/ but = 3 \/ but = 4 \/ but = 5
                   \/ but = 6 \/ but = 7) by lia.
  destruct lit; repeat (destruct Hcases as [->|Hcases]); try subst but; vm_compute; lia.
Qed.

(** A chunk that is not empty and shorter than the 299 characters that an
    array of [BUTLINESIZE] holds. *)
Let short (s : sent) : Prop :=
  exists text, s = Send_chunk text /\
               (0 < String.length text < Z.to_nat (BUTLINESIZE - 1))%nat.

Lemma button_lines_fit (ctl : controller_t) (buts : list Z) :
  Forall (fun but => 0 <= but < NUM_BUTTONS /\ but < Z.of_nat (length (led_masks ctl))) buts ->
  exists chunks,
    button_lines ctl buts = Done chunks /\ length chunks = length buts /\
    Forall short chunks.
Proof.
  induction 1 as [|but buts [Hbut Hmask] _ (chunks & IH & Hlen & Hshort)].
  - exists []. split_and!; [reflexivity|reflexivity|constructor].
  - cbn [button_lines]. unfold load. rewrite decide_True by lia.
    destruct (led_masks ctl !! Z.to_nat but) as [mask|] eqn:Hload.
    2: { apply lookup_ge_None in Hload. lia. }
    rewrite IH. cbn [obind].
    eexists. split_and!; [reflexivity|simpl; by rewrite Hlen|].
    constructor; [|exact Hshort].
    eexists. split; [reflexivity|].
    pose proof (button_text_line_length
                  (bool_decide (Z.land (leds_on ctl) mask <> 0)) but Hbut) as Hline.
    rewrite snprintf_whole by (unfold BUTLINESIZE; lia).
    change (Z.to_nat (BUTLINESIZE - 1)) with 299%nat. lia.
Qed.

Lemma label_rows_fit :
  exists chunks,
    label_rows (seqZ 0 3) (replicate (Z.to_nat BUTLINESIZE) None) = Done chunks /\
    length chunks = 3%nat /\ Forall short chunks.
Proof.
  eexists. split_and!; [vm_compute; reflexivity|reflexivity|].
  repeat constructor; (eexists; split; [reflexivity|vm_compute; lia]).
Qed.

End ButtonFacts.

Lemma show_buttons_short (ctl : Webserver.controller_t) :
  Controller03.NUM_BUTTONS <= Z.of_nat (length (Webserver.led_masks ctl)) ->
  exists chunks,
    Webserver.show_buttons ctl = Webserver.Done chunks /\
    length chunks = 18%nat /\
    Forall (fun s => exists text,
              s = Webserver.Send_chunk text /\
              (0 < String.length text < 299)%nat) chunks.
Proof.
  intros Hmasks. unfold Webserver.show_buttons.
  destruct (button_lines_fit ctl (seqZ 0 Controller03.NUM_BUTTONS))
    as (buttons & -> & Hlen & Hbuttons).
  { apply Forall_forall. intros but Hbut%elem_of_seqZ. lia. }
  destruct label_rows_fit as (labels & -> & Hlen' & Hlabels).
  cbn [Webserver.obind]. eexists. split; [reflexivity|]. split.
  - rewrite !length_app, Hlen, Hlen'. reflexivity.
  - assert (Hheater : (0 < String.length
      (Webserver.heater_button_text (Webserver.heater_colour ctl)) < 150)%nat).
    { unfold Webserver.heater_colour.
      destruct (decide (Webserver.heater_mode ctl = Controller03.HEATING_NONE));
        [|destruct (Webserver.heater_on ctl)]; vm_compute; lia. }
    rewrite snprintf_whole by (unfold Webserver.BUTLINESIZE; lia).
    change (Z.to_nat (Webserver.BUTLINESIZE - 1)) with 299%nat in *.
    rewrite !Forall_app, !Forall_cons.
    split_and!; try apply Forall_nil; try assumption; try exact I;
      (eexists; split; [reflexivity|]); try (vm_compute; lia); lia.
Qed.

(** X8.  [show_buttons] has room in [line] and [row] for every state of the
    heater and of the LEDs: provided [led_masks] holds a mask for each of
    the [NUM_BUTTONS] buttons, it reads and writes inside its arrays and
    sends 18 chunks, none empty and each shorter than the 299 characters at
    which [snprintf] would cut it. *)
Theorem show_buttons_fits (ctl : Webserver.controller_t) :
  Controller03.NUM_BUTTONS <= Z.of_nat (length (Webserver.led_masks ctl)) ->
  exists chunks,
    Webserver.show_buttons ctl = Webserver.Done chunks /\
    length chunks = 18%nat /\
    Forall (fun s => exists text,
              s = Webserver.Send_chunk text /\
              (0 < String.length text < Z.to_nat (Webserver.BUTLINESIZE - 1))%nat) chunks.
Proof.
  intros Hmasks. destruct (show_buttons_short ctl Hmasks) as (chunks & Hrun & Hlen & Hshort).
  exists chunks. split; [exact Hrun|]. split; [exact Hlen|].
  eapply Forall_impl; [exact Hshort|]. intros s (text & -> & Htext).
  exists text. split; [reflexivity|]. unfold Webserver.BUTLINESIZE. simpl Z.to_nat. lia.
Qed.

Lemma show_buttons_fits_example :
  let ctl := {| Webserver.lcdbuf := []; Webserver.lcdrow := 0; Webserver.lcdcol := 0;
                Webserver.lcd_cursorblinking := false;
                Webserver.heater_mode := Controller03.HEATING_SPA;
                Webserver.heater_on := true; Webserver.leds_on := 5;
                Webserver.led_masks := [1; 2; 4; 8; 16; 32; 64; 128; 1024; 512; 256] |} in
  exists chunks,
    Webserver.show_buttons ctl = Webserver.Done chunks /\
    length chunks = 18%nat /\
    Forall (fun s => exists text,
              s = Webserver.Send_chunk text /\
              (0 < String.length text < Z.to_nat (Webserver.BUTLINESIZE - 1))%nat) chunks.
Proof. intros ctl. apply (show_buttons_fits ctl). vm_compute. discriminate. Defined.
(** ** From the buttons of the page to the handler of the POST *)

(** X9.  The buttons that [show_buttons] draws are the buttons that
    [button_POST_handler] takes, when the body arrives whole: the line of
    button [but] carries the field name "button" and as value the number
    [but]; the body made of that name and value has 8 bytes, and when
    [httpd_req_recv] returns them all, the handler stores [true] in
    [button_webpushed[but]], and nowhere else, and calls neither
    [temp_change] nor anything but the log, the wait and the home page.
    When [httpd_req_recv] returns fewer bytes, the push is lost: the handler
    changes no button and only logs the unexpected bytes. *)
Theorem show_buttons_round_trip (lit : bool) (but : Z)
    (now : Controller03.datetime) (addr : Webserver.IPV4address)
    (datalen : Z) (st : Webserver.server_t) :
  0 <= but < Controller03.NUM_BUTTONS ->
  0 <= datalen <= 8 ->
  let value := Webserver.print_d but in
  let body := "button=" +:+ value in
  let postdata := String.substring 0 (Z.to_nat datalen) body in
  (exists pre post,
     Webserver.button_text_line lit but
     = pre +:+ " name=" +:+ Webserver.DQ +:+ "button" +:+ Webserver.DQ +:+
       " value=" +:+ Webserver.DQ +:+ value +:+ Webserver.DQ +:+ post) /\
  String.length body = 8%nat /\
  match Webserver.report_ip_address now addr postdata st with
  | None => Webserver.button_POST_handler now addr body datalen st = None
  | Some st1 =>
      exists st',
        Webserver.button_POST_handler now addr body datalen st = Some st' /\
        if decide (datalen = 8) then
          Webserver.button_webpushed st'
            = <[Z.to_nat but := true]> (Webserver.button_webpushed st) /\
          Webserver.effects st'
            = Webserver.effects st
              ++ [Webserver.Dprint_request body; Webserver.Dprint_button but;
                  Webserver.Store_button_webpushed but; Webserver.Call_delay 500;
                  Webserver.Send_home_page]
        else
          Webserver.button_webpushed st' = Webserver.button_webpushed st /\
          Webserver.effects st'
            = Webserver.effects st
              ++ [Webserver.Dprint_request postdata;
                  Webserver.Dprint_unexpected datalen postdata;
                  Webserver.Call_delay 500; Webserver.Send_home_page]
  end.
Proof.
  intros Hbut Hlen value body postdata.
  assert (Hcases : but = 0 \/ but = 1 \/ but = 2 \/ but = 3 \/ but = 4 \/ but = 5
                   \/ but = 6 \/ but = 7)
    by (unfold Controller03.NUM_BUTTONS in Hbut; lia).
  assert (Hlens : datalen = 0 \/ datalen = 1 \/ datalen = 2 \/ datalen = 3 \/ datalen = 4
                  \/ datalen = 5 \/ datalen = 6 \/ datalen = 7 \/ datalen = 8) by lia.
  assert (Hbody : String.length body = 8%nat).
  { subst body value. repeat (destruct Hcases as [->|Hcases]); try subst but; reflexivity. }
  split; [|split; [exact Hbody|]].
  - exists ("<td class=" +:+ Webserver.DQ +:+ "tablecell" +:+ Webserver.DQ +:+
            "><button class=" +:+ Webserver.DQ +:+ "button" +:+ Webserver.DQ +:+
            Webserver.button_style lit +:+ " type=" +:+ Webserver.DQ +:+ "submit" +:+
            Webserver.DQ),
           ("> </button></td>" +:+ Webserver.CRLF).
    unfold Webserver.button_text_line. fold value. by rewrite !append_assoc.
  - assert (Hrecv : Webserver.receive_postdata body datalen = Webserver.Done postdata).
    { rewrite receive_postdata_stored
        by (unfold Webserver.sizeof_postdata; rewrite ?Hbody; lia).
      f_equal. subst postdata body value.
      repeat (destruct Hcases as [->|Hcases]); try subst but;
        repeat (destruct Hlens as [->|Hlens]); try subst datalen; reflexivity. }
    unfold Webserver.button_POST_handler. rewrite Hrecv.
    cbn [Webserver.defined mbind option_bind].
    destruct (Webserver.report_ip_address now addr postdata st) as [st1|] eqn:Hreport;
      [|reflexivity].
    apply report_ip_address_frame in Hreport as [Hbuttons Heffects].
    cbn [mbind option_bind].
    destruct (decide (datalen = 8)) as [Hwhole|Hshort].
    + assert (Hpost : postdata = body).
      { subst postdata. apply substring_whole. rewrite Hbody. lia. }
      rewrite Hpost in *. subst body value.
      rewrite sscanf_button_print_d
        by (unfold Webserver.INT_MIN, Webserver.INT_MAX, Controller03.NUM_BUTTONS in *; lia).
      rewrite decide_True by (unfold Controller03.NUM_BUTTONS in *; lia).
      eexists. split; [reflexivity|]. cbn. rewrite Hbuttons, Heffects, <- !app_assoc.
      split; reflexivity.
    + assert (Hscan : exists ret, Webserver.sscanf_button postdata = (ret, None)).
      { subst postdata body value.
        repeat (destruct Hcases as [->|Hcases]); try subst but;
          repeat (destruct Hlens as [->|Hlens]); try subst datalen;
          try contradiction; eexists; vm_compute; reflexivity. }
      assert (Hup : postdata <> "temp=up" /\ postdata <> "temp=down").
      { subst postdata body value.
        repeat (destruct Hcases as [->|Hcases]); try subst but;
          repeat (destruct Hlens as [->|Hlens]); try subst datalen;
          try contradiction; split; discriminate. }
      destruct Hscan as [ret ->]. destruct Hup as [Hup Hdown].
      rewrite (decide_False (P := postdata = "temp=up")) by exact Hup.
      rewrite (decide_False (P := postdata = "temp=down")) by exact Hdown.
      eexists. split; [reflexivity|]. cbn. rewrite Hbuttons, Heffects, <- !app_assoc.
      split; reflexivity.
Qed.

(** The menu button, its body received whole. *)
Lemma show_buttons_round_trip_menu_button :
  let but := 7 in
  let datalen := 8 in
  let now := Webserver.zero_datetime in
  let addr := 0x0100A8C0 in
  let st := Webserver.server_init in
  let value := Webserver.print_d but in
  let body := "button=" +:+ value in
  let postdata := String.substring 0 (Z.to_nat datalen) body in
  (exists pre post,
     Webserver.button_text_line true but
     = pre +:+ " name=" +:+ Webserver.DQ +:+ "button" +:+ Webserver.DQ +:+
       " value=" +:+ Webserver.DQ +:+ value +:+ Webserver.DQ +:+ post) /\
  String.length body = 8%nat /\
  match Webserver.report_ip_address now addr postdata st with
  | None => Webserver.button_POST_handler now addr body datalen st = None
  | Some st1 =>
      exists st',
        Webserver.button_POST_handler now addr body datalen st = Some st' /\
        if decide (datalen = 8) then
          Webserver.button_webpushed st'
            = <[Z.to_nat but := true]> (Webserver.button_webpushed st) /\
          Webserver.effects st'
            = Webserver.effects st
              ++ [Webserver.Dprint_request body; Webserver.Dprint_button but;
                  Webserver.Store_button_webpushed but; Webserver.Call_delay 500;
                  Webserver.Send_home_page]
        else
          Webserver.button_webpushed st' = Webserver.button_webpushed st /\
          Webserver.effects st'
            = Webserver.effects st
              ++ [Webserver.Dprint_request postdata;
                  Webserver.Dprint_unexpected datalen postdata;
                  Webserver.Call_delay 500; Webserver.Send_home_page]
  end.
Proof.
  intros but datalen now addr st.
  apply (show_buttons_round_trip true but now addr datalen st).
  - vm_compute. split; [discriminate|reflexivity].
  - vm_compute. split; discriminate.
Defined.
(** ** The LCD screen of the home page *)

Section LcdFacts.
Import Controller03 Webserver.

Lemma expand_row_whole (lcd_cursorblinking : bool) (lcdrow lcdcol row : Z)
    (lcdbuf text rest : list ascii) :
  0 <= row ->
  drop (Z.to_nat (LCD_COLS * row)) lcdbuf = text ++ NUL :: rest ->
  Forall (fun c => c <> NUL) text -> (length text <= 61)%nat ->
  expand_arrows_and_blanks lcd_cursorblinking lcdrow lcdcol row lcdbuf
  = Done (string_of_list_ascii
      (expand_text lcd_cursorblinking lcdrow lcdcol row text 0
         ++ list_ascii_of_string ("<br>" +:+ String newline EmptyString))).
Proof.
  intros Hrow Hsrc Hnul Hlen.
  destruct (expand_arrows_and_blanks_result lcd_cursorblinking lcdrow lcdcol row lcdbuf)
    as [(_ & _ & ->)|([Hneg|Hno] & _)].
  - rewrite Hsrc, expanded_whole by (done || lia). reflexivity.
  - lia.
  - exfalso. apply Hno. rewrite Hsrc. apply elem_of_app. right. apply elem_of_cons. by left.
Qed.

Lemma lcd_row_length (text : list ascii) :
  (length text <= 20)%nat -> length (lcd_row text) = 21%nat.
Proof.
  intros Hlen. unfold lcd_row. rewrite length_app, length_replicate.
  change (Z.to_nat LCD_COLS) with 21%nat. lia.
Qed.

Lemma lcd_row_text (text rest : list ascii) :
  (length text <= 20)%nat ->
  exists rest', lcd_row text ++ rest = text ++ NUL :: rest'.
Proof.
  intros Hlen. unfold lcd_row. change (Z.to_nat LCD_COLS) with 21%nat.
  destruct (21 - length text)%nat as [|n] eqn:Hn; [lia|].
  exists (replicate n NUL ++ rest). by rewrite <- app_assoc.
Qed.

Lemma drop_lcd_row (text rest : list ascii) (n : nat) :
  (length text <= 20)%nat -> drop (21 + n) (lcd_row text ++ rest) = drop n rest.
Proof.
  intros Hlen. rewrite drop_app_ge by (rewrite lcd_row_length; lia).
  rewrite lcd_row_length by done. f_equal. lia.
Qed.

End LcdFacts.

(** X10.  [show_lcd_screen] sends the screen whole: when the four rows of
    the LCD buffer hold C strings of at most 20 characters, it sends the
    opening of the box, for each row in turn the expansion of all its
    characters followed by "<br>" and a newline, and the closing. *)
Theorem show_lcd_screen_rows (ctl : Webserver.controller_t) (t0 t1 t2 t3 : list ascii) :
  Forall (fun text => Forall (fun c => c <> Webserver.NUL) text /\ (length text <= 20)%nat)
    [t0; t1; t2; t3] ->
  Webserver.lcdbuf ctl
    = Webserver.lcd_row t0 ++ Webserver.lcd_row t1 ++ Webserver.lcd_row t2
      ++ Webserver.lcd_row t3 ->
  let chunk row text :=
    Webserver.Send_chunk (string_of_list_ascii
      (Webserver.expand_text (Webserver.lcd_cursorblinking ctl) (Webserver.lcdrow ctl)
         (Webserver.lcdcol ctl) row text 0
       ++ list_ascii_of_string ("<br>" +:+ String Webserver.newline EmptyString))) in
  Webserver.show_lcd_screen ctl
  = Webserver.Done
      [Webserver.Send_chunk
         ("<p class=" +:+ Webserver.DQ +:+ "lcd" +:+ Webserver.DQ +:+ ">" +:+ Webserver.CRLF);
       chunk 0 t0; chunk 1 t1; chunk 2 t2; chunk 3 t3;
       Webserver.Send_chunk ("</p>" +:+ Webserver.LF)].
Proof.
  intros Hrows Hbuf chunk.
  apply Forall_cons in Hrows as [[N0 L0] Hrows]. apply Forall_cons in Hrows as [[N1 L1] Hrows].
  apply Forall_cons in Hrows as [[N2 L2] Hrows]. apply Forall_cons in Hrows as [[N3 L3] _].
  unfold Webserver.show_lcd_screen.
  change (seqZ 0 Webserver.LCD_ROWS) with [0; 1; 2; 3]. cbn [Webserver.expand_rows].
  destruct (lcd_row_text t0 (Webserver.lcd_row t1 ++ Webserver.lcd_row t2
                             ++ Webserver.lcd_row t3) L0) as (r0 & H0).
  destruct (lcd_row_text t1 (Webserver.lcd_row t2 ++ Webserver.lcd_row t3) L1) as (r1 & H1).
  destruct (lcd_row_text t2 (Webserver.lcd_row t3) L2) as (r2 & H2).
  destruct (lcd_row_text t3 [] L3) as (r3 & H3). rewrite app_nil_r in H3.
  rewrite (expand_row_whole _ _ _ 0 _ t0 r0); [|lia| |done|lia].
  2: { rewrite Hbuf. exact H0. }
  rewrite (expand_row_whole _ _ _ 1 _ t1 r1); [|lia| |done|lia].
  2: { rewrite Hbuf. change (Z.to_nat (Webserver.LCD_COLS * 1)) with (21 + 0)%nat.
       rewrite drop_lcd_row by done. exact H1. }
  rewrite (expand_row_whole _ _ _ 2 _ t2 r2); [|lia| |done|lia].
  2: { rewrite Hbuf. change (Z.to_nat (Webserver.LCD_COLS * 2)) with (21 + (21 + 0))%nat.
       rewrite !drop_lcd_row by done. exact H2. }
  rewrite (expand_row_whole _ _ _ 3 _ t3 r3); [|lia| |done|lia].
  2: { rewrite Hbuf.
       change (Z.to_nat (Webserver.LCD_COLS * 3)) with (21 + (21 + (21 + 0)))%nat.
       rewrite !drop_lcd_row by done. exact H3. }
  reflexivity.
Qed.

Lemma show_lcd_screen_rows_example :
  let t0 := list_ascii_of_string "Spa heating" in
  let t1 := list_ascii_of_string (String Controller03.UPARROW " 98 degrees") in
  let ctl := {| Webserver.lcdbuf := Webserver.lcd_row t0 ++ Webserver.lcd_row t1
                                    ++ Webserver.lcd_row [] ++ Webserver.lcd_row [];
                Webserver.lcdrow := 1; Webserver.lcdcol := 2;
                Webserver.lcd_cursorblinking := true;
                Webserver.heater_mode := Controller03.HEATING_SPA;
                Webserver.heater_on := true; Webserver.leds_on := 1;
                Webserver.led_masks := [1; 2; 4; 8; 16; 32; 64; 128; 1024; 512; 256] |} in
  let chunk row text :=
    Webserver.Send_chunk (string_of_list_ascii
      (Webserver.expand_text (Webserver.lcd_cursorblinking ctl) (Webserver.lcdrow ctl)
         (Webserver.lcdcol ctl) row text 0
       ++ list_ascii_of_string ("<br>" +:+ String Webserver.newline EmptyString))) in
  Webserver.show_lcd_screen ctl
  = Webserver.Done
      [Webserver.Send_chunk
         ("<p class=" +:+ Webserver.DQ +:+ "lcd" +:+ Webserver.DQ +:+ ">" +:+ Webserver.CRLF);
       chunk 0 t0; chunk 1 t1; chunk 2 []; chunk 3 [];
       Webserver.Send_chunk ("</p>" +:+ Webserver.LF)].
Proof.
  intros t0 t1 ctl. apply (show_lcd_screen_rows ctl t0 t1 [] []).
  - repeat constructor; try discriminate; simpl; lia.
  - reflexivity.
Defined.
(** ** Blanks and arrows of the LCD *)

Section BlankFacts.
Import Controller03 Webserver.

(** A character that HTML shows as it is: neither a blank nor one of the
    arrow glyphs of the LCD. *)
Let plain (c : ascii) : Prop :=
  c <> " "%char /\ c <> LEFTARROW /\ c <> UPARROW /\ c <> RIGHTARROW /\ c <> DOWNARROW.

Lemma expansion_plain (cursor : bool) (c : ascii) :
  Forall plain (list_ascii_of_string (expansion cursor c)).
Proof.
  unfold expansion.
  destruct (decide (c = LEFTARROW)); [repeat constructor; discriminate|].
  destruct (decide (c = UPARROW)); [repeat constructor; discriminate|].
  destruct (decide (c = RIGHTARROW)); [repeat constructor; discriminate|].
  destruct (decide (c = DOWNARROW)); [repeat constructor; discriminate|].
  destruct (decide (c = " "%char)); [repeat constructor; discriminate|].
  assert (Hc : plain c) by done.
  destruct cursor; cbn; repeat (constructor; try exact Hc); repeat split; discriminate.
Qed.

Lemma expanded_plain (lcd_cursorblinking : bool) (lcdrow lcdcol row : Z)
    (src : list ascii) : forall col dst : Z,
  Forall plain (expanded lcd_cursorblinking lcdrow lcdcol row src col dst).
Proof.
  induction src as [|c src IH]; intros col dst; cbn [expanded]; [constructor|].
  case_decide; [|constructor]. apply Forall_app. split; [apply expansion_plain|apply IH].
Qed.

End BlankFacts.

(** X11.  [expand_arrows_and_blanks] leaves no blank and no arrow glyph of
    the LCD in the chunk it sends, whatever the LCD buffer holds: every
    blank has become the entity of a blank that is not collapsed, every
    arrow its HTML arrow.  If it sends no chunk, it is for a row that is
    not in the buffer or has no NUL up to the end of the buffer. *)
Theorem expand_arrows_and_blanks_no_blank (lcd_cursorblinking : bool)
    (lcdrow lcdcol row : Z) (lcdbuf : list ascii) :
  match Webserver.expand_arrows_and_blanks lcd_cursorblinking lcdrow lcdcol row lcdbuf with
  | Webserver.Done chunk =>
      Forall (fun c => c <> " "%char /\ c <> Controller03.LEFTARROW /\
                       c <> Controller03.UPARROW /\ c <> Controller03.RIGHTARROW /\
                       c <> Controller03.DOWNARROW)
        (list_ascii_of_string chunk)
  | Webserver.Fault f =>
      f = Webserver.Read_outside /\
      (row < 0 \/ Webserver.NUL ∉ drop (Z.to_nat (Webserver.LCD_COLS * row)) lcdbuf)
  end.
Proof.
  destruct (expand_arrows_and_blanks_result lcd_cursorblinking lcdrow lcdcol row lcdbuf)
    as [(_ & _ & ->)|(Hrow & ->)]; [|by split].
  rewrite list_ascii_of_string_of_list_ascii. apply Forall_app. split.
  - apply expanded_plain.
  - repeat constructor; discriminate.
Qed.
(** ** Wifi connection *)

Section WifiFacts.
Import Controller03 Webserver.




Lemma occurrences_nonneg `{EqDecision A} (x : A) (l : list A) : 0 <= occurrences x l.
Proof. unfold occurrences. lia. Qed.























End WifiFacts.


(** ** The page of the visitors *)

Section VisitorsPage.
Import Controller03 Webserver.
Variable compare_datetime : datetime -> datetime -> Z.
Variable format_datetime : datetime -> string.

(** [format_datetime] is given an array of 30 characters for its text. *)
Hypothesis format_datetime_fits :
  forall dt, (String.length (format_datetime dt) < 30)%nat.

(** A text that [visitors_GET_printer] does not cut. *)
Let whole (text : string) : Prop := (0 < String.length text < 250)%nat.

Lemma print_d_count_length (n : Z) :
  0 <= n <= INT_MAX -> (1 <= String.length (print_d n) <= 10)%nat.
Proof.
  intros Hn. destruct (print_d_digits 9 n) as (Hne & _ & Hlen & _);
    [lia|unfold INT_MAX in Hn; simpl; lia|].
  split; [|exact Hlen]. destruct (print_d n); [done|simpl; lia].
Qed.

Lemma visitor_texts_whole (c : client_t) :
  0 <= count c <= INT_MAX ->
  exists texts,
    visitor_texts compare_datetime format_datetime c = Done texts /\
    Forall whole texts.
Proof.
  intros Hcount. unfold visitor_texts, format_ip_address, sprintf.
  pose proof (ip_address_text_length (ip_address c)) as Hip.
  rewrite decide_True by lia. cbn [obind].
  eexists. split; [reflexivity|].
  pose proof (print_d_count_length _ Hcount) as Hd.
  pose proof (format_datetime_fits (first_time c)) as Hf.
  pose proof (format_datetime_fits (recent_time c)) as Hr.
  rewrite !Forall_app, !Forall_cons. split_and!; try apply Forall_nil; try exact I.
  - unfold whole. rewrite !length_append. simpl String.length. lia.
  - case_decide; [|constructor]. constructor; [|constructor].
    unfold whole. rewrite !length_append. simpl String.length. lia.
  - unfold whole. destruct (gave_password c); vm_compute; lia.
Qed.

Lemma dump_from_spec (l2 : list client_t) : forall l1 : list client_t,
  Forall (fun c => 0 <= count c <= INT_MAX) l2 ->
  exists texts,
    dump_from compare_datetime format_datetime (length l2) (Z.of_nat (length l1)) (l1 ++ l2)
      = Some (concat texts) /\
    Forall2 (fun c ts => visitor_texts compare_datetime format_datetime c = Done ts)
      (filter (fun c => count c > 0) l2) texts /\
    Forall (Forall whole) texts.
Proof.
  induction l2 as [|c l2 IH]; intros l1 Hcounts.
  - exists []. split_and!; [reflexivity|constructor|constructor].
  - apply Forall_cons in Hcounts as [Hc Hcounts].
    cbn [length dump_from]. rewrite load_nat, list_lookup_middle by reflexivity.
    cbn [mbind option_bind].
    destruct (IH (l1 ++ [c]) Hcounts) as (texts & Hdump & Htexts & Hwhole).
    rewrite length_app, Nat2Z.inj_add in Hdump. cbn [length] in Hdump.
    rewrite <- app_assoc in Hdump. cbn [app] in Hdump.
    change (Z.of_nat 1) with 1 in Hdump. rewrite Hdump.
    rewrite filter_cons. destruct (decide (count c > 0)) as [Hused|Hunused].
    + destruct (visitor_texts_whole c Hc) as (ts & Hts & Hw). rewrite Hts.
      cbn [defined mbind option_bind].
      exists (ts :: texts). split_and!; [reflexivity|by constructor|by constructor].
    + cbn [mbind option_bind]. exists texts. split_and!; done.
Qed.

Lemma printer_whole (texts : list string) :
  Forall whole texts -> visitors_GET_printer <$> texts = Send_chunk <$> texts.
Proof.
  induction 1 as [|text texts Htext _ IH]; [reflexivity|].
  cbn [fmap list_fmap]. f_equal; [|exact IH].
  unfold visitors_GET_printer. f_equal. apply snprintf_whole. unfold whole in Htext. lia.
Qed.

Lemma serve_all_app (reqs reqs' : list request_t) : forall t : list client_t,
  serve_all compare_datetime (reqs ++ reqs') t
  = serve_all compare_datetime reqs t ≫= serve_all compare_datetime reqs'.
Proof.
  induction reqs as [|r reqs IH]; intros t; [reflexivity|].
  cbn [app serve_all].
  destruct (remember_ip_address _ _ t) as [t1|]; [|reflexivity]. cbn [mbind option_bind].
  destruct (if request_visitors r then _ else _) as [t2|]; [|reflexivity].
  cbn [mbind option_bind]. apply IH.
Qed.

End VisitorsPage.

Section VisitorsHandler.
Import Controller03 Webserver.
Variable compare_datetime : datetime -> datetime -> Z.
Variable format_datetime : datetime -> string.
Hypothesis format_datetime_fits :
  forall dt, (String.length (format_datetime dt) < 30)%nat.

(** What requests and sorts keep of the table: its shape, that a free slot
    has no time, and that no time of a slot in use precedes the zero time. *)
Let well_kept (n : Z) (t : list client_t) : Prop :=
  visitor_table n t /\
  Forall (fun c => count c = 0 -> recent_time c = zero_datetime) t /\
  Forall (fun c => count c <> 0 -> ~ compare_datetime (recent_time c) zero_datetime < 0) t.

(** After a request from [addr] the table has an entry in use for it. *)
Lemma remember_ip_address_listed (n : Z) (t t1 : list client_t) (now : datetime)
    (addr : IPV4address) (k : Z) :
  visitor_table n t -> n < INT_MAX ->
  remember_ip_address now addr t = Some (t1, k) ->
  addr ∈ ip_address <$> filter (fun c => count c > 0) t1.
Proof.
  intros Ht Hn Hremember.
  destruct (remember_ip_address_step _ t now addr Ht Hn) as (t1' & k1 & Hr1 & Hcase).
  rewrite Hremember in Hr1. injection Hr1 as -> ->.
  assert (Hk : (k1 < length t)%nat).
  { destruct Hcase as [(c & Hc & _)|(_ & _ & c & Hc & _)]; by eapply lookup_lt_Some. }
  apply list_elem_of_fmap.
  destruct Hcase as [(c & Hc & Hip & -> & _)|(_ & -> & _)].
  - exists (seen_again now c). split; [by rewrite <- Hip|].
    apply list_elem_of_filter. split.
    + destruct Ht as (_ & _ & Hcount). rewrite Forall_forall in Hcount.
      assert (0 <= count c) by (apply (Hcount c); by eapply list_elem_of_lookup_2).
      simpl. lia.
    + eapply list_elem_of_lookup_2. by apply list_lookup_insert_eq.
  - exists (new_entry now addr). split; [reflexivity|].
    apply list_elem_of_filter. split; [simpl; lia|].
    eapply list_elem_of_lookup_2. by apply list_lookup_insert_eq.
Qed.

Lemma visitors_GET_handler_kept (n : Z) (now : datetime) (addr : IPV4address)
    (st : server_t) :
  well_kept n (clients st) -> n < INT_MAX ->
  ~ compare_datetime now zero_datetime < 0 ->
  client_requests st < INT_MAX ->
  exists st' texts t1 k,
    visitors_GET_handler compare_datetime format_datetime now addr st
      = Some (st', send_standard_headers false ++ (Send_chunk <$> concat texts)
                   ++ send_standard_close) /\
    remember_ip_address now addr (clients st) = Some (t1, k) /\
    sort_clients compare_datetime t1 = Some (clients st') /\
    well_kept (n + 1) (clients st') /\
    client_requests st' = client_requests st + 1 /\
    button_webpushed st' = button_webpushed st /\
    Forall2 (fun c ts => visitor_texts compare_datetime format_datetime c = Done ts)
      (filter (fun c => count c > 0) (clients st')) texts /\
    Forall (Forall (fun text => (0 < String.length text < 250)%nat)) texts /\
    NoDup (ip_address <$> filter (fun c => count c > 0) (clients st')) /\
    addr ∈ ip_address <$> filter (fun c => count c > 0) (clients st').
Proof.
  intros Hkept Hn Hnow Hcounter.
  destruct (well_kept_remember compare_datetime _ (clients st) now addr Hkept Hn Hnow)
    as (t1 & k & Hremember & Hkept1).
  destruct (well_kept_sort compare_datetime _ t1 Hkept1) as (t2 & Hsort & Hkept2).
  pose proof Hkept1 as ((Hlen1 & _) & _).
  pose proof (sort_clients_Permutation compare_datetime t1 t2 Hlen1 Hsort) as Hperm.
  pose proof Hkept2 as ((Hlen2 & Hdist2 & Hcount2) & _).
  destruct (dump_from_spec compare_datetime format_datetime format_datetime_fits t2 [])
    as (texts & Hdump & Htexts & Hwhole).
  { eapply Forall_impl; [exact Hcount2|]. simpl. intros c Hc. lia. }
  cbn [length app] in Hdump. rewrite Hlen2 in Hdump.
  eexists _, texts, t1, k. split_and!.
  - unfold visitors_GET_handler, report_ip_address.
    rewrite decide_True by exact Hcounter. rewrite Hremember.
    cbn [mbind option_bind clients fst].
    unfold visitors_dump. rewrite Hsort. cbn [mbind option_bind].
    change (Z.of_nat 0) with 0 in Hdump. rewrite Hdump. cbn [mbind option_bind fst snd].
    rewrite printer_whole; [reflexivity|]. by apply Forall_concat.
  - exact Hremember.
  - exact Hsort.
  - exact Hkept2.
  - reflexivity.
  - reflexivity.
  - exact Htexts.
  - exact Hwhole.
  - cbn [clients]. apply earlier_wins_NoDup.
    + by apply earlier_wins_filter, earlier_wins_iff.
    + apply Forall_forall. intros c [Hc _]%list_elem_of_filter. lia.
  - cbn [clients]. rewrite Hperm.
    destruct Hkept as (Ht & _). by eapply remember_ip_address_listed.
Qed.

End VisitorsHandler.

(** X14.  The page of the visitors.  After any requests, fewer than
    [INT_MAX], [visitors_GET_handler] records the request, sorts the table
    and sends, between the standard headers and the standard close, the
    texts of [visitors_dump] for the entries in use, in the order of the
    sorted table, none of them cut by the array of [visitors_GET_printer];
    no address is listed twice and the address that asks is listed.  This
    needs [format_datetime] to give texts that fit the array of 30
    characters it is handed, and [compare_datetime] never to place a clock
    reading before the zeroed time. *)
Theorem visitors_GET_handler_page
    (compare_datetime : Controller03.datetime -> Controller03.datetime -> Z)
    (format_datetime : Controller03.datetime -> string)
    (reqs : list Webserver.request_t) (now : Controller03.datetime)
    (addr : Webserver.IPV4address) (st : Webserver.server_t) :
  (forall dt, (String.length (format_datetime dt) < 30)%nat) ->
  Z.of_nat (length reqs) < Webserver.INT_MAX ->
  Webserver.clock_set compare_datetime reqs ->
  ~ compare_datetime now Webserver.zero_datetime < 0 ->
  Webserver.serve_all compare_datetime reqs Webserver.clients_init
    = Some (Webserver.clients st) ->
  Webserver.client_requests st < Webserver.INT_MAX ->
  let r := {| Webserver.request_now := now; Webserver.request_addr := addr;
              Webserver.request_visitors := true |} in
  exists st' texts,
    Webserver.visitors_GET_handler compare_datetime format_datetime now addr st
      = Some (st', Webserver.send_standard_headers false
                   ++ (Webserver.Send_chunk <$> concat texts)
                   ++ Webserver.send_standard_close) /\
    Webserver.serve_all compare_datetime (reqs ++ [r]) Webserver.clients_init
      = Some (Webserver.clients st') /\
    Webserver.client_requests st' = Webserver.client_requests st + 1 /\
    Forall2 (fun c ts =>
               Webserver.visitor_texts compare_datetime format_datetime c
               = Webserver.Done ts)
      (filter (fun c => Webserver.count c > 0) (Webserver.clients st')) texts /\
    NoDup (Webserver.ip_address
             <$> filter (fun c => Webserver.count c > 0) (Webserver.clients st')) /\
    addr ∈ Webserver.ip_address
             <$> filter (fun c => Webserver.count c > 0) (Webserver.clients st').
Proof.
  intros Hformat Hreqs Hclock Hnow Hreach Hcounter r.
  destruct (serve_all_kept compare_datetime reqs 0 Webserver.clients_init)
    as (t & Hserve & Hkept); [|lia|exact Hclock|].
  { split; [exact visitor_table_init|].
    split; apply Forall_replicate; [reflexivity|intros H; by contradict H]. }
  rewrite Hserve in Hreach. injection Hreach as ->. rewrite Z.add_0_l in Hkept.
  destruct (visitors_GET_handler_kept compare_datetime format_datetime Hformat
              _ now addr st Hkept Hreqs Hnow Hcounter)
    as (st' & texts & t1 & k & Hrun & Hremember & Hsort & _ & Hcount & _ & Htexts & _
        & Hnodup & Hlisted).
  exists st', texts. split_and!; try done.
  rewrite serve_all_app, Hserve. cbn [mbind option_bind].
  cbn [Webserver.serve_all Webserver.request_now Webserver.request_addr
       Webserver.request_visitors r]. rewrite Hremember. cbn [mbind option_bind fst].
  by rewrite Hsort.
Qed.

Lemma visitors_GET_handler_page_first_request :
  let compare a b := Controller03.year a - Controller03.year b in
  let format (dt : Controller03.datetime) := "2022-01-01 01:00:00" in
  let st := Webserver.server_init in
  let r := {| Webserver.request_now := Webserver.zero_datetime;
              Webserver.request_addr := 0x0100A8C0;
              Webserver.request_visitors := true |} in
  exists st' texts,
    Webserver.visitors_GET_handler compare format Webserver.zero_datetime 0x0100A8C0 st
      = Some (st', Webserver.send_standard_headers false
                   ++ (Webserver.Send_chunk <$> concat texts)
                   ++ Webserver.send_standard_close) /\
    Webserver.serve_all compare ([] ++ [r]) Webserver.clients_init
      = Some (Webserver.clients st') /\
    Webserver.client_requests st' = Webserver.client_requests st + 1 /\
    Forall2 (fun c ts => Webserver.visitor_texts compare format c = Webserver.Done ts)
      (filter (fun c => Webserver.count c > 0) (Webserver.clients st')) texts /\
    NoDup (Webserver.ip_address
             <$> filter (fun c => Webserver.count c > 0) (Webserver.clients st')) /\
    0x0100A8C0 ∈ Webserver.ip_address
             <$> filter (fun c => Webserver.count c > 0) (Webserver.clients st').
Proof.
  intros compare format st r.
  apply (visitors_GET_handler_page compare format [] Webserver.zero_datetime 0x0100A8C0 st).
  - intros dt. vm_compute. lia.
  - vm_compute. reflexivity.
  - constructor.
  - vm_compute. discriminate.
  - reflexivity.
  - vm_compute. reflexivity.
Defined.
(** ** The server *)

Section PageFacts.
Import Controller03 Webserver.

Lemma elem_of_drop_le {A} (x : A) (l : list A) (m n : nat) :
  (m <= n)%nat -> x ∈ drop n l -> x ∈ drop m l.
Proof.
  intros Hmn [i Hi]%list_elem_of_lookup_1. rewrite lookup_drop in Hi.
  apply (list_elem_of_lookup_2 _ (n - m + i)). rewrite lookup_drop. rewrite <- Hi. f_equal. lia.
Qed.

Lemma string_of_list_ascii_nonempty (l : list ascii) :
  l <> [] -> string_of_list_ascii l <> "".
Proof. by destruct l. Qed.

(** A row that holds a NUL is sent, and its chunk is not empty. *)
Lemma expand_rows_chunks (ctl : controller_t) (rows : list Z) :
  Forall (fun row => 0 <= row /\ NUL ∈ drop (Z.to_nat (LCD_COLS * row)) (lcdbuf ctl)) rows ->
  exists texts,
    expand_rows ctl rows = Done (Send_chunk <$> texts) /\
    length texts = length rows /\ Forall (fun text => text <> "") texts.
Proof.
  induction 1 as [|row rows [Hrow Hnul] _ (texts & IH & Hlen & Hne)].
  - exists []. split_and!; [reflexivity|reflexivity|constructor].
  - cbn [expand_rows].
    destruct (expand_arrows_and_blanks_result (lcd_cursorblinking ctl) (lcdrow ctl)
                (lcdcol ctl) row (lcdbuf ctl)) as [(_ & _ & ->)|([Hneg|Hno] & _)];
      [|lia|contradiction].
    rewrite IH. cbn [obind].
    eexists (_ :: texts). split_and!; [reflexivity|simpl; by rewrite Hlen|].
    constructor; [|exact Hne]. apply string_of_list_ascii_nonempty.
    intros Hnil. apply (f_equal length) in Hnil. rewrite length_app in Hnil.
    simpl in Hnil. lia.
Qed.

(** The LCD screen is sent when the last row of [lcdbuf] holds a NUL: the
    rows before it then end there at the latest. *)
Lemma show_lcd_screen_chunks (ctl : controller_t) :
  NUL ∈ drop (Z.to_nat (LCD_COLS * (LCD_ROWS - 1))) (lcdbuf ctl) ->
  exists texts,
    show_lcd_screen ctl = Done (Send_chunk <$> texts) /\
    length texts = 6%nat /\ Forall (fun text => text <> "") texts.
Proof.
  intros Hnul. unfold show_lcd_screen.
  destruct (expand_rows_chunks ctl (seqZ 0 LCD_ROWS)) as (texts & -> & Hlen & Hne).
  { apply Forall_forall. intros row Hrow%elem_of_seqZ. unfold LCD_ROWS in Hrow.
    split; [lia|]. eapply elem_of_drop_le; [|exact Hnul].
    unfold LCD_COLS, LCD_ROWS. lia. }
  cbn [obind].
  eexists (_ :: texts ++ [_]). split_and!.
  - cbn [fmap list_fmap]. rewrite fmap_app. reflexivity.
  - cbn [length]. rewrite length_app, Hlen. reflexivity.
  - constructor; [by vm_compute|]. apply Forall_app. split; [exact Hne|].
    constructor; [by vm_compute|constructor].
Qed.

Lemma chunks_texts (P : string -> Prop) (chunks : list sent) :
  Forall (fun s => exists text, s = Send_chunk text /\ P text) chunks ->
  exists texts, chunks = Send_chunk <$> texts /\ Forall P texts.
Proof.
  induction 1 as [|s chunks (text & -> & Htext) _ (texts & -> & Htexts)].
  - by exists [].
  - exists (text :: texts). split; [reflexivity|by constructor].
Qed.

Lemma show_buttons_texts (ctl : controller_t) :
  NUM_BUTTONS <= Z.of_nat (length (led_masks ctl)) ->
  exists texts,
    show_buttons ctl = Done (Send_chunk <$> texts) /\
    length texts = 18%nat /\ Forall (fun text => text <> "") texts.
Proof.
  intros Hmasks. destruct (show_buttons_short ctl Hmasks) as (chunks & -> & Hlen & Hshort).
  apply chunks_texts in Hshort as (texts & -> & Htexts).
  exists texts. split; [reflexivity|]. split; [by rewrite length_fmap in Hlen|].
  eapply Forall_impl; [exact Htexts|]. intros text Htext ->. simpl in Htext. lia.
Qed.

Lemma send_standard_headers_texts (homepage : bool) :
  exists texts,
    send_standard_headers homepage = Set_hdr "Connection" "close" :: (Send_chunk <$> texts) /\
    length texts = 14%nat /\ Forall (fun text => text <> "") texts.
Proof.
  destruct homepage.
  - exists (RESPONSE_PROLOG :: RESPONSE_REFRESH_HEADER :: response_headers).
    split_and!; [reflexivity|reflexivity|]. repeat constructor; by vm_compute.
  - exists (RESPONSE_PROLOG :: response_headers ++ [RESPONSE_HOMEBUTTON]).
    split_and!; [|reflexivity|repeat constructor; by vm_compute].
    unfold send_standard_headers. cbn [app fmap list_fmap]. by rewrite fmap_app.
Qed.

(** A response made of the standard headers, a body of chunks that are
    not empty and the standard close is ended once. *)
Lemma ended_once_page (homepage : bool) (texts : list string) :
  Forall (fun text => text <> "") texts ->
  ended_once (send_standard_headers homepage ++ (Send_chunk <$> texts)
              ++ send_standard_close).
Proof.
  intros Htexts.
  destruct (send_standard_headers_texts homepage) as (headers & -> & _ & Hheaders).
  exists (headers ++ texts ++ [" </body></html>" +:+ LF]). split.
  - unfold send_standard_close. rewrite !fmap_app. cbn [fmap list_fmap app].
    rewrite <- !app_assoc. reflexivity.
  - rewrite !Forall_app. split_and!; [exact Hheaders|exact Htexts|].
    constructor; [by vm_compute|constructor].
Qed.

Lemma home_page_ended_once (ctl : controller_t) :
  NUL ∈ drop (Z.to_nat (LCD_COLS * (LCD_ROWS - 1))) (lcdbuf ctl) ->
  NUM_BUTTONS <= Z.of_nat (length (led_masks ctl)) ->
  exists page, home_page ctl = Some page /\ ended_once page /\ length page = 41%nat.
Proof.
  intros Hnul Hmasks. unfold home_page.
  destruct (show_lcd_screen_chunks ctl Hnul) as (lcd & -> & Hlen & Hlcd).
  destruct (show_buttons_texts ctl Hmasks) as (buttons & -> & Hlen' & Hbuttons).
  cbn [defined mbind option_bind]. eexists. split; [reflexivity|]. split.
  - rewrite (app_assoc (Send_chunk <$> lcd)), <- fmap_app.
    apply ended_once_page. apply Forall_app. by split.
  - rewrite !length_app, !length_fmap, Hlen, Hlen'. reflexivity.
Qed.

(** The printers of /log and /temps never give an empty chunk. *)
Lemma line_printer_chunks (size : Z) (lines : list string) :
  2 <= size ->
  exists texts,
    line_printer size <$> lines = Send_chunk <$> texts /\
    Forall (fun text => text <> "") texts.
Proof.
  intros Hsize. induction lines as [|line lines (texts & IH & Htexts)]; [by exists []|].
  eexists (_ :: texts). split; [cbn [fmap list_fmap]; rewrite IH; reflexivity|].
  constructor; [|exact Htexts]. unfold snprintf. cbn [fst].
  destruct (Z.to_nat (size - 1)) as [|n] eqn:Hn; [lia|].
  destruct line as [|c line]; discriminate.
Qed.

End PageFacts.

Section ServerFacts.
Import Controller03 Webserver.
Variable compare_datetime : datetime -> datetime -> Z.
Variable format_datetime : datetime -> string.
Variable iconimagejpg : string.
Hypothesis format_datetime_fits :
  forall dt, (String.length (format_datetime dt) < 30)%nat.

(** What the requests keep: the table as requests and sorts keep it, and
    as many requests counted as were handled. *)
Let served (n : Z) (st : server_t) : Prop :=
  (visitor_table n (clients st) /\
   Forall (fun c => count c = 0 -> recent_time c = zero_datetime) (clients st) /\
   Forall (fun c => count c <> 0 -> ~ compare_datetime (recent_time c) zero_datetime < 0)
     (clients st)) /\
  client_requests st = n.

(** What a request needs of the controller for the home page: a NUL in the
    last row of the LCD and a mask for the LED of each button; and of
    [httpd_req_recv] for a POST: a count of bytes and not an error. *)
Let page_ready (r : http_request) : Prop :=
  NUL ∈ drop (Z.to_nat (LCD_COLS * (LCD_ROWS - 1))) (lcdbuf (req_ctl r)) /\
  NUM_BUTTONS <= Z.of_nat (length (led_masks (req_ctl r))) /\
  match req_page r with
  | Button_push body datalen =>
      0 <= datalen <= sizeof_postdata - 1 /\ datalen <= Z.of_nat (String.length body)
  | _ => True
  end.

(** The response of a request: the icon, or a page that is ended once. *)
Let answered (r : http_request) (response : list sent) : Prop :=
  match req_page r with
  | Favicon =>
      response = [Set_hdr "Connection" "close"; Set_hdr "Content-Type" "image/jpg";
                  Send iconimagejpg]
  | _ => ended_once response
  end.

Lemma report_ip_address_served (n : Z) (now : datetime) (addr : IPV4address)
    (content : string) (st : server_t) :
  served n st -> n < INT_MAX -> ~ compare_datetime now zero_datetime < 0 ->
  exists st1 k,
    report_ip_address now addr content st = Some st1 /\
    remember_ip_address now addr (clients st) = Some (clients st1, k) /\
    served (n + 1) st1.
Proof.
  intros [Hkept Hcounter] Hn Hnow.
  destruct (well_kept_remember compare_datetime _ (clients st) now addr Hkept Hn Hnow)
    as (t1 & k & Hremember & Hkept1).
  unfold report_ip_address. rewrite decide_True by lia. rewrite Hremember.
  cbn [mbind option_bind fst]. eexists _, k. split; [reflexivity|].
  split; [reflexivity|]. split; [exact Hkept1|]. cbn [client_requests]. lia.
Qed.

Lemma handle_served (r : http_request) (n : Z) (st : server_t) :
  served n st -> n < INT_MAX ->
  ~ compare_datetime (req_now r) zero_datetime < 0 -> page_ready r ->
  exists st' response t1 k,
    handle compare_datetime format_datetime iconimagejpg r st = Some (st', response) /\
    remember_ip_address (req_now r) (req_addr r) (clients st) = Some (t1, k) /\
    (if request_visitors (table_request r) then sort_clients compare_datetime t1
     else Some t1) = Some (clients st') /\
    served (n + 1) st' /\ answered r response.
Proof.
  intros Hserved Hn Hnow (Hnul & Hmasks & Hrecv). unfold handle, answered, table_request.
  cbn [request_visitors].
  destruct (req_page r) as [| | | | |body datalen].
  - (* / *)
    destruct (report_ip_address_served n (req_now r) (req_addr r) "" st Hserved Hn Hnow)
      as (st1 & k & Hreport & Hremember & Hserved1).
    destruct (home_page_ended_once (req_ctl r) Hnul Hmasks) as (page & Hpage & Hended & _).
    unfold root_GET_handler. rewrite Hreport, Hpage. cbn [mbind option_bind].
    by exists st1, page, (clients st1), k.
  - (* /favicon.ico *)
    destruct (report_ip_address_served n (req_now r) (req_addr r) "" st Hserved Hn Hnow)
      as (st1 & k & Hreport & Hremember & Hserved1).
    unfold favicon_GET_handler. rewrite Hreport. cbn [mbind option_bind].
    by eexists st1, _, (clients st1), k.
  - (* /log *)
    destruct (report_ip_address_served n (req_now r) (req_addr r) "" st Hserved Hn Hnow)
      as (st1 & k & Hreport & Hremember & Hserved1).
    unfold log_GET_handler. rewrite Hreport. cbn [mbind option_bind].
    eexists st1, _, (clients st1), k. split_and!; try done.
    destruct (line_printer_chunks 210 (req_lines r)) as (texts & Htexts & Hne); [lia|].
    unfold log_GET_printer. rewrite Htexts. by apply ended_once_page.
  - (* /temps *)
    destruct (report_ip_address_served n (req_now r) (req_addr r) "" st Hserved Hn Hnow)
      as (st1 & k & Hreport & Hremember & Hserved1).
    unfold temps_GET_handler. rewrite Hreport. cbn [mbind option_bind].
    eexists st1, _, (clients st1), k. split_and!; try done.
    destruct (line_printer_chunks 100 (req_lines r)) as (texts & Htexts & Hne); [lia|].
    unfold temp_GET_printer. rewrite Htexts. by apply ended_once_page.
  - (* /visitors *)
    destruct Hserved as [Hkept Hcounter].
    destruct (visitors_GET_handler_kept compare_datetime format_datetime
                format_datetime_fits n (req_now r) (req_addr r) st Hkept Hn Hnow)
      as (st' & texts & t1 & k & Hrun & Hremember & Hsort & Hkept' & Hcount & _ & _
          & Hwhole & _); [lia|].
    eexists st', _, t1, k. split_and!; [exact Hrun|exact Hremember|exact Hsort| |].
    + split; [exact Hkept'|lia].
    + apply ended_once_page. apply Forall_concat.
      eapply Forall_impl; [exact Hwhole|]. intros ts Hts.
      eapply Forall_impl; [exact Hts|]. intros text Htext ->. simpl in Htext. lia.
  - (* POST / *)
    destruct Hrecv as [Hfit Hbody].
    pose proof (receive_postdata_stored body datalen Hfit Hbody) as Hpostdata.
    set (postdata := c_str (String.substring 0 (Z.to_nat datalen) body)) in Hpostdata.
    destruct (report_ip_address_served n (req_now r) (req_addr r) postdata st
                Hserved Hn Hnow)
      as (st1 & k & Hreport & Hremember & [Hkept1 Hcounter1]).
    pose proof (button_POST_handler_scanned (req_now r) (req_addr r) body datalen
                  postdata st Hpostdata) as Hpost.
    cbv zeta in Hpost. rewrite Hreport in Hpost.
    destruct Hpost as (st' & new & Hrun & _ & Hclients & Hrequests & _).
    destruct (home_page_ended_once (req_ctl r) Hnul Hmasks) as (page & Hpage & Hended & _).
    rewrite Hrun, Hpage. cbn [mbind option_bind].
    exists st', page, (clients st1), k. split_and!; try done.
    + by rewrite Hclients.
    + split; [by rewrite Hclients|]. by rewrite Hrequests.
Qed.

Lemma handle_all_served (rs : list http_request) : forall (n : Z) (st : server_t),
  served n st -> n + Z.of_nat (length rs) <= INT_MAX ->
  clock_set compare_datetime (table_request <$> rs) ->
  Forall page_ready rs ->
  exists st' responses,
    handle_all compare_datetime format_datetime iconimagejpg rs st = Some (st', responses) /\
    serve_all compare_datetime (table_request <$> rs) (clients st) = Some (clients st') /\
    served (n + Z.of_nat (length rs)) st' /\
    Forall2 answered rs responses.
Proof.
  induction rs as [|r rs IH]; intros n st Hserved Hn Hclock Hready.
  - exists st, []. split_and!; [reflexivity|reflexivity| |constructor].
    simpl. by rewrite Z.add_0_r.
  - cbn [fmap list_fmap] in Hclock. apply Forall_cons in Hclock as [Hnow Hclock].
    apply Forall_cons in Hready as [Hr Hready]. cbn [length] in Hn.
    destruct (handle_served r n st Hserved ltac:(lia) Hnow Hr)
      as (st1 & response & t1 & k & Hrun & Hremember & Hsort & Hserved1 & Hanswered).
    destruct (IH (n + 1) st1 Hserved1 ltac:(lia) Hclock Hready)
      as (st' & responses & Hall & Hserve & Hserved' & Hanswers).
    exists st', (response :: responses). split_and!.
    + cbn [handle_all]. rewrite Hrun. cbn [mbind option_bind fst snd]. by rewrite Hall.
    + cbn [fmap list_fmap serve_all].
      change (request_now (table_request r)) with (req_now r).
      change (request_addr (table_request r)) with (req_addr r).
      rewrite Hremember. cbn [mbind option_bind fst]. rewrite Hsort.
      cbn [mbind option_bind]. exact Hserve.
    + replace (n + Z.of_nat (length (r :: rs))) with (n + 1 + Z.of_nat (length rs))
        by (cbn [length]; lia).
      exact Hserved'.
    + by constructor.
Qed.

End ServerFacts.

(** X15.  As long as [httpd_req_recv] gives the handler of a POST a count
    of bytes and not an error, the handlers do not run into undefined
    behaviour, whatever is requested: any sequence of fewer than [INT_MAX]
    requests for the pages of the server is handled to its end, each
    request is counted once in [client_requests] and recorded once in the
    visitor table, which /visitors sorts, and each response in chunks is
    ended once, by its last chunk, after chunks that are not empty;
    /favicon.ico gets the icon.  This holds provided that, when a handler
    runs, the last row of the LCD buffer holds a NUL, [led_masks] has a mask
    for each button, [format_datetime] gives texts that fit its array of 30
    characters, [compare_datetime] does not place the clock before the
    zeroed time, and what [httpd_req_recv] returns for a POST is between 0
    and the 24 bytes asked for, and no more than the body has. *)
Theorem handlers_defined
    (compare_datetime : Controller03.datetime -> Controller03.datetime -> Z)
    (format_datetime : Controller03.datetime -> string) (iconimagejpg : string)
    (rs : list Webserver.http_request) :
  (forall dt, (String.length (format_datetime dt) < 30)%nat) ->
  Z.of_nat (length rs) < Webserver.INT_MAX ->
  Webserver.clock_set compare_datetime (Webserver.table_request <$> rs) ->
  Forall (fun r =>
            Webserver.NUL
              ∈ drop (Z.to_nat (Webserver.LCD_COLS * (Webserver.LCD_ROWS - 1)))
                  (Webserver.lcdbuf (Webserver.req_ctl r)) /\
            Controller03.NUM_BUTTONS
              <= Z.of_nat (length (Webserver.led_masks (Webserver.req_ctl r))) /\
            match Webserver.req_page r with
            | Webserver.Button_push body datalen =>
                0 <= datalen <= Webserver.sizeof_postdata - 1 /\
                datalen <= Z.of_nat (String.length body)
            | _ => True
            end) rs ->
  exists st responses,
    Webserver.handle_all compare_datetime format_datetime iconimagejpg rs
      Webserver.server_init = Some (st, responses) /\
    Webserver.client_requests st = Z.of_nat (length rs) /\
    Webserver.serve_all compare_datetime (Webserver.table_request <$> rs)
      Webserver.clients_init = Some (Webserver.clients st) /\
    Forall2 (fun r response =>
               match Webserver.req_page r with
               | Webserver.Favicon =>
                   response = [Webserver.Set_hdr "Connection" "close";
                               Webserver.Set_hdr "Content-Type" "image/jpg";
                               Webserver.Send iconimagejpg]
               | _ => Webserver.ended_once response
               end) rs responses.
Proof.
  intros Hformat Hrs Hclock Hready.
  destruct (handle_all_served compare_datetime format_datetime iconimagejpg Hformat rs 0
              Webserver.server_init)
    as (st & responses & Hall & Hserve & [_ Hcounter] & Hanswers);
    [|lia|exact Hclock|exact Hready|].
  - split; [|reflexivity]. split; [exact visitor_table_init|].
    split; apply Forall_replicate; [reflexivity|intros H; by contradict H].
  - exists st, responses. split_and!; [exact Hall|lia|exact Hserve|exact Hanswers].
Qed.

Lemma handlers_defined_example :
  let compare a b := Controller03.year a - Controller03.year b in
  let format (dt : Controller03.datetime) := "2022-01-01 01:00:00" in
  let ctl := {| Webserver.lcdbuf := replicate 84 Webserver.NUL;
                Webserver.lcdrow := 0; Webserver.lcdcol := 0;
                Webserver.lcd_cursorblinking := false;
                Webserver.heater_mode := Controller03.HEATING_NONE;
                Webserver.heater_on := false; Webserver.leds_on := 0;
                Webserver.led_masks := [1; 2; 4; 8; 16; 32; 64; 128; 1024; 512; 256] |} in
  let request page :=
    {| Webserver.req_page := page; Webserver.req_now := Webserver.zero_datetime;
       Webserver.req_peer := Some (0, 0, 0xFFFF0000, 0x0100A8C0);
       Webserver.req_ctl := ctl;
       Webserver.req_lines := ["started"] |} in
  let rs := [request Webserver.Root; request (Webserver.Button_push "temp=up" 7);
             request Webserver.Visitors; request Webserver.Favicon] in
  exists st responses,
    Webserver.handle_all compare format "icon" rs Webserver.server_init
      = Some (st, responses) /\
    Webserver.client_requests st = Z.of_nat (length rs) /\
    Webserver.serve_all compare (Webserver.table_request <$> rs) Webserver.clients_init
      = Some (Webserver.clients st) /\
    Forall2 (fun r response =>
               match Webserver.req_page r with
               | Webserver.Favicon =>
                   response = [Webserver.Set_hdr "Connection" "close";
                               Webserver.Set_hdr "Content-Type" "image/jpg";
                               Webserver.Send "icon"]
               | _ => Webserver.ended_once response
               end) rs responses.
Proof.
  intros compare format ctl request rs.
  apply (handlers_defined compare format "icon" rs).
  - intros dt. vm_compute. lia.
  - vm_compute. reflexivity.
  - repeat constructor; vm_compute; discriminate.
  - repeat constructor; try (vm_compute; discriminate);
      apply list_elem_of_lookup_2 with 0%nat; reflexivity.
Defined.
(** ** The printers of the log and of the temperature history *)

Section PrinterFacts.
Import Controller03 Webserver.

(** [snprintf] stores the longest beginning of the text that the array
    holds with its terminator. *)
Lemma substring_cut (s : string) : forall n : nat,
  exists rest,
    s = String.substring 0 n s +:+ rest /\
    String.length (String.substring 0 n s) = Nat.min (String.length s) n.
Proof.
  induction s as [|c s IH]; intros [|n]; simpl.
  - by exists "".
  - by exists "".
  - by exists (String c s).
  - destruct (IH n) as (rest & Heq & Hlen). exists rest.
    rewrite append_cons, <- Heq, Hlen. done.
Qed.

Lemma line_printer_cut (size : Z) (line : string) :
  6 <= size ->
  exists text rest,
    line_printer size line = Send_chunk text /\
    line +:+ "<br>" +:+ LF = text +:+ rest /\
    Z.of_nat (String.length text) = Z.min (Z.of_nat (String.length line) + 5) (size - 1) /\
    (rest = "" <-> Z.of_nat (String.length line) + 6 <= size).
Proof.
  intros Hsize. unfold line_printer, snprintf. cbn [fst].
  destruct (substring_cut (line +:+ "<br>" +:+ LF) (Z.to_nat (size - 1)))
    as (rest & Heq & Hlen).
  eexists _, rest. split; [reflexivity|]. split; [exact Heq|].
  assert (Htext : String.length (line +:+ "<br>" +:+ LF) = (String.length line + 5)%nat)
    by (rewrite !length_append; reflexivity).
  rewrite Htext in Hlen. split; [lia|].
  apply (f_equal String.length) in Heq. rewrite Htext, length_append, Hlen in Heq.
  split.
  - intros ->. simpl in Heq. lia.
  - intros Hfits. destruct rest; [done|]. simpl in Heq. lia.
Qed.

End PrinterFacts.

(** X16.  The printers of /log and /temps cut long lines.  [log_GET_printer]
    sends a line with its "<br>" and newline if and only if the line has at
    most 204 characters, [temp_GET_printer] if and only if it has at most
    94; of a longer line they send the first 209, or 99, characters of the
    line and its ending, so that the ending is cut or lost.  The chunk is
    never empty. *)
Theorem line_printers_cut (line : string) :
  let whole := line +:+ "<br>" +:+ Webserver.LF in
  (Webserver.log_GET_printer line = Webserver.Send_chunk whole
   <-> (String.length line <= 204)%nat) /\
  (Webserver.temp_GET_printer line = Webserver.Send_chunk whole
   <-> (String.length line <= 94)%nat) /\
  (exists text rest,
     Webserver.log_GET_printer line = Webserver.Send_chunk text /\
     whole = text +:+ rest /\
     String.length text = Nat.min (String.length line + 5) 209) /\
  (exists text rest,
     Webserver.temp_GET_printer line = Webserver.Send_chunk text /\
     whole = text +:+ rest /\
     String.length text = Nat.min (String.length line + 5) 99).
Proof.
  intros whole. unfold Webserver.log_GET_printer, Webserver.temp_GET_printer.
  destruct (line_printer_cut 210 line) as (t1 & r1 & -> & Heq1 & Hlen1 & Hrest1); [lia|].
  destruct (line_printer_cut 100 line) as (t2 & r2 & -> & Heq2 & Hlen2 & Hrest2); [lia|].
  fold whole in Heq1, Heq2.
  assert (Hwhole : forall t r, whole = t +:+ r -> (t = whole <-> r = "")).
  { intros t r Heq. split.
    - intros ->. apply (f_equal String.length) in Heq. rewrite length_append in Heq.
      destruct r; [done|]. simpl in Heq. lia.
    - intros ->. by rewrite append_nil_r in Heq. }
  split_and!.
  - split.
    + intros [= Ht]. apply (Hwhole _ _ Heq1), Hrest1 in Ht. lia.
    + intros Hfits. f_equal. apply (Hwhole _ _ Heq1), Hrest1. lia.
  - split.
    + intros [= Ht]. apply (Hwhole _ _ Heq2), Hrest2 in Ht. lia.
    + intros Hfits. f_equal. apply (Hwhole _ _ Heq2), Hrest2. lia.
  - exists t1, r1. split_and!; [reflexivity|exact Heq1|lia].
  - exists t2, r2. split_and!; [reflexivity|exact Heq2|lia].
Qed.
(** ** LEDs, pins and addresses *)

Lemma led_masks_disjoint (l l' : Controller03.led) :
  l <> l' -> Z.land (Controller03.led_mask l) (Controller03.led_mask l') = 0.
Proof. destruct l, l'; intros Hne; try done; reflexivity. Qed.

(** X17.  Both header versions name eleven LEDs and give each one bit of the
    16-bit LED word, no two LEDs the same bit: switching one LED on or off
    in [leds_on] leaves every other LED as it was; [LED_ON] holds the bit of
    every LED and [LED_OFF] of none.  In version 3 the LED named after a button
    has the mask of the button; against version 2, version 3 swaps the
    masks of the red and the blue LED of the temperature control. *)
Theorem leds_independent :
  card Controller02.led = 11%nat /\
  Z.of_nat (card Controller03.led) = Controller03.NUM_LEDS /\
  (forall l, exists k, 0 <= k < 16 /\ Controller02.led_mask l = 2 ^ k) /\
  (forall l, exists k, 0 <= k < 16 /\ Controller03.led_mask l = 2 ^ k) /\
  (forall l l', l <> l' ->
     Z.land (Controller02.led_mask l) (Controller02.led_mask l') = 0) /\
  (forall l l' leds_on, l <> l' ->
     Z.land (Z.lor leds_on (Controller03.led_mask l)) (Controller03.led_mask l')
       = Z.land leds_on (Controller03.led_mask l') /\
     Z.land (Z.ldiff leds_on (Controller03.led_mask l)) (Controller03.led_mask l')
       = Z.land leds_on (Controller03.led_mask l')) /\
  (forall l,
     Z.land Controller03.LED_ON (Controller03.led_mask l) = Controller03.led_mask l /\
     Z.land Controller03.LED_OFF (Controller03.led_mask l) = 0) /\
  (forall b,
     Controller03.led_mask (Controller03.button_led b) = Controller03.button_mask b) /\
  Controller03.led_mask Controller03.TEMPCTL_RED_LED
    = Controller02.led_mask Controller02.TEMPCTL_BLUE_LED /\
  Controller03.led_mask Controller03.TEMPCTL_BLUE_LED
    = Controller02.led_mask Controller02.TEMPCTL_RED_LED.
Proof.
  split_and!; try reflexivity.
  - intros l. exists (Z.log2 (Controller02.led_mask l)).
    destruct l; vm_compute; repeat split; congruence.
  - intros l. exists (Z.log2 (Controller03.led_mask l)).
    destruct l; vm_compute; repeat split; congruence.
  - intros l l' Hne. destruct l, l'; try done; reflexivity.
  - intros l l' w Hne. split.
    + apply land_lor_disjoint, led_masks_disjoint, Hne.
    + apply land_ldiff_disjoint, led_masks_disjoint, Hne.
  - intros l. destruct l; split; reflexivity.
  - intros b. destruct b; reflexivity.
Qed.

(** X18.  No pin and no address is given two uses: the 32 I/O pins of
    version 2, and the 8 I/O pins and the 5 I2C addresses of version 3, are
    all different, and the I2C addresses are 7-bit addresses outside the
    reserved ones. *)
Theorem io_map_distinct :
  NoDup Controller02.io_pins /\ length Controller02.io_pins = 32%nat /\
  NoDup Controller03.io_pins /\ length Controller03.io_pins = 8%nat /\
  NoDup Controller03.i2c_addresses /\
  Forall (fun a => 0x08 <= a <= 0x77) Controller03.i2c_addresses.
Proof.
  split_and!; try reflexivity.
  - apply (bool_decide_unpack _). vm_compute. exact I.
  - apply (bool_decide_unpack _). vm_compute. exact I.
  - apply (bool_decide_unpack _). vm_compute. exact I.
  - repeat constructor; vm_compute; discriminate.
Qed.
